(** * fio_metrics: extraction of per-job metrics from a parsed fio report

    A shallow embedding of [fio_metrics.py].  The parsed JSON document is an
    inductive tree, Python integers are [Z], Python floats are the binary64
    values of the standard library's [spec_float] with its IEEE-754
    operations, and exceptions are an explicit error type threaded through
    an error monad in the order in which the source evaluates.

    What the model takes from the Python runtime rather than from the
    source:
    - strings are sequences of characters with code points below 256; the
      classes [[0-9]] and [[A-Za-z]] of the pattern are the ASCII ones, and
      so is [str.lower], which the source applies to runs of ASCII letters
      only; every other character is neither a digit nor a letter;
    - [int] of a string refuses more than 4300 digits, the default limit
      of CPython 3.11;
    - an object of the document has each key once, so that reading an
      association list by first match is reading the dictionary;
    - the floats of a document are valid binary64 values;
    - [int / int] is the correctly rounded quotient, [round] rounds to the
      nearest integer with ties to even, as CPython does;
    - [open] and [json.load] are functions of a host: a file opens, or
      [open] raises an exception of some class; its text loads, or
      [json.load] raises an exception of some class, be it for the reading
      or for the parsing.  What is kept of the file objects is how many
      are open.

    The command-line entry under [__main__] is not modelled. *)

From Stdlib Require Import ZArith List Bool Ascii String Lia Sorted.
From Stdlib Require Import Floats.SpecFloat.
Import ListNotations.

Local Open Scope string_scope.
Local Open Scope list_scope.
Local Open Scope Z_scope.

Set Warnings "-register-all".

(** ** Python values *)

(** Binary64: 53 bits of precision, infinities at exponent 1024. *)
Definition prec : Z := 53.
Definition emax : Z := 1024.

(** A Python number as the source computes with it: an unbounded [int] or a
    binary64 [float]. *)
Inductive pynum : Type :=
| PInt (z : Z)
| PFloat (f : spec_float).

(** What [json.load] produces.  An object is an association list read by
    first match. *)
Inductive json : Type :=
| JNull
| JBool (b : bool)
| JInt (z : Z)
| JFloat (f : spec_float)
| JStr (s : string)
| JArr (items : list json)
| JObj (fields : list (string * json)).

(** The exceptions the module can raise.  [NoValuesError] carries its
    message, the two sites that raise it use different ones. *)
Inductive exn : Type :=
| KeyError (key : string)
| ValueError
| TypeError
| OverflowError
| ZeroDivisionError
| NoValuesError (msg : string).

Inductive outcome (A : Type) : Type :=
| Ok (a : A)
| Raise (e : exn).
Arguments Ok {A} a.
Arguments Raise {A} e.

Definition bind {A B : Type} (m : outcome A) (k : A -> outcome B) : outcome B :=
  match m with
  | Ok a => k a
  | Raise e => Raise e
  end.

Notation "x <- m ;; k" := (bind m (fun x => k))
  (at level 61, m at next level, right associativity).
Notation "' pat <- m ;; k" := (bind m (fun x => match x with pat => k end))
  (at level 61, pat pattern, m at next level, right associativity).

(** ** Strings: character classes, [re.findall], [str.lower], [int] *)

Definition is_digit (c : ascii) : bool :=
  let n := nat_of_ascii c in (48 <=? n)%nat && (n <=? 57)%nat.

Definition is_upper (c : ascii) : bool :=
  let n := nat_of_ascii c in (65 <=? n)%nat && (n <=? 90)%nat.

Definition is_lower (c : ascii) : bool :=
  let n := nat_of_ascii c in (97 <=? n)%nat && (n <=? 122)%nat.

Definition is_alpha (c : ascii) : bool := is_upper c || is_lower c.

(** The two alternatives of the pattern ['[0-9]+|[A-Za-z]+']. *)
Inductive cclass : Type := CDigit | CAlpha | COther.

Definition classify (c : ascii) : cclass :=
  if is_digit c then CDigit else if is_alpha c then CAlpha else COther.

Definition cclass_eqb (a b : cclass) : bool :=
  match a, b with
  | CDigit, CDigit | CAlpha, CAlpha | COther, COther => true
  | _, _ => false
  end.

(** [scan k run s]: [run] is the match in progress, of class [k], kept in
    reverse; the result lists the matches of the pattern in [run ++ s], left
    to right.  A match is a maximal run of digits or a maximal run of
    letters; every other character separates matches and is dropped. *)
Fixpoint rev_string (acc s : string) : string :=
  match s with
  | EmptyString => acc
  | String c s' => rev_string (String c acc) s'
  end.

Definition flush (run : string) : list string :=
  match run with
  | EmptyString => []
  | _ => [rev_string EmptyString run]
  end.

Fixpoint scan (k : cclass) (run : string) (s : string) : list string :=
  match s with
  | EmptyString => flush run
  | String c s' =>
      match classify c with
      | COther => flush run ++ scan COther EmptyString s'
      | kc =>
          if cclass_eqb kc k then scan k (String c run) s'
          else flush run ++ scan kc (String c EmptyString) s'
      end
  end.

(** [re.findall('[0-9]+|[A-Za-z]+', value)] *)
Definition findall (value : string) : list string :=
  scan COther EmptyString value.

Definition lower_char (c : ascii) : ascii :=
  if is_upper c then ascii_of_nat (nat_of_ascii c + 32) else c.

(** [str.lower] *)
Fixpoint lower (s : string) : string :=
  match s with
  | EmptyString => EmptyString
  | String c s' => String (lower_char c) (lower s')
  end.

Fixpoint all_chars (p : ascii -> bool) (s : string) : bool :=
  match s with
  | EmptyString => true
  | String c s' => p c && all_chars p s'
  end.

Definition digit_val (c : ascii) : Z := Z.of_nat (nat_of_ascii c) - 48.

Fixpoint decimal (acc : Z) (s : string) : Z :=
  match s with
  | EmptyString => acc
  | String c s' => decimal (10 * acc + digit_val c) s'
  end.

(** The most digits of a string that [int] converts: the default of
    [sys.get_int_max_str_digits()].  Longer numbers raise [ValueError]. *)
Definition int_max_str_digits : Z := 4300.

Definition within_digit_limit (digits : nat) : bool :=
  Z.of_nat digits <=? int_max_str_digits.

(** [int(num)] on a match of the pattern: a run of at most 4300 digits is
    read in base ten; a longer one is refused, and a run of letters is not a
    number. *)
Definition int_of_run (num : string) : outcome Z :=
  match num with
  | EmptyString => Raise ValueError
  | _ =>
      if all_chars is_digit num && within_digit_limit (String.length num)
      then Ok (decimal 0 num)
      else Raise ValueError
  end.

(** ** Python arithmetic on [int] and [float] *)

Definition is_nan (f : spec_float) : bool :=
  match f with S754_nan => true | _ => false end.

Definition is_inf (f : spec_float) : bool :=
  match f with S754_infinity _ => true | _ => false end.

Definition is_zero (f : spec_float) : bool :=
  match f with S754_zero _ => true | _ => false end.

Definition sign_of (f : spec_float) : bool :=
  match f with
  | S754_zero s | S754_infinity s | S754_finite s _ _ => s
  | S754_nan => false
  end.

(** [float(z)]: the nearest binary64, ties to even; an [int] beyond the
    range of binary64 raises [OverflowError]. *)
Definition float_of_int (z : Z) : outcome spec_float :=
  let f := binary_normalize prec emax z 0 false in
  if is_inf f then Raise OverflowError else Ok f.

(** [a / b] on two [int]s: the correctly rounded quotient. *)
Definition int_truediv (a b : Z) : outcome spec_float :=
  if b =? 0 then Raise ZeroDivisionError
  else
    let s := xorb (a <? 0) (b <? 0) in
    if a =? 0 then Ok (S754_zero (b <? 0))
    else
      let '(q, e, l) := SFdiv_core_binary prec emax (Z.abs a) 0 (Z.abs b) 0 in
      let f := binary_round_aux prec emax s q e l in
      if is_inf f then Raise OverflowError else Ok f.

(** [x / y] on two [float]s. *)
Definition float_truediv (x y : spec_float) : outcome spec_float :=
  if is_zero y then Raise ZeroDivisionError else Ok (SFdiv prec emax x y).

Definition to_float (a : pynum) : outcome spec_float :=
  match a with
  | PInt z => float_of_int z
  | PFloat f => Ok f
  end.

Definition py_add (a b : pynum) : outcome pynum :=
  match a, b with
  | PInt x, PInt y => Ok (PInt (x + y))
  | _, _ =>
      x <- to_float a ;; y <- to_float b ;; Ok (PFloat (SFadd prec emax x y))
  end.

Definition py_mul (a b : pynum) : outcome pynum :=
  match a, b with
  | PInt x, PInt y => Ok (PInt (x * y))
  | _, _ =>
      x <- to_float a ;; y <- to_float b ;; Ok (PFloat (SFmul prec emax x y))
  end.

Definition py_truediv (a b : pynum) : outcome pynum :=
  match a, b with
  | PInt x, PInt y => f <- int_truediv x y ;; Ok (PFloat f)
  | _, _ =>
      x <- to_float a ;; y <- to_float b ;;
      f <- float_truediv x y ;; Ok (PFloat f)
  end.

(** The integer nearest to [m * 2^e], ties to the even one. *)
Definition round_half_even (m : positive) (e : Z) : Z :=
  match e with
  | Zneg p =>
      let d := Z.pow_pos 2 p in
      let q := Z.pos m / d in
      let r := Z.pos m mod d in
      match 2 * r ?= d with
      | Lt => q
      | Gt => q + 1
      | Eq => if Z.even q then q else q + 1
      end
  | _ => Z.pos m * 2 ^ e
  end.

(** [round(x)] with one argument: an [int]. *)
Definition py_round (a : pynum) : outcome Z :=
  match a with
  | PInt z => Ok z
  | PFloat S754_nan => Raise ValueError
  | PFloat (S754_infinity _) => Raise OverflowError
  | PFloat (S754_zero _) => Ok 0
  | PFloat (S754_finite s m e) =>
      let n := round_half_even m e in Ok (if s then - n else n)
  end.

(** The largest integer below or equal to [m * 2^e], and the smallest one
    above or equal to it. *)
Definition floor_pos (m : positive) (e : Z) : Z :=
  match e with
  | Zneg p => Z.pos m / Z.pow_pos 2 p
  | _ => Z.pos m * 2 ^ e
  end.

Definition ceil_pos (m : positive) (e : Z) : Z :=
  match e with
  | Zneg p => - ((- Z.pos m) / Z.pow_pos 2 p)
  | _ => Z.pos m * 2 ^ e
  end.

(** [math.floor] as C's [floor]: a float. *)
Definition float_floor (x : spec_float) : spec_float :=
  match x with
  | S754_finite false m e => binary_normalize prec emax (floor_pos m e) 0 false
  | S754_finite true m e => binary_normalize prec emax (- ceil_pos m e) 0 true
  | _ => x
  end.

(** C's [fmod]: exact, with the sign of the dividend. *)
Definition float_fmod (x y : spec_float) : spec_float :=
  match x, y with
  | S754_nan, _ | _, S754_nan => S754_nan
  | S754_infinity _, _ => S754_nan
  | _, S754_zero _ => S754_nan
  | _, S754_infinity _ => x
  | S754_zero _, _ => x
  | S754_finite sx mx ex, S754_finite _ my ey =>
      let e := Z.min ex ey in
      let r := (Z.pos mx * 2 ^ (ex - e)) mod (Z.pos my * 2 ^ (ey - e)) in
      binary_normalize prec emax (if sx then - r else r) e sx
  end.

Definition float_one : spec_float :=
  Eval vm_compute in binary_normalize prec emax 1 0 false.

Definition float_half : spec_float :=
  Eval vm_compute in binary_normalize prec emax 1 (-1) false.

(** [x // y] on two [float]s, step by step as CPython's [float_floor_div]
    computes it. *)
Definition float_floordiv (vx wx : spec_float) : outcome spec_float :=
  if is_zero wx then Raise ZeroDivisionError
  else
    let mod_ := float_fmod vx wx in
    let div := SFdiv prec emax (SFsub prec emax vx mod_) wx in
    let div :=
      if negb (is_zero mod_)
         && negb (Bool.eqb (SFltb wx (S754_zero false))
                           (SFltb mod_ (S754_zero false)))
      then SFsub prec emax div float_one else div in
    if is_zero div
    then Ok (S754_zero (sign_of (SFdiv prec emax vx wx)))
    else
      let floordiv := float_floor div in
      if SFltb float_half (SFsub prec emax div floordiv)
      then Ok (SFadd prec emax floordiv float_one)
      else Ok floordiv.

Definition py_floordiv (a b : pynum) : outcome pynum :=
  match a, b with
  | PInt x, PInt y =>
      if y =? 0 then Raise ZeroDivisionError else Ok (PInt (x / y))
  | _, _ =>
      x <- to_float a ;; y <- to_float b ;;
      f <- float_floordiv x y ;; Ok (PFloat f)
  end.

(** [a == b] on numbers; an [int] and a [float] are compared by value. *)
Definition int_eq_float (z : Z) (f : spec_float) : bool :=
  match f with
  | S754_zero _ => z =? 0
  | S754_finite s m e =>
      let v := if s then Z.neg m else Z.pos m in
      match e with
      | Zneg p => z * Z.pow_pos 2 p =? v
      | _ => z =? v * 2 ^ e
      end
  | _ => false
  end.

Definition py_eqb (a b : pynum) : bool :=
  match a, b with
  | PInt x, PInt y => x =? y
  | PInt x, PFloat f | PFloat f, PInt x => int_eq_float x f
  | PFloat f, PFloat g => SFeqb f g
  end.

(** [f] compared with the integer [z], by value. *)
Definition float_cmp_int (f : spec_float) (z : Z) : option comparison :=
  match f with
  | S754_nan => None
  | S754_infinity s => Some (if s then Lt else Gt)
  | S754_zero _ => Some (0 ?= z)
  | S754_finite s m e =>
      let v := if s then Z.neg m else Z.pos m in
      match e with
      | Zneg p => Some (v ?= z * Z.pow_pos 2 p)
      | _ => Some (v * 2 ^ e ?= z)
      end
  end.

(** [a <= b] on numbers. *)
Definition py_leb (a b : pynum) : bool :=
  match a, b with
  | PInt x, PInt y => x <=? y
  | PFloat f, PFloat g => SFleb f g
  | PFloat f, PInt y =>
      match float_cmp_int f y with
      | Some Lt | Some Eq => true
      | _ => false
      end
  | PInt x, PFloat g =>
      match float_cmp_int g x with
      | Some Gt | Some Eq => true
      | _ => false
      end
  end.

(** ** Python operations on parsed JSON *)

Fixpoint lookup {A : Type} (k : string) (fields : list (string * A)) : option A :=
  match fields with
  | [] => None
  | (k', v) :: rest => if String.eqb k k' then Some v else lookup k rest
  end.

(** Truth value of a parsed value, as [not v] tests it. *)
Definition truthy (v : json) : bool :=
  match v with
  | JNull => false
  | JBool b => b
  | JInt z => negb (z =? 0)
  | JFloat f => negb (is_zero f)
  | JStr s => negb (String.eqb s "")
  | JArr items => match items with [] => false | _ => true end
  | JObj fields => match fields with [] => false | _ => true end
  end.

Fixpoint is_substring (p s : string) : bool :=
  prefix p s ||
  match s with
  | EmptyString => false
  | String _ s' => is_substring p s'
  end.

Definition is_str (key : string) (v : json) : bool :=
  match v with
  | JStr s => String.eqb key s
  | _ => false
  end.

(** [key in v] for a string [key] *)
Definition py_contains (key : string) (v : json) : outcome bool :=
  match v with
  | JObj fields => Ok (match lookup key fields with Some _ => true | None => false end)
  | JStr s => Ok (is_substring key s)
  | JArr items => Ok (existsb (is_str key) items)
  | _ => Raise TypeError
  end.

(** [v[key]] for a string [key] *)
Definition py_getitem (v : json) (key : string) : outcome json :=
  match v with
  | JObj fields =>
      match lookup key fields with
      | Some x => Ok x
      | None => Raise (KeyError key)
      end
  | _ => Raise TypeError
  end.

Fixpoint chars (s : string) : list json :=
  match s with
  | EmptyString => []
  | String c s' => JStr (String c EmptyString) :: chars s'
  end.

(** The items a [for] loop over [v] visits. *)
Definition py_iter (v : json) : outcome (list json) :=
  match v with
  | JArr items => Ok items
  | JObj fields => Ok (map (fun kv => JStr (fst kv)) fields)
  | JStr s => Ok (chars s)
  | _ => Raise TypeError
  end.

(** A parsed value as an operand of [+], when the other operand is a number:
    [bool] is a subtype of [int], everything that is not a number raises
    [TypeError]. *)
Definition as_num (v : json) : outcome pynum :=
  match v with
  | JInt z => Ok (PInt z)
  | JBool b => Ok (PInt (if b then 1 else 0))
  | JFloat f => Ok (PFloat f)
  | _ => Raise TypeError
  end.

(** The white space [int] allows around a number: tab to carriage return
    and the space, and, beyond ASCII, the next-line and no-break-space
    characters. *)
Definition is_space (c : ascii) : bool :=
  let n := nat_of_ascii c in
  ((9 <=? n)%nat && (n <=? 13)%nat) || (n =? 32)%nat
  || (n =? 133)%nat || (n =? 160)%nat.

Fixpoint lstrip (s : string) : string :=
  match s with
  | String c s' => if is_space c then lstrip s' else s
  | EmptyString => s
  end.

Definition strip (s : string) : string :=
  rev_string "" (lstrip (rev_string "" (lstrip s))).

(** Digits of an [int] literal: groups of digits separated by single
    underscores.  [prev] tells whether the previous character was a digit. *)
Fixpoint int_digits (prev : bool) (acc : Z) (s : string) : option Z :=
  match s with
  | EmptyString => if prev then Some acc else None
  | String c s' =>
      if is_digit c then int_digits true (10 * acc + digit_val c) s'
      else if (nat_of_ascii c =? 95)%nat && prev then int_digits false acc s'
      else None
  end.

(** The number of digits of a string. *)
Fixpoint count_digits (s : string) : nat :=
  match s with
  | EmptyString => O
  | String c s' => if is_digit c then S (count_digits s') else count_digits s'
  end.

(** [int(s)] on a string: white space around, a sign, and at most 4300
    digits. *)
Definition int_of_str (s : string) : outcome Z :=
  let body := strip s in
  let '(neg, ds) :=
    match body with
    | String "-" r => (true, r)
    | String "+" r => (false, r)
    | _ => (false, body)
    end in
  match int_digits false 0 ds with
  | Some n =>
      if within_digit_limit (count_digits ds)
      then Ok (if neg then - n else n)
      else Raise ValueError
  | None => Raise ValueError
  end.

(** [int(v)] *)
Definition py_int (v : json) : outcome Z :=
  match v with
  | JStr s => int_of_str s
  | JInt z => Ok z
  | JBool b => Ok (if b then 1 else 0)
  | JFloat S754_nan => Raise ValueError
  | JFloat (S754_infinity _) => Raise OverflowError
  | JFloat (S754_zero _) => Ok 0
  | JFloat (S754_finite s m e) =>
      let n := floor_pos m e in Ok (if s then - n else n)
  | _ => Raise TypeError
  end.

(** ** The module's constants *)

Definition JOBNAME := "jobname".
Definition GLOBAL_OPTS := "global options".
Definition JOBS := "jobs".
Definition JOB_OPTS := "job options".
Definition FILESIZE := "filesize".
Definition NUMJOBS := "numjobs".
Definition TIMESTAMP_MS := "timestamp_ms".
Definition RUNTIME := "runtime".
Definition RAMPTIME := "ramp_time".
Definition READ := "read".
Definition IOPS := "iops".
Definition BW := "bw".
Definition LAT := "lat_ns".
Definition MIN := "min".
Definition MAX := "max".
Definition MEAN := "mean".

(** The float literal [0.001], and [10**(-3)] which evaluates to it: the
    binary64 nearest to one thousandth. *)
Definition milli : spec_float :=
  Eval vm_compute in
    SFdiv prec emax (binary_normalize prec emax 1 0 false)
                    (binary_normalize prec emax 1000 0 false).

Definition FILESIZE_CONVERSION : list (string * pynum) :=
  [ ("b", PFloat milli);
    ("k", PInt 1);
    ("kb", PInt 1);
    ("m", PInt (10 ^ 3));
    ("mb", PInt (10 ^ 3));
    ("g", PInt (10 ^ 6));
    ("gb", PInt (10 ^ 6));
    ("t", PInt (10 ^ 9));
    ("tb", PInt (10 ^ 9));
    ("p", PInt (10 ^ 12));
    ("pb", PInt (10 ^ 12)) ].

Definition RAMPTIME_CONVERSION : list (string * pynum) :=
  [ ("us", PFloat milli);
    ("ms", PInt 1);
    ("s", PInt 1000);
    ("m", PInt (60 * 1000));
    ("h", PInt (3600 * 1000));
    ("d", PInt (24 * 3600 * 1000)) ].

(** ** [_convert_value] *)

(** The body of [_convert_value] once [value] is known to be a string. *)
Definition convert_str (value : string) (conversion_dict : list (string * pynum))
  : outcome pynum :=
  match findall value with
  | [num; unit] =>
      match lookup (lower unit) conversion_dict with
      | None => Raise (KeyError (lower unit))
      | Some mult_factor =>
          n <- int_of_run num ;;
          py_mul (PInt n) mult_factor
      end
  | _ => Raise ValueError
  end.

Definition _convert_value (value : json) (conversion_dict : list (string * pynum))
  : outcome pynum :=
  match value with
  | JStr s => convert_str s conversion_dict
  | _ => Raise TypeError
  end.

(** ** [FioMetrics._extract_metrics] *)

(** One entry of the returned list: the dictionary built for a job. *)
Record metric : Type := {
  m_jobname : json;
  m_filesize : pynum;
  m_num_threads : Z;
  m_start_time : pynum;
  m_end_time : Z;
  m_iops : json;
  m_bw : json;
  m_lat_min : json;
  m_lat_max : json;
  m_lat_mean : json
}.

(** What the loop over the jobs carries from one iteration to the next:
    the records appended so far, the end time of the previous job, and the
    indices for which the skip notice was printed. *)
Record loop_state : Type := {
  all_jobs : list metric;
  prev_endtime_s : Z;
  skipped : list nat
}.

(** The values a job contributes before the timeline is computed: what the
    source reads from the [read] section and resolves from the options. *)
Record job_view : Type := {
  v_jobname : json;
  v_job_read : json;
  v_iops : json;
  v_bw : json;
  v_lat_min : json;
  v_lat_max : json;
  v_lat_mean : json;
  v_numjobs : json;
  v_filesize : json;
  v_ramptime_ms : pynum
}.

(** The three options as read from [job[JOB_OPTS]], with the values the
    variables hold when the option (or the whole section) is missing. *)
Definition job_options (job : json) : outcome (json * json * pynum) :=
  has_opts <- py_contains JOB_OPTS job ;;
  if has_opts then
    opts <- py_getitem job JOB_OPTS ;;
    has_numjobs <- py_contains NUMJOBS opts ;;
    numjobs <- (if has_numjobs then py_getitem opts NUMJOBS else Ok (JStr "1")) ;;
    has_filesize <- py_contains FILESIZE opts ;;
    filesize <- (if has_filesize then py_getitem opts FILESIZE else Ok (JInt 0)) ;;
    has_ramptime <- py_contains RAMPTIME opts ;;
    ramptime_ms <- (if has_ramptime
                    then v <- py_getitem opts RAMPTIME ;;
                         _convert_value v RAMPTIME_CONVERSION
                    else Ok (PInt 0)) ;;
    Ok (numjobs, filesize, ramptime_ms)
  else Ok (JStr "1", JInt 0, PInt 0).

(** Lines 159 to 188: metrics of the [read] section and option resolution. *)
Definition read_job (global_filesize : json) (global_ramptime_ms : pynum)
    (job : json) : outcome job_view :=
  jobname <- py_getitem job JOBNAME ;;
  job_read <- py_getitem job READ ;;
  iops <- py_getitem job_read IOPS ;;
  bw_kibps <- py_getitem job_read BW ;;
  lat <- py_getitem job_read LAT ;;
  min_lat_ns <- py_getitem lat MIN ;;
  lat <- py_getitem job_read LAT ;;
  max_lat_ns <- py_getitem lat MAX ;;
  lat <- py_getitem job_read LAT ;;
  mean_lat_ns <- py_getitem lat MEAN ;;
  '(numjobs, filesize, ramptime_ms) <- job_options job ;;
  let filesize := if truthy filesize then filesize else global_filesize in
  let ramptime_ms :=
    if py_eqb ramptime_ms (PInt 0) then global_ramptime_ms else ramptime_ms in
  Ok {| v_jobname := jobname; v_job_read := job_read; v_iops := iops;
        v_bw := bw_kibps; v_lat_min := min_lat_ns; v_lat_max := max_lat_ns;
        v_lat_mean := mean_lat_ns; v_numjobs := numjobs;
        v_filesize := filesize; v_ramptime_ms := ramptime_ms |}.

(** Lines 191 and 192: where a job starts, in milliseconds. *)
Definition start_time_ms_of (fio_out : json) (prev_endtime_s : Z) : outcome json :=
  if prev_endtime_s >? 0
  then Ok (JInt (prev_endtime_s * 1000))
  else py_getitem fio_out TIMESTAMP_MS.

(** Lines 191 to 198: the time window of a job, [(start_time_s, end_time_s)]. *)
Definition time_window (fio_out : json) (prev_endtime_s : Z) (v : job_view)
  : outcome (pynum * Z) :=
  start_time_ms <- start_time_ms_of fio_out prev_endtime_s ;;
  runtime <- py_getitem (v_job_read v) RUNTIME ;;
  start_time_ms <- as_num start_time_ms ;;
  runtime <- as_num runtime ;;
  sum <- py_add start_time_ms runtime ;;
  end_time_ms <- py_add sum (v_ramptime_ms v) ;;
  start_time_s <- py_floordiv start_time_ms (PInt 1000) ;;
  quot <- py_truediv end_time_ms (PInt 1000) ;;
  end_time_s <- py_round quot ;;
  Ok (start_time_s, end_time_s).

(** The condition of lines 203 to 205 under which the job is skipped. *)
Definition skip_job (v : job_view) (start_time_s : pynum) (end_time_s : Z) : bool :=
  (negb (truthy (v_jobname v)) && negb (truthy (v_filesize v)))
  || py_eqb start_time_s (PInt end_time_s)
  || (negb (truthy (v_iops v)) && negb (truthy (v_bw v))
      && negb (truthy (v_lat_min v)) && negb (truthy (v_lat_max v))
      && negb (truthy (v_lat_mean v))).

(** One iteration of the loop, on the job of index [i]. *)
Definition job_step (fio_out : json) (global_filesize : json)
    (global_ramptime_ms : pynum) (st : loop_state) (i : nat) (job : json)
  : outcome loop_state :=
  v <- read_job global_filesize global_ramptime_ms job ;;
  '(start_time_s, end_time_s) <- time_window fio_out (prev_endtime_s st) v ;;
  if skip_job v start_time_s end_time_s then
    Ok {| all_jobs := all_jobs st; prev_endtime_s := 0;
          skipped := skipped st ++ [i] |}
  else
    filesize_kb <- _convert_value (v_filesize v) FILESIZE_CONVERSION ;;
    numjobs <- py_int (v_numjobs v) ;;
    Ok {| all_jobs := all_jobs st ++
            [ {| m_jobname := v_jobname v; m_filesize := filesize_kb;
                 m_num_threads := numjobs; m_start_time := start_time_s;
                 m_end_time := end_time_s; m_iops := v_iops v;
                 m_bw := v_bw v; m_lat_min := v_lat_min v;
                 m_lat_max := v_lat_max v; m_lat_mean := v_lat_mean v |} ];
          prev_endtime_s := end_time_s;
          skipped := skipped st |}.

(** The loop [for i, job in enumerate(...)], from index [i] on. *)
Fixpoint run_jobs (fio_out : json) (global_filesize : json)
    (global_ramptime_ms : pynum) (i : nat) (jobs : list json) (st : loop_state)
  : outcome loop_state :=
  match jobs with
  | [] => Ok st
  | job :: rest =>
      st' <- job_step fio_out global_filesize global_ramptime_ms st i job ;;
      run_jobs fio_out global_filesize global_ramptime_ms (S i) rest st'
  end.

(** Lines 147 to 154: the global file size and ramp time. *)
Definition global_options (fio_out : json) : outcome (json * pynum) :=
  has_global <- py_contains GLOBAL_OPTS fio_out ;;
  if has_global then
    opts <- py_getitem fio_out GLOBAL_OPTS ;;
    has_filesize <- py_contains FILESIZE opts ;;
    global_filesize <- (if has_filesize then py_getitem opts FILESIZE
                        else Ok (JStr "")) ;;
    has_ramptime <- py_contains RAMPTIME opts ;;
    global_ramptime_ms <- (if has_ramptime
                           then v <- py_getitem opts RAMPTIME ;;
                                _convert_value v RAMPTIME_CONVERSION
                           else Ok (PInt 0)) ;;
    Ok (global_filesize, global_ramptime_ms)
  else Ok (JStr "", PInt 0).

Definition initial_state : loop_state :=
  {| all_jobs := []; prev_endtime_s := 0; skipped := [] |}.

Definition _extract_metrics (fio_out : json) : outcome (list metric) :=
  if negb (truthy fio_out) then Raise (NoValuesError "No data in json object")
  else
    '(global_filesize, global_ramptime_ms) <- global_options fio_out ;;
    jobs <- py_getitem fio_out JOBS ;;
    jobs <- py_iter jobs ;;
    st <- run_jobs fio_out global_filesize global_ramptime_ms 0 jobs
            initial_state ;;
    match all_jobs st with
    | [] => Raise (NoValuesError "No data could be extracted from file")
    | _ => Ok (all_jobs st)
    end.

(** ** [FioMetrics._load_file_dict] and [FioMetrics.get_metrics] *)

(** The outside of the module.  [file_text]: the files that
    [open(filepath, 'r')] opens, with their text; for a path that it does
    not open, [open_raises] names the class of the exception of [open]
    ([OSError] or one of its subclasses, [ValueError] for a path with a
    null character, ...).  [json_load]: what [json.load] makes of the text
    of a file; for a text that it does not load, [load_raises] names the
    class of its exception ([ValueError] for a text that is not JSON,
    [RecursionError] for one nested too deep, ...). *)
Record host : Type := {
  file_text : string -> option string;
  json_load : string -> option json;
  open_raises : string -> string;
  load_raises : string -> string
}.

(** The exceptions of the two methods: one that [open] or [json.load]
    raised, of a class defined outside the module and given by its name, or
    one that the module raises itself. *)
Inductive file_exn : Type :=
| Outside (class_name : string)
| Raised (e : exn).

(** What a method gives back: a value, or an exception. *)
Inductive result (A : Type) : Type :=
| Return (a : A)
| Throw (e : file_exn).
Arguments Return {A} a.
Arguments Throw {A} e.

(** The message of the [NoValuesError] of [_load_file_dict], an f-string. *)
Definition empty_object_msg (filepath : string) : string :=
  "JSON file " ++ filepath ++ " returned empty object".

(** [_load_file_dict], on the number of files that are open: [open] adds
    one, [f.close()] in the [finally] clause takes it away on every path
    through the [try] statement.  An exception of [open] leaves before the
    [try]; one of [json.load] leaves through the [finally] clause, raised
    again as it is when it is a [ValueError]. *)
Definition _load_file_dict (h : host) (filepath : string) (open_files : nat)
  : nat * result json :=
  match file_text h filepath with
  | None => (open_files, Throw (Outside (open_raises h filepath)))
  | Some text =>
      let open_files := S open_files in
      match json_load h text with
      | None => (Nat.pred open_files, Throw (Outside (load_raises h text)))
      | Some fio_out =>
          let open_files := Nat.pred open_files in
          if negb (truthy fio_out)
          then (open_files,
                Throw (Raised (NoValuesError (empty_object_msg filepath))))
          else (open_files, Return fio_out)
      end
  end.

(** [get_metrics]: the document of the file, handed to [_extract_metrics];
    an exception of either ends it. *)
Definition get_metrics (h : host) (filepath : string) (open_files : nat)
  : nat * result (list metric) :=
  let '(open_files, fio_out) := _load_file_dict h filepath open_files in
  match fio_out with
  | Throw e => (open_files, Throw e)
  | Return fio_out =>
      (open_files,
       match _extract_metrics fio_out with
       | Ok job_metrics => Return job_metrics
       | Raise e => Throw (Raised e)
       end)
  end.

(** * Reports and notions the properties speak of *)

(** ** Example reports *)

(** The binary64 values of the literals [95.26093] and [417754876.774692]. *)
Definition iops_good : spec_float := S754_finite false 6703392013296358 (-46).

Definition mean_good : spec_float := S754_finite false 7008763802702391 (-24).

Definition good_read : list (string * json) :=
  [ ("bw", JInt 97547); ("iops", JFloat iops_good); ("runtime", JInt 60476);
    ("lat_ns", JObj [ ("min", JInt 353377760); ("max", JInt 1697519869);
                      ("mean", JFloat mean_good) ]) ].

Definition good_job (name : json) : list (string * json) :=
  [ ("jobname", name); ("job options", JObj [ ("numjobs", JStr "40") ]);
    ("read", JObj good_read) ].

Definition good_report (name : json) : list (string * json) :=
  [ ("timestamp_ms", JInt 1653027155355);
    ("global options", JObj [ ("ramp_time", JStr "10s"); ("filesize", JStr "50M") ]);
    ("jobs", JArr [ JObj (good_job name) ]) ].

Definition good_record (name : json) : metric :=
  {| m_jobname := name; m_filesize := PInt 50000; m_num_threads := 40;
     m_start_time := PInt 1653027155; m_end_time := 1653027226;
     m_iops := JFloat iops_good; m_bw := JInt 97547;
     m_lat_min := JInt 353377760; m_lat_max := JInt 1697519869;
     m_lat_mean := JFloat mean_good |}.

(** What [read_job] returns on the job of the good file. *)
Definition good_view (read : list (string * json)) (name : json) : job_view :=
  {| v_jobname := name; v_job_read := JObj read; v_iops := JFloat iops_good;
     v_bw := JInt 97547; v_lat_min := JInt 353377760;
     v_lat_max := JInt 1697519869; v_lat_mean := JFloat mean_good;
     v_numjobs := JStr "40"; v_filesize := JStr "50M";
     v_ramptime_ms := PInt 10000 |}.

(** An iteration that completes either skips the job, resetting the previous
    end time, or appends one record whose end time becomes the previous end
    time of the next iteration. *)
Inductive step_result (st : loop_state) (i : nat) (st' : loop_state) : Prop :=
| step_skipped :
    all_jobs st' = all_jobs st ->
    prev_endtime_s st' = 0 ->
    skipped st' = skipped st ++ [i] ->
    step_result st i st'
| step_emitted (r : metric) :
    all_jobs st' = all_jobs st ++ [r] ->
    prev_endtime_s st' = m_end_time r ->
    skipped st' = skipped st ->
    step_result st i st'.

(** The messages of the two [NoValuesError]s. *)
Definition msg_no_data := "No data in json object".

Definition msg_nothing_extracted := "No data could be extracted from file".

(** A report with one job whose metrics are all zero: the filter removes it. *)
Definition zero_read : list (string * json) :=
  [ ("bw", JInt 0); ("iops", JFloat (S754_zero false)); ("runtime", JInt 0);
    ("lat_ns", JObj [ ("min", JInt 0); ("max", JInt 0);
                      ("mean", JFloat (S754_zero false)) ]) ].

Definition no_metrics_report : json :=
  JObj [ ("timestamp_ms", JInt 1653027155355);
         ("global options", JObj [ ("ramp_time", JStr "10s"); ("filesize", JStr "50M") ]);
         ("jobs", JArr [ JObj [ ("jobname", JStr "1_thread"); ("read", JObj zero_read) ] ]) ].

(** [metric_absent job key]: the job lacks its [read] section ([key] is
    ["read"]) or the section lacks the metric [key]. *)
Inductive metric_absent : json -> string -> Prop :=
| absent_read job :
    lookup READ job = None -> metric_absent (JObj job) READ
| absent_iops job read :
    lookup READ job = Some (JObj read) -> lookup IOPS read = None ->
    metric_absent (JObj job) IOPS
| absent_bw job read :
    lookup READ job = Some (JObj read) -> lookup BW read = None ->
    metric_absent (JObj job) BW
| absent_lat job read :
    lookup READ job = Some (JObj read) -> lookup LAT read = None ->
    metric_absent (JObj job) LAT
| absent_lat_field job read lat key :
    lookup READ job = Some (JObj read) -> lookup LAT read = Some (JObj lat) ->
    In key [MIN; MAX; MEAN] -> lookup key lat = None ->
    metric_absent (JObj job) key.

(** A report whose first job has no [read] section and whose second job is
    the job of the good file. *)
Definition job_without_read : list (string * json) :=
  [ ("jobname", JStr "1_thread"); ("job options", JObj [ ("numjobs", JStr "40") ]) ].

Definition missing_read_report : json :=
  JObj [ ("timestamp_ms", JInt 1653027155355);
         ("global options", JObj [ ("ramp_time", JStr "10s"); ("filesize", JStr "50M") ]);
         ("jobs", JArr [ JObj job_without_read; JObj (good_job (JStr "2_thread")) ]) ].

(** The binary64 value 1.5. *)
Definition float_1_5 : spec_float := S754_finite false 6755399441055744 (-52).

Definition bytes_report : json :=
  JObj [ ("timestamp_ms", JInt 1653027155355);
         ("global options", JObj [ ("ramp_time", JStr "10s"); ("filesize", JStr "1500b") ]);
         ("jobs", JArr [ JObj (good_job (JStr "1_thread")) ]) ].

Definition nonzero_read : list (string * json) :=
  [ ("bw", JInt 97547); ("iops", JFloat iops_good); ("runtime", JInt 60476);
    ("lat_ns", JObj [ ("min", JInt 353377760); ("max", JInt 1697519869);
                      ("mean", JFloat mean_good) ]) ].

(** A job with a name and metrics, without any file size. *)
Definition job_without_filesize : json :=
  JObj [ ("jobname", JStr "1_thread"); ("read", JObj nonzero_read) ].

(** A report without global file size: its first job has none either, its
    second job carries its own. *)
Definition no_filesize_report : json :=
  JObj [ ("timestamp_ms", JInt 1653027155355);
         ("global options", JObj [ ("ramp_time", JStr "10s") ]);
         ("jobs", JArr [ job_without_filesize;
                         JObj [ ("jobname", JStr "2_thread");
                                ("job options", JObj [ ("filesize", JStr "50M") ]);
                                ("read", JObj nonzero_read) ] ]) ].

(** ** Options, matches and the loop *)

(** The options of a section that may be missing: a missing section has no
    options, a section that is not an object is not a section. *)
Definition section_fields (section : option json) : option (list (string * json)) :=
  match section with
  | None => Some []
  | Some (JObj fields) => Some fields
  | Some _ => None
  end.

(** The value of an option that may be missing. *)
Definition default {A : Type} (d : A) (o : option A) : A :=
  match o with
  | Some x => x
  | None => d
  end.

(** The ramp time an options section gives, in milliseconds. *)
Definition ramptime_of (opts : list (string * json)) : outcome pynum :=
  match lookup RAMPTIME opts with
  | Some x => _convert_value x RAMPTIME_CONVERSION
  | None => Ok (PInt 0)
  end.

(** Resolution as the specification words it: the job's options first, then
    the global options, then the default. *)
Definition resolve_spec (key : string) (d : json)
    (job_opts global_opts : list (string * json)) : json :=
  match lookup key job_opts with
  | Some x => x
  | None => default d (lookup key global_opts)
  end.

(** A report whose global options set [numjobs] and whose job does not. *)
Definition global_numjobs_report : json :=
  JObj [ ("timestamp_ms", JInt 1653027155355);
         ("global options", JObj [ ("ramp_time", JStr "10s"); ("filesize", JStr "50M");
                                   ("numjobs", JStr "4") ]);
         ("jobs", JArr [ JObj [ ("jobname", JStr "1_thread");
                                ("read", JObj nonzero_read) ] ]) ].

(** The same for the job named "1_thread". *)
Definition good_view_1 : job_view :=
  good_view good_read (JStr "1_thread").

(** The characters of class [k]. *)
Definition in_class (k : cclass) (c : ascii) : bool := cclass_eqb (classify c) k.

(** A match: a non-empty run of digits or a non-empty run of letters. *)
Definition is_run (r : string) : Prop :=
  r <> "" /\ (all_chars is_digit r = true \/ all_chars is_alpha r = true).

(** The shape the claim has in mind, as a test: one run of digits followed
    by one run of letters, and nothing else. *)
Fixpoint drop_digits (s : string) : string :=
  match s with
  | String c s' => if is_digit c then drop_digits s' else s
  | EmptyString => s
  end.

Definition num_then_unit (s : string) : bool :=
  match s with
  | String c _ =>
      is_digit c
      && negb (String.eqb (drop_digits s) "")
      && all_chars is_alpha (drop_digits s)
  | EmptyString => false
  end.

(** The [read] section of the good file, with another run time. *)
Definition read_with_runtime (runtime : Z) : json :=
  JObj [ ("bw", JInt 97547); ("iops", JFloat iops_good); ("runtime", JInt runtime);
         ("lat_ns", JObj [ ("min", JInt 353377760); ("max", JInt 1697519869);
                           ("mean", JFloat mean_good) ]) ].

(** A report whose first job has a negative run time: the job is emitted
    with end time 0. *)
Definition negative_runtime_report : json :=
  JObj [ ("timestamp_ms", JInt 2000);
         ("global options", JObj [ ("filesize", JStr "50M") ]);
         ("jobs", JArr [ JObj [ ("jobname", JStr "1_thread");
                                ("read", read_with_runtime (-2400)) ];
                         JObj [ ("jobname", JStr "2_thread");
                                ("read", read_with_runtime 60000) ] ]) ].

(** The partial file of the test suite: the metrics of the first job are
    all zero, the second job is the job of the good file. *)
Definition zero_job : json :=
  JObj [ ("jobname", JStr "1_thread"); ("read", JObj zero_read) ].

Definition partial_report : json :=
  JObj [ ("timestamp_ms", JInt 1653027155355);
         ("global options", JObj [ ("ramp_time", JStr "10s"); ("filesize", JStr "50M") ]);
         ("jobs", JArr [ zero_job; JObj (good_job (JStr "2_thread")) ]) ].

Definition after_zero_job : loop_state :=
  {| all_jobs := []; prev_endtime_s := 0; skipped := [0%nat] |}.

Definition after_second_job : loop_state :=
  {| all_jobs := [good_record (JStr "2_thread")]; prev_endtime_s := 1653027226;
     skipped := [0%nat] |}.

(** ** Rounding to binary64, on integers *)

(** Where [N / D] lies between the integers [N / D] and [N / D + 1]. *)
Definition loc_of (N D : Z) : location :=
  if N mod D =? 0 then loc_Exact else loc_Inexact (2 * (N mod D) ?= D).

(** A shift record that holds the integer part of [N / D] and where the
    rest lies. *)
Definition represents (N D : Z) (mrs : shr_record) : Prop :=
  shr_m mrs = N / D /\ loc_of_shr_record mrs = loc_of N D.

(** [N / D] rounded to the nearest integer, ties to even. *)
Definition rne (N D : Z) : Z := round_nearest_even (N / D) (loc_of N D).

(** The positive binary64 value with mantissa [m] and exponent [e], infinite
    when the exponent is out of range. *)
Definition fin (m e : Z) : spec_float :=
  match m with
  | Z0 => S754_zero false
  | Zpos p => if e <=? emax - prec then S754_finite false p e else S754_infinity false
  | Zneg _ => S754_nan
  end.

(** A mantissa rounded up to [2^53] moves to the next exponent. *)
Definition canon (m e : Z) : Z * Z :=
  if m =? 2 ^ 53 then (2 ^ 52, e + 1) else (m, e).

(** The float of a rounded mantissa [m], between [2^52] and [2^53], at
    exponent [e]. *)
Definition pack (m e : Z) : spec_float :=
  fin (fst (canon m e)) (snd (canon m e)).

(** Mantissa and exponent of the float that [M * 2^e] rounds to, for a
    positive [M] of at least 53 digits in the normal range. *)
Definition rounded_key (M e : Z) : Z * Z :=
  canon (rne M (2 ^ (Zdigits2 M - 53))) (Zdigits2 M + e - 53).

(** That float. *)
Definition rounded (M e : Z) : spec_float :=
  fin (fst (rounded_key M e)) (snd (rounded_key M e)).

(** The mantissa and exponent [binary_round] hands to [binary_round_aux]. *)
Definition aligned (m : positive) (e : Z) : Z * Z :=
  let d := Z.pos (digits2_pos m) in
  if d <? 53 then (Z.pos m * 2 ^ (53 - d), e - (53 - d)) else (Z.pos m, e).

(** Mantissa and exponent of two canonical positive floats, compared. *)
Definition key_le (k1 k2 : Z * Z) : Prop :=
  snd k1 < snd k2 \/ (snd k1 = snd k2 /\ fst k1 <= fst k2).

(** Mantissa and exponent of [float(z)] for a positive [z]. *)
Definition int_key (p : positive) : Z * Z :=
  rounded_key (fst (aligned p 0)) (snd (aligned p 0)).

(** Mantissa and exponent of the literal [0.001]. *)
Definition milli_m : Z := 4611686018427388.

Definition milli_e : Z := -62.

(** [sle A B e]: [A <= B * 2^e], on integers. *)
Definition sle (A B e : Z) : Prop :=
  A * 2 ^ Z.max 0 (- e) <= B * 2 ^ Z.max 0 e.

(** [above c f]: a float that is finite is at least [c]; it is not negative. *)
Definition above (c : Z) (f : spec_float) : Prop :=
  match f with
  | S754_finite false m e => sle c (Z.pos m) e
  | S754_zero _ => c <= 0
  | S754_infinity false | S754_nan => True
  | S754_finite true _ _ | S754_infinity true => False
  end.

(** The float 1000.0. *)
Definition float_1000 : spec_float := S754_finite false 8796093022208000 (-43).

(** A number that is not negative. *)
Definition nonneg_num (r : pynum) : Prop :=
  match r with
  | PInt z => 0 <= z
  | PFloat f => above 0 f
  end.

(** The run time of a job: a non-negative integer in its [read] section. *)
Definition runtime_nonneg (job : json) : Prop :=
  exists fields read rt,
    job = JObj fields
    /\ lookup READ fields = Some (JObj read)
    /\ lookup RUNTIME read = Some (JInt rt)
    /\ 0 <= rt.

(** A record that starts at a non-negative whole second, ends at another
    one, and ends after it starts unless the start is too large to be a
    binary64 number of milliseconds. *)
Definition well_timed (r : metric) : Prop :=
  exists s,
    m_start_time r = PInt s
    /\ 0 <= s
    /\ 0 <= m_end_time r
    /\ m_end_time r <> s
    /\ (1000 * s <= 2 ^ 53 -> s < m_end_time r).

(** A report whose timestamp is beyond the integers that binary64
    represents exactly. *)
Definition far_future_report : json :=
  JObj [ ("timestamp_ms", JInt 9007199254740993000);
         ("global options", JObj [ ("filesize", JStr "50M") ]);
         ("jobs", JArr [ JObj [ ("jobname", JStr "1_thread");
                                ("read", read_with_runtime 0) ] ]) ].

(** ** Converted values and records *)

(** A float that is not negative and not a NaN. *)
Definition not_negative (f : spec_float) : Prop :=
  match f with
  | S754_zero _ | S754_infinity false | S754_finite false _ _ => True
  | _ => False
  end.

(** What a record takes over from its job as it is: the name and the five
    metrics of the [read] section. *)
Definition record_of_job (job : json) (r : metric) : Prop :=
  exists fields read lat,
    job = JObj fields
    /\ lookup JOBNAME fields = Some (m_jobname r)
    /\ lookup READ fields = Some (JObj read)
    /\ lookup IOPS read = Some (m_iops r)
    /\ lookup BW read = Some (m_bw r)
    /\ lookup LAT read = Some (JObj lat)
    /\ lookup MIN lat = Some (m_lat_min r)
    /\ lookup MAX lat = Some (m_lat_max r)
    /\ lookup MEAN lat = Some (m_lat_mean r).

(** [picked jobs records]: the records belong, one each and in order, to
    some of the jobs. *)
Inductive picked : list json -> list metric -> Prop :=
| picked_nil : picked [] []
| picked_skip job jobs records :
    picked jobs records -> picked (job :: jobs) records
| picked_keep job jobs r records :
    record_of_job job r -> picked jobs records ->
    picked (job :: jobs) (r :: records).

(** A record with at least one metric that is not zero. *)
Definition has_metric (r : metric) : bool :=
  truthy (m_iops r) || truthy (m_bw r) || truthy (m_lat_min r)
  || truthy (m_lat_max r) || truthy (m_lat_mean r).

(** ** The part of a report that is read *)

(** The fields of an object under the keys [keys], the others dropped. *)
Definition keep (keys : list string) (fields : list (string * json))
  : list (string * json) :=
  filter (fun kv => existsb (String.eqb (fst kv)) keys) fields.

(** [f] applied to the value under [key]. *)
Definition at_key (key : string) (f : json -> json)
    (fields : list (string * json)) : list (string * json) :=
  map (fun kv => if String.eqb (fst kv) key then (fst kv, f (snd kv)) else kv)
    fields.

(** [f] applied to the fields of an object; any other value is left. *)
Definition in_object (f : list (string * json) -> list (string * json))
    (v : json) : json :=
  match v with
  | JObj fields => JObj (f fields)
  | _ => v
  end.

(** Of an options section: the three options.  Of [lat_ns]: minimum,
    maximum and mean.  Of a [read] section: iops, bw, the run time and that
    much of [lat_ns].  Of a job: its name, that much of its [read] section
    and of its options.  Of a report: the time stamp, file size and ramp
    time of the global options, and that much of every job of the list. *)
Definition relevant_options : json -> json :=
  in_object (keep [NUMJOBS; FILESIZE; RAMPTIME]).

Definition relevant_lat : json -> json :=
  in_object (keep [MIN; MAX; MEAN]).

Definition relevant_read : json -> json :=
  in_object (fun fields =>
    at_key LAT relevant_lat (keep [IOPS; BW; LAT; RUNTIME] fields)).

Definition relevant_job : json -> json :=
  in_object (fun fields =>
    at_key READ relevant_read
      (at_key JOB_OPTS relevant_options (keep [JOBNAME; READ; JOB_OPTS] fields))).

Definition relevant_jobs (v : json) : json :=
  match v with
  | JArr items => JArr (map relevant_job items)
  | _ => v
  end.

Definition relevant_global : json -> json :=
  in_object (keep [FILESIZE; RAMPTIME]).

Definition relevant : json -> json :=
  in_object (fun fields =>
    at_key JOBS relevant_jobs
      (at_key GLOBAL_OPTS relevant_global
         (keep [GLOBAL_OPTS; JOBS; TIMESTAMP_MS] fields))).

(** A view with another [read] section. *)
Definition set_job_read (job_read : json) (v : job_view) : job_view :=
  {| v_jobname := v_jobname v; v_job_read := job_read; v_iops := v_iops v;
     v_bw := v_bw v; v_lat_min := v_lat_min v; v_lat_max := v_lat_max v;
     v_lat_mean := v_lat_mean v; v_numjobs := v_numjobs v;
     v_filesize := v_filesize v; v_ramptime_ms := v_ramptime_ms v |}.

(** The good file as the test suite has it, with the sections and fields
    that [_extract_metrics] does not read. *)
Definition full_good_report : json :=
  JObj [ ("fio version", JStr "fio-3.30");
         ("timestamp", JInt 1653027155);
         ("timestamp_ms", JInt 1653027155355);
         ("time", JStr "Fri May 20 06:12:35 2022");
         ("global options",
          JObj [ ("direct", JStr "1"); ("rw", JStr "read"); ("bs", JStr "1M");
                 ("ramp_time", JStr "10s"); ("runtime", JStr "60s");
                 ("filesize", JStr "50M"); ("directory", JStr "gcs/50mb") ]);
         ("jobs",
          JArr [ JObj [ ("jobname", JStr "1_thread"); ("groupid", JInt 0);
                        ("error", JInt 0); ("elapsed", JInt 80);
                        ("job options", JObj [ ("numjobs", JStr "40") ]);
                        ("read",
                         JObj [ ("io_bytes", JInt 6040846336);
                                ("bw", JInt 97547);
                                ("iops", JFloat iops_good);
                                ("runtime", JInt 60476);
                                ("total_ios", JInt 5761);
                                ("lat_ns",
                                 JObj [ ("min", JInt 353377760);
                                        ("max", JInt 1697519869);
                                        ("mean", JFloat mean_good);
                                        ("N", JInt 5761) ]);
                                ("bw_min", JInt 77907) ]);
                        ("write",
                         JObj [ ("io_bytes", JInt 0); ("bw", JInt 0);
                                ("runtime", JInt 0) ]);
                        ("job_runtime", JInt 2406719) ] ]) ].

(** ** Exceptions *)

(** The exceptions of the Python operations the module applies to the
    values of a report, division by zero apart. *)
Definition ordinary (e : exn) : Prop :=
  match e with
  | KeyError _ | ValueError | TypeError | OverflowError => True
  | ZeroDivisionError | NoValuesError _ => False
  end.

(** [m] raises no exception outside [P]. *)
Definition raises_only {A : Type} (P : exn -> Prop) (m : outcome A) : Prop :=
  forall e, m = Raise e -> P e.

(** The exceptions of [_extract_metrics]. *)
Definition expected_exception (e : exn) : Prop :=
  match e with
  | NoValuesError msg => msg = msg_no_data \/ msg = msg_nothing_extracted
  | ZeroDivisionError => False
  | _ => True
  end.

(** ** The time line of the records *)

(** [timeline ts records]: every record starts at the second of the time
    stamp [ts], or at the end time of the record before it, which is then
    positive. *)
Inductive timeline (ts : Z) : list metric -> Prop :=
| timeline_nil : timeline ts []
| starts_at_stamp l r :
    timeline ts l -> m_start_time r = PInt (ts / 1000) ->
    timeline ts (l ++ [r])
| starts_at_end l p r :
    timeline ts (l ++ [p]) -> 0 < m_end_time p ->
    m_start_time r = PInt (m_end_time p) ->
    timeline ts ((l ++ [p]) ++ [r]).

(** * Properties *)

(** ** Basic facts about the error monad and the JSON accessors *)

Lemma bind_ok {A B : Type} (m : outcome A) (k : A -> outcome B) (b : B) :
  bind m k = Ok b -> exists a, m = Ok a /\ k a = Ok b.
Proof.
  destruct m as [a | e]; simpl; intros H.
  - exists a. split; [reflexivity | exact H].
  - discriminate H.
Qed.

Lemma getitem_obj (fields : list (string * json)) (key : string) (x : json) :
  lookup key fields = Some x -> py_getitem (JObj fields) key = Ok x.
Proof. intros H. simpl. rewrite H. reflexivity. Qed.

Lemma getitem_missing (fields : list (string * json)) (key : string) :
  lookup key fields = None -> py_getitem (JObj fields) key = Raise (KeyError key).
Proof. intros H. simpl. rewrite H. reflexivity. Qed.

Lemma contains_obj (fields : list (string * json)) (key : string) (x : json) :
  lookup key fields = Some x -> py_contains key (JObj fields) = Ok true.
Proof. intros H. simpl. rewrite H. reflexivity. Qed.

Lemma contains_missing (fields : list (string * json)) (key : string) :
  lookup key fields = None -> py_contains key (JObj fields) = Ok false.
Proof. intros H. simpl. rewrite H. reflexivity. Qed.

Lemma getitem_ok_obj (v : json) (key : string) (x : json) :
  py_getitem v key = Ok x -> exists fields, v = JObj fields /\ lookup key fields = Some x.
Proof.
  destruct v; simpl; try discriminate.
  destruct (lookup key fields) eqn:E; [| discriminate].
  intros H. injection H as <-. eauto.
Qed.

(** Rewriting with what is known about the fields of an object. *)
Ltac fields_known :=
  repeat match goal with
    | H : lookup ?k ?f = Some _ |- context [py_getitem (JObj ?f) ?k] =>
        rewrite (getitem_obj f k _ H)
    | H : lookup ?k ?f = Some _ |- context [py_contains ?k (JObj ?f)] =>
        rewrite (contains_obj f k _ H)
    | H : lookup ?k ?f = None |- context [py_contains ?k (JObj ?f)] =>
        rewrite (contains_missing f k H)
    | H : lookup ?k ?f = None |- context [py_getitem (JObj ?f) ?k] =>
        rewrite (getitem_missing f k H)
    end.

(** ** The report of the test suite's good file *)

Section GoodFile.

Variables report globals job opts read lat : list (string * json).
Variable name : json.

Hypothesis Hglobals : lookup GLOBAL_OPTS report = Some (JObj globals).
Hypothesis Hg_filesize : lookup FILESIZE globals = Some (JStr "50M").
Hypothesis Hg_ramptime : lookup RAMPTIME globals = Some (JStr "10s").
Hypothesis Htimestamp : lookup TIMESTAMP_MS report = Some (JInt 1653027155355).
Hypothesis Hjobs : lookup JOBS report = Some (JArr [JObj job]).
Hypothesis Hjobname : lookup JOBNAME job = Some name.
Hypothesis Hopts : lookup JOB_OPTS job = Some (JObj opts).
Hypothesis Hnumjobs : lookup NUMJOBS opts = Some (JStr "40").
Hypothesis Hfilesize : lookup FILESIZE opts = None.
Hypothesis Hramptime : lookup RAMPTIME opts = None.
Hypothesis Hread : lookup READ job = Some (JObj read).
Hypothesis Hruntime : lookup RUNTIME read = Some (JInt 60476).
Hypothesis Hiops : lookup IOPS read = Some (JFloat iops_good).
Hypothesis Hbw : lookup BW read = Some (JInt 97547).
Hypothesis Hlat : lookup LAT read = Some (JObj lat).
Hypothesis Hmin : lookup MIN lat = Some (JInt 353377760).
Hypothesis Hmax : lookup MAX lat = Some (JInt 1697519869).
Hypothesis Hmean : lookup MEAN lat = Some (JFloat mean_good).

Lemma good_global_options :
  global_options (JObj report) = Ok (JStr "50M", PInt 10000).
Proof using Hglobals Hg_filesize Hg_ramptime.
  unfold global_options. fields_known. cbn [bind].
  fields_known. reflexivity.
Qed.

Lemma good_read_job :
  read_job (JStr "50M") (PInt 10000) (JObj job) = Ok (good_view read name).
Proof using Hjobname Hopts Hnumjobs Hfilesize Hramptime Hread Hiops Hbw Hlat
  Hmin Hmax Hmean.
  unfold read_job, job_options. fields_known. cbn [bind].
  fields_known. cbn [bind]. fields_known. cbn [bind].
  fields_known. reflexivity.
Qed.

Lemma good_time_window :
  time_window (JObj report) 0 (good_view read name) = Ok (PInt 1653027155, 1653027226).
Proof using Htimestamp Hruntime.
  unfold time_window, start_time_ms_of. cbn [Z.gtb Z.compare good_view v_job_read].
  fields_known. reflexivity.
Qed.

Lemma good_not_skipped :
  skip_job (good_view read name) (PInt 1653027155) 1653027226 = false.
Proof. unfold skip_job. cbn. rewrite andb_false_r. reflexivity. Qed.

(** C3: a report with global options filesize "50M" and ramp_time "10s",
    timestamp_ms 1653027155355 and a single job with numjobs "40", no
    filesize or ramp_time of its own, runtime 60476, iops 95.26093,
    bw 97547 and lat_ns min 353377760, max 1697519869, mean
    417754876.774692 yields exactly one record: the job's name, filesize
    50000, 40 threads, start 1653027155, end 1653027226 and the metrics
    unchanged.  Whatever other keys the report, the job and its sections
    carry does not matter. *)
Theorem extract_good_file :
  _extract_metrics (JObj report) = Ok [good_record name].
Proof using All.
  unfold _extract_metrics.
  assert (Ht : truthy (JObj report) = true).
  { destruct report; [discriminate Hglobals | reflexivity]. }
  rewrite Ht, good_global_options. cbn [negb bind].
  fields_known. cbn [bind py_iter run_jobs].
  unfold job_step. rewrite good_read_job. cbn [bind initial_state prev_endtime_s].
  rewrite good_time_window. cbn [bind]. rewrite good_not_skipped.
  reflexivity.
Qed.

End GoodFile.

Lemma extract_good_file_witness :
  _extract_metrics (JObj (good_report (JStr "1_thread")))
  = Ok [good_record (JStr "1_thread")].
Proof.
  apply (extract_good_file (good_report (JStr "1_thread"))
           [ ("ramp_time", JStr "10s"); ("filesize", JStr "50M") ]
           (good_job (JStr "1_thread")) [ ("numjobs", JStr "40") ] good_read
           [ ("min", JInt 353377760); ("max", JInt 1697519869);
             ("mean", JFloat mean_good) ]);
    reflexivity.
Defined.

(** ** The loop over the jobs *)

Lemma job_step_result fio_out gf gr st i job st' :
  job_step fio_out gf gr st i job = Ok st' -> step_result st i st'.
Proof.
  unfold job_step. intros H.
  apply bind_ok in H as (v & _ & H).
  apply bind_ok in H as ([s e] & _ & H).
  destruct (skip_job v s e).
  - injection H as <-. now apply step_skipped.
  - apply bind_ok in H as (fs & _ & H).
    apply bind_ok in H as (n & _ & H).
    injection H as <-. now eapply step_emitted.
Qed.

(** Every job visited by a loop that completes was either skipped or emitted. *)
Lemma run_jobs_count fio_out gf gr jobs : forall i st st',
  run_jobs fio_out gf gr i jobs st = Ok st' ->
  (List.length (all_jobs st') + List.length (skipped st')
   = List.length (all_jobs st) + List.length (skipped st) + List.length jobs)%nat.
Proof.
  induction jobs as [| job rest IH]; intros i st st' H; simpl in H.
  - injection H as <-. simpl. lia.
  - apply bind_ok in H as (st1 & Hstep & H).
    apply IH in H. apply job_step_result in Hstep.
    destruct Hstep as [Ha _ Hs | r Ha _ Hs]; rewrite Ha, Hs in H;
      rewrite ?length_app in H; simpl in *; lia.
Qed.

(** An exception in one iteration ends the loop with that exception,
    whatever the other jobs are. *)
Lemma run_jobs_raises fio_out gf gr job :
  (forall st i, exists e, job_step fio_out gf gr st i job = Raise e) ->
  forall jobs, In job jobs ->
  forall i st, exists e, run_jobs fio_out gf gr i jobs st = Raise e.
Proof.
  intros Hjob jobs. induction jobs as [| j rest IH]; intros Hin i st.
  - destruct Hin.
  - simpl. destruct Hin as [-> | Hin].
    + destruct (Hjob st i) as [e He]. rewrite He. now exists e.
    + destruct (job_step fio_out gf gr st i j) as [st1 | e].
      * simpl. apply IH, Hin.
      * now exists e.
Qed.

(** ** Empty data *)

(** C7: on a document that is empty or null, that is on every document
    whose truth value is false, [_extract_metrics] raises [NoValuesError]
    with the message of the report-level check and nothing else; when the
    loop completes with every job skipped by the filter, it raises
    [NoValuesError] with the other message; the two messages differ. *)
Theorem empty_data_errors :
  (forall fio_out, truthy fio_out = false ->
     _extract_metrics fio_out = Raise (NoValuesError msg_no_data))
  /\ _extract_metrics JNull = Raise (NoValuesError msg_no_data)
  /\ _extract_metrics (JObj []) = Raise (NoValuesError msg_no_data)
  /\ (forall fio_out gf gr jobsv jobs st,
        truthy fio_out = true ->
        global_options fio_out = Ok (gf, gr) ->
        py_getitem fio_out JOBS = Ok jobsv ->
        py_iter jobsv = Ok jobs ->
        run_jobs fio_out gf gr 0 jobs initial_state = Ok st ->
        List.length (skipped st) = List.length jobs ->
        _extract_metrics fio_out = Raise (NoValuesError msg_nothing_extracted))
  /\ msg_no_data <> msg_nothing_extracted.
Proof.
  split; [| split; [| split; [| split]]].
  - intros fio_out H. unfold _extract_metrics. rewrite H. reflexivity.
  - reflexivity.
  - reflexivity.
  - intros fio_out gf gr jobsv jobs st Ht Hg Hj Hi Hrun Hlen.
    unfold _extract_metrics. rewrite Ht, Hg. cbn [negb bind].
    rewrite Hj. cbn [bind]. rewrite Hi. cbn [bind]. rewrite Hrun. cbn [bind].
    apply run_jobs_count in Hrun. simpl in Hrun.
    destruct (all_jobs st); [reflexivity | simpl in Hrun; lia].
  - discriminate.
Qed.

Lemma empty_data_errors_witness :
  _extract_metrics (JArr []) = Raise (NoValuesError msg_no_data)
  /\ _extract_metrics no_metrics_report
     = Raise (NoValuesError msg_nothing_extracted).
Proof.
  destruct empty_data_errors as (Hempty & _ & _ & Hfiltered & _).
  split.
  - apply Hempty. reflexivity.
  - apply (Hfiltered no_metrics_report (JStr "50M") (PInt 10000)
             (JArr [ JObj [ ("jobname", JStr "1_thread"); ("read", JObj zero_read) ] ])
             [ JObj [ ("jobname", JStr "1_thread"); ("read", JObj zero_read) ] ]
             {| all_jobs := []; prev_endtime_s := 0; skipped := [0%nat] |});
      reflexivity.
Defined.

(** ** Metrics of the [read] section *)

Lemma read_job_reads gf gr job v :
  read_job gf gr job = Ok v ->
  exists fields read lat,
    job = JObj fields
    /\ lookup JOBNAME fields = Some (v_jobname v)
    /\ lookup READ fields = Some (JObj read)
    /\ v_job_read v = JObj read
    /\ lookup IOPS read = Some (v_iops v)
    /\ lookup BW read = Some (v_bw v)
    /\ lookup LAT read = Some (JObj lat)
    /\ lookup MIN lat = Some (v_lat_min v)
    /\ lookup MAX lat = Some (v_lat_max v)
    /\ lookup MEAN lat = Some (v_lat_mean v).
Proof.
  unfold read_job. intros H.
  apply bind_ok in H as (jobname & Hname & H).
  apply bind_ok in H as (job_read & Hread & H).
  apply bind_ok in H as (iops & Hiops & H).
  apply bind_ok in H as (bw & Hbw & H).
  apply bind_ok in H as (lat1 & Hlat1 & H).
  apply bind_ok in H as (lmin & Hmin & H).
  apply bind_ok in H as (lat2 & Hlat2 & H).
  apply bind_ok in H as (lmax & Hmax & H).
  apply bind_ok in H as (lat3 & Hlat3 & H).
  apply bind_ok in H as (lmean & Hmean & H).
  apply bind_ok in H as ([[numjobs filesize] ramptime] & _ & H).
  injection H as <-. cbn.
  rewrite Hlat1 in Hlat2, Hlat3.
  injection Hlat2 as <-. injection Hlat3 as <-.
  apply getitem_ok_obj in Hname as (fields & -> & Hname).
  apply getitem_ok_obj in Hread as (fields' & [= <-] & Hread).
  apply getitem_ok_obj in Hiops as (read & -> & Hiops).
  apply getitem_ok_obj in Hbw as (read' & [= <-] & Hbw).
  apply getitem_ok_obj in Hlat1 as (read' & [= <-] & Hlat).
  apply getitem_ok_obj in Hmin as (lat & -> & Hmin).
  apply getitem_ok_obj in Hmax as (lat' & [= <-] & Hmax).
  apply getitem_ok_obj in Hmean as (lat' & [= <-] & Hmean).
  exists fields, read, lat. repeat split; assumption.
Qed.

Lemma absent_not_read gf gr job key v :
  metric_absent job key -> read_job gf gr job <> Ok v.
Proof.
  intros Habs H.
  apply read_job_reads in H
    as (fields & read & lat & Hjob & _ & Hread & _ & Hiops & Hbw & Hlat
        & Hmin & Hmax & Hmean).
  destruct Habs as [job0 Hr | job0 r Hr Hk | job0 r Hr Hk | job0 r Hr Hk
                   | job0 r l k Hr Hl Hin Hk];
    injection Hjob as ->; rewrite Hread in Hr; try discriminate Hr;
    injection Hr as <-; try congruence.
  rewrite Hlat in Hl. injection Hl as <-.
  destruct Hin as [<- | [<- | [<- | []]]]; congruence.
Qed.

(** Destructing the presence of the next key the source reads. *)
Ltac next_key f k :=
  destruct (lookup k f) eqn:?; repeat (progress (fields_known; cbn [bind]));
  [| eauto].

(** With a metric absent, reading the job raises [KeyError]: for the first
    key, in the order of the source, that is missing. *)
Lemma absent_key_error gf gr job key :
  metric_absent job key ->
  exists k, read_job gf gr job = Raise (KeyError k).
Proof.
  intros Habs. unfold read_job.
  destruct Habs as [job Hr | job r Hr Hk | job r Hr Hk | job r Hr Hk
                   | job r l k Hr Hl Hin Hk].
  - next_key job JOBNAME. eauto.
  - next_key job JOBNAME. eauto.
  - next_key job JOBNAME. next_key r IOPS. eauto.
  - next_key job JOBNAME. next_key r IOPS. next_key r BW. eauto.
  - next_key job JOBNAME. next_key r IOPS. next_key r BW.
    next_key l MIN. next_key l MAX. next_key l MEAN.
    destruct Hin as [<- | [<- | [<- | []]]]; congruence.
Qed.

(** C2, as stated, fails: a job without [read] section is not treated as a
    job with zero metrics and left to the filter, the extraction of the
    whole report raises [KeyError]. *)
Lemma missing_read_aborts :
  lookup READ job_without_read = None
  /\ _extract_metrics missing_read_report = Raise (KeyError "read").
Proof. split; reflexivity. Qed.

(** C2, amended: the metrics iops, bw and lat_ns.min/max/mean of a job are
    read from its [read] section, and every one of them must be there; when
    the section or one of the metrics is absent, the iteration raises
    [KeyError], and the extraction of a report with such a job returns no
    records at all. *)
Theorem metrics_read_or_key_error :
  (forall gf gr job v,
     read_job gf gr job = Ok v ->
     exists fields read lat,
       job = JObj fields
       /\ lookup READ fields = Some (JObj read)
       /\ lookup IOPS read = Some (v_iops v)
       /\ lookup BW read = Some (v_bw v)
       /\ lookup LAT read = Some (JObj lat)
       /\ lookup MIN lat = Some (v_lat_min v)
       /\ lookup MAX lat = Some (v_lat_max v)
       /\ lookup MEAN lat = Some (v_lat_mean v))
  /\ (forall job key,
        metric_absent job key ->
        (forall fio_out gf gr st i,
           exists k, job_step fio_out gf gr st i job = Raise (KeyError k))
        /\ (forall fio_out jobs,
              py_getitem fio_out JOBS = Ok (JArr jobs) -> In job jobs ->
              forall records, _extract_metrics fio_out <> Ok records)).
Proof.
  split.
  - intros gf gr job v H.
    apply read_job_reads in H
      as (fields & read & lat & Hjob & _ & Hread & _ & H).
    exists fields, read, lat. auto.
  - intros job key Habs.
    assert (Hstep : forall fio_out gf gr st i,
               exists k, job_step fio_out gf gr st i job = Raise (KeyError k)).
    { intros fio_out gf gr st i. unfold job_step.
      destruct (absent_key_error gf gr job key Habs) as [k ->]. now exists k. }
    split; [exact Hstep |].
    intros fio_out jobs Hjobs Hin records H.
    unfold _extract_metrics in H.
    destruct (negb (truthy fio_out)); [discriminate H |].
    apply bind_ok in H as ([gf gr] & _ & H).
    rewrite Hjobs in H. cbn [bind py_iter] in H.
    destruct (run_jobs_raises fio_out gf gr job) with (jobs := jobs)
      (i := 0%nat) (st := initial_state) as [e He]; [| exact Hin |].
    + intros st i. destruct (Hstep fio_out gf gr st i) as [k Hk]. eauto.
    + rewrite He in H. discriminate H.
Qed.

Lemma metrics_read_or_key_error_witness :
  (exists k, job_step missing_read_report (JStr "50M") (PInt 10000)
               initial_state 0 (JObj job_without_read) = Raise (KeyError k))
  /\ forall records, _extract_metrics missing_read_report <> Ok records.
Proof.
  destruct metrics_read_or_key_error as [_ Habsent].
  destruct (Habsent (JObj job_without_read) READ) as [Hstep Hall].
  - apply absent_read. reflexivity.
  - split.
    + apply Hstep.
    + apply (Hall missing_read_report
               [ JObj job_without_read; JObj (good_job (JStr "2_thread")) ]).
      * reflexivity.
      * left. reflexivity.
Defined.

(** ** [_convert_value] on the unit [b] *)

(** C4 fails on the code: for the unit [b] the product [int(num) * 0.001]
    is a float and nothing truncates it.  ["1500b"] converts to the float
    1.5, not to an integer, and that float is the [filesize] of the emitted
    record. *)
Theorem bytes_not_truncated :
  _convert_value (JStr "1500b") FILESIZE_CONVERSION = Ok (PFloat float_1_5)
  /\ (forall z, _convert_value (JStr "1500b") FILESIZE_CONVERSION <> Ok (PInt z))
  /\ exists r, _extract_metrics bytes_report = Ok [r]
               /\ m_filesize r = PFloat float_1_5.
Proof.
  split; [reflexivity | split].
  - intros z H. discriminate H.
  - eexists. split; reflexivity.
Qed.

(** ** An empty file size reaches [_convert_value] *)

(** C10: there is a job with a non-empty name, metrics that are not all
    zero and a time window that is not degenerate whose file size resolves
    to the empty string; the filter lets it pass, [_convert_value] raises
    on the empty string, and the extraction of the whole report ends with
    that exception although another job of the report is valid. *)
Theorem empty_filesize_aborts :
  exists v start_time_s end_time_s,
    read_job (JStr "") (PInt 10000) job_without_filesize = Ok v
    /\ v_filesize v = JStr ""
    /\ truthy (v_jobname v) = true
    /\ time_window no_filesize_report 0 v = Ok (start_time_s, end_time_s)
    /\ skip_job v start_time_s end_time_s = false
    /\ _convert_value (v_filesize v) FILESIZE_CONVERSION = Raise ValueError
    /\ global_options no_filesize_report = Ok (JStr "", PInt 10000)
    /\ _extract_metrics no_filesize_report = Raise ValueError.
Proof.
  do 3 eexists. split; [reflexivity |]. repeat split.
Qed.

(** ** Resolution of the options *)

Lemma global_options_fields report gopts :
  section_fields (lookup GLOBAL_OPTS report) = Some gopts ->
  global_options (JObj report)
  = gr <- ramptime_of gopts ;; Ok (default (JStr "") (lookup FILESIZE gopts), gr).
Proof.
  unfold global_options, ramptime_of. intros H.
  destruct (lookup GLOBAL_OPTS report) as [[] |] eqn:Hg; try discriminate H;
    injection H as <-; fields_known; cbn [bind]; [| reflexivity].
  fields_known. cbn [bind].
  destruct (lookup FILESIZE fields) eqn:Hf, (lookup RAMPTIME fields) eqn:Hr;
    fields_known; reflexivity.
Qed.

Lemma job_options_fields job jopts :
  section_fields (lookup JOB_OPTS job) = Some jopts ->
  job_options (JObj job)
  = r <- ramptime_of jopts ;;
    Ok (default (JStr "1") (lookup NUMJOBS jopts),
        default (JInt 0) (lookup FILESIZE jopts), r).
Proof.
  unfold job_options, ramptime_of. intros H.
  destruct (lookup JOB_OPTS job) as [[] |] eqn:Hg; try discriminate H;
    injection H as <-; fields_known; cbn [bind]; [| reflexivity].
  fields_known. cbn [bind].
  destruct (lookup NUMJOBS fields) eqn:Hn, (lookup FILESIZE fields) eqn:Hf,
    (lookup RAMPTIME fields) eqn:Hr; fields_known; reflexivity.
Qed.

(** C1, as stated, fails for [numjobs]: the global options are never
    consulted for it.  With [numjobs] "4" in the global options and none in
    the job, resolution in the words of the claim gives "4", the code
    emits 1 thread. *)
Lemma global_numjobs_ignored :
  resolve_spec NUMJOBS (JStr "1") []
    [ ("ramp_time", JStr "10s"); ("filesize", JStr "50M"); ("numjobs", JStr "4") ]
  = JStr "4"
  /\ exists r, _extract_metrics global_numjobs_report = Ok [r]
               /\ m_num_threads r = 1.
Proof. split; [reflexivity |]. eexists. split; reflexivity. Qed.

(** C1, amended: for every job, [filesize] and [ramp_time] are resolved
    from the job's options first and from the global options next, and
    [numjobs] from the job's options only.  [numjobs] is the job's value or
    "1"; [filesize] is the job's value unless that is missing or empty, then
    the global value, or "" when that is missing too; the ramp time is the
    job's converted value unless that is missing or zero, then the global
    converted value, or 0 when that is missing too. *)
Theorem options_resolved report job gopts jopts gf gr v :
  section_fields (lookup GLOBAL_OPTS report) = Some gopts ->
  section_fields (lookup JOB_OPTS job) = Some jopts ->
  global_options (JObj report) = Ok (gf, gr) ->
  read_job gf gr (JObj job) = Ok v ->
  v_numjobs v = default (JStr "1") (lookup NUMJOBS jopts)
  /\ gf = default (JStr "") (lookup FILESIZE gopts)
  /\ v_filesize v = match lookup FILESIZE jopts with
                    | Some x => if truthy x then x else gf
                    | None => gf
                    end
  /\ ramptime_of gopts = Ok gr
  /\ exists r, ramptime_of jopts = Ok r
               /\ v_ramptime_ms v = if py_eqb r (PInt 0) then gr else r.
Proof.
  intros Hg Hj Hglobal Hread.
  rewrite (global_options_fields report gopts Hg) in Hglobal.
  apply bind_ok in Hglobal as (gr' & Hgr & Hglobal).
  injection Hglobal as <- <-.
  unfold read_job in Hread.
  do 10 (apply bind_ok in Hread as (? & _ & Hread)).
  rewrite (job_options_fields job jopts Hj) in Hread.
  apply bind_ok in Hread as ([[numjobs filesize] ramptime] & Hopts & Hread).
  apply bind_ok in Hopts as (r & Hr & Hopts).
  injection Hopts as <- <- <-. injection Hread as <-. cbn.
  repeat split; try assumption.
  - destruct (lookup FILESIZE jopts); reflexivity.
  - exists r. split; [assumption | reflexivity].
Qed.

Lemma options_resolved_witness :
  v_numjobs good_view_1 = JStr "40"
  /\ JStr "50M" = JStr "50M"
  /\ v_filesize good_view_1 = JStr "50M"
  /\ ramptime_of [ ("ramp_time", JStr "10s"); ("filesize", JStr "50M") ]
     = Ok (PInt 10000)
  /\ exists r, ramptime_of [ ("numjobs", JStr "40") ] = Ok r
               /\ v_ramptime_ms good_view_1
                  = if py_eqb r (PInt 0) then PInt 10000 else r.
Proof.
  apply (options_resolved (good_report (JStr "1_thread"))
           (good_job (JStr "1_thread"))
           [ ("ramp_time", JStr "10s"); ("filesize", JStr "50M") ]
           [ ("numjobs", JStr "40") ] (JStr "50M") (PInt 10000) good_view_1);
    reflexivity.
Defined.

(** ** The matches of the pattern *)

Lemma rev_string_rev (s acc t : string) :
  rev_string t (rev_string acc s) = rev_string (s ++ t)%string acc.
Proof.
  revert acc t. induction s as [| c s IH]; intros acc t; simpl.
  - reflexivity.
  - rewrite IH. reflexivity.
Qed.

Lemma append_empty (s : string) : (s ++ "")%string = s.
Proof. induction s as [| c s IH]; simpl; [| rewrite IH]; reflexivity. Qed.

Lemma all_chars_rev p (s acc : string) :
  all_chars p (rev_string acc s) = all_chars p acc && all_chars p s.
Proof.
  revert acc. induction s as [| c s IH]; intros acc; simpl.
  - now rewrite andb_true_r.
  - rewrite IH. simpl. destruct (p c), (all_chars p acc); reflexivity.
Qed.

Lemma digit_not_alpha (c : ascii) : is_digit c = true -> is_alpha c = false.
Proof. destruct c as [[] [] [] [] [] [] [] []]; vm_compute; congruence. Qed.

Lemma classify_digit (c : ascii) : is_digit c = true <-> classify c = CDigit.
Proof.
  unfold classify. destruct (is_digit c), (is_alpha c); split; congruence.
Qed.

Lemma classify_alpha (c : ascii) : is_alpha c = true <-> classify c = CAlpha.
Proof.
  unfold classify. pose proof (digit_not_alpha c).
  destruct (is_digit c), (is_alpha c); split; intuition congruence.
Qed.

Lemma in_class_digit (s : string) :
  all_chars is_digit s = all_chars (in_class CDigit) s.
Proof.
  induction s as [| c s IH]; simpl; [reflexivity |]. rewrite IH. f_equal.
  unfold in_class. pose proof (classify_digit c) as [H1 H2].
  destruct (is_digit c); [now rewrite H1 |].
  destruct (classify c); try reflexivity. now discriminate H2.
Qed.

Lemma in_class_alpha (s : string) :
  all_chars is_alpha s = all_chars (in_class CAlpha) s.
Proof.
  induction s as [| c s IH]; simpl; [reflexivity |]. rewrite IH. f_equal.
  unfold in_class. pose proof (classify_alpha c) as [H1 H2].
  destruct (is_alpha c); [now rewrite H1 |].
  destruct (classify c); try reflexivity. now discriminate H2.
Qed.

(** Scanning through characters of the class of the match in progress
    extends that match. *)
Lemma scan_run (k : cclass) (s run rest : string) :
  k <> COther ->
  all_chars (in_class k) s = true ->
  scan k run (s ++ rest)%string = scan k (rev_string run s) rest.
Proof.
  intros Hk. revert run. induction s as [| c s IH]; intros run H; simpl in *.
  - reflexivity.
  - apply andb_prop in H as [Hc Hs]. unfold in_class in Hc.
    destruct (classify c) eqn:Ec, k; try discriminate Hc; try congruence;
      simpl; apply IH, Hs.
Qed.

Lemma rev_string_nonempty (s acc : string) : s <> "" -> rev_string acc s <> "".
Proof.
  revert acc. induction s as [| c s IH]; intros acc H; [congruence |].
  simpl. destruct s as [| c' s]; [simpl; discriminate |].
  apply IH. discriminate.
Qed.

Lemma flush_rev (c : ascii) (s : string) :
  flush (rev_string (String c "") s) = [String c s].
Proof.
  change (rev_string (String c "") s) with (rev_string "" (String c s)).
  pose proof (rev_string_nonempty (String c s) "") as Hne.
  unfold flush. destruct (rev_string "" (String c s)) eqn:E.
  - exfalso. apply Hne; [discriminate | reflexivity].
  - rewrite <- E, rev_string_rev, append_empty. reflexivity.
Qed.

(** A run of digits followed by a run of letters is matched as these two. *)
Lemma findall_num_unit (ds ls : string) :
  ds <> "" -> ls <> "" ->
  all_chars is_digit ds = true -> all_chars is_alpha ls = true ->
  findall (ds ++ ls)%string = [ds; ls].
Proof.
  intros Hds Hls Hd Hl.
  destruct ds as [| d ds]; [congruence |]. destruct ls as [| l ls]; [congruence |].
  simpl in Hd, Hl. apply andb_prop in Hd as [Hd Hds'].
  apply andb_prop in Hl as [Hl Hls'].
  unfold findall. simpl.
  apply classify_digit in Hd. apply classify_alpha in Hl. rewrite Hd. simpl.
  rewrite scan_run by (try discriminate; now rewrite <- in_class_digit).
  simpl. rewrite Hl. simpl.
  rewrite <- (append_empty ls) at 1.
  rewrite scan_run by (try discriminate; now rewrite <- in_class_alpha).
  simpl. rewrite !flush_rev. reflexivity.
Qed.

Lemma flush_runs (k : cclass) (run : string) :
  k <> COther -> all_chars (in_class k) run = true -> Forall is_run (flush run).
Proof.
  intros Hk H. destruct run as [| c run]; simpl; constructor; [| constructor].
  split.
  - apply (rev_string_nonempty (String c run) ""). discriminate.
  - rewrite in_class_digit, in_class_alpha.
    destruct k; [left | right | congruence];
      change (rev_string (String c "") run) with (rev_string "" (String c run));
      rewrite all_chars_rev; exact H.
Qed.

Lemma scan_runs (s : string) : forall k run,
  (k = COther -> run = "") ->
  all_chars (in_class k) run = true ->
  Forall is_run (scan k run s).
Proof.
  induction s as [| c s IH]; intros k run Hother Hrun; simpl.
  - destruct k; try (eapply flush_runs; [| exact Hrun]; discriminate).
    rewrite Hother by reflexivity. constructor.
  - assert (Hflush : Forall is_run (flush run)).
    { destruct k; try (eapply flush_runs; [| exact Hrun]; discriminate).
      rewrite Hother by reflexivity. constructor. }
    destruct (classify c) eqn:Ec.
    + destruct k; simpl.
      * apply IH; [discriminate |]. simpl. unfold in_class at 1. now rewrite Ec.
      * apply Forall_app. split; [exact Hflush |].
        apply IH; [discriminate |]. simpl. unfold in_class. now rewrite Ec.
      * apply Forall_app. split; [exact Hflush |].
        apply IH; [discriminate |]. simpl. unfold in_class. now rewrite Ec.
    + destruct k; simpl.
      * apply Forall_app. split; [exact Hflush |].
        apply IH; [discriminate |]. simpl. unfold in_class. now rewrite Ec.
      * apply IH; [discriminate |]. simpl. unfold in_class at 1. now rewrite Ec.
      * apply Forall_app. split; [exact Hflush |].
        apply IH; [discriminate |]. simpl. unfold in_class. now rewrite Ec.
    + apply Forall_app. split; [exact Hflush |]. apply IH; reflexivity.
Qed.

Lemma findall_runs (s : string) : Forall is_run (findall s).
Proof. apply scan_runs; reflexivity. Qed.

(** ** Errors of [_convert_value] *)

Lemma float_of_int_raises z e : float_of_int z = Raise e -> e = OverflowError.
Proof.
  unfold float_of_int. destruct (is_inf _); congruence.
Qed.

Lemma py_mul_raises a b e : py_mul a b = Raise e -> e = OverflowError.
Proof.
  destruct a as [x | f], b as [y | g]; simpl; try discriminate.
  - destruct (float_of_int x) eqn:E; simpl; [discriminate |].
    intros [= <-]. eapply float_of_int_raises, E.
  - destruct (float_of_int y) eqn:E; simpl; [discriminate |].
    intros [= <-]. eapply float_of_int_raises, E.
Qed.

Lemma alpha_not_digits (r : string) :
  r <> "" -> all_chars is_alpha r = true -> all_chars is_digit r = false.
Proof.
  destruct r as [| c r]; [congruence |]. simpl. intros _ H.
  apply andb_prop in H as [H _]. pose proof (digit_not_alpha c).
  destruct (is_digit c); [| reflexivity]. intuition congruence.
Qed.

Lemma int_of_run_digits (r : string) :
  r <> "" -> all_chars is_digit r = true ->
  within_digit_limit (String.length r) = true ->
  int_of_run r = Ok (decimal 0 r).
Proof.
  intros Hne H Hl. unfold int_of_run. rewrite H, Hl.
  destruct r; [congruence | reflexivity].
Qed.

Lemma int_of_run_long (r : string) :
  within_digit_limit (String.length r) = false -> int_of_run r = Raise ValueError.
Proof.
  intros Hl. unfold int_of_run. rewrite Hl, andb_false_r. destruct r; reflexivity.
Qed.

Lemma int_of_run_ok (r : string) (n : Z) :
  int_of_run r = Ok n ->
  r <> "" /\ all_chars is_digit r = true
  /\ within_digit_limit (String.length r) = true /\ n = decimal 0 r.
Proof.
  unfold int_of_run. destruct r as [| c r]; [discriminate |].
  destruct (all_chars is_digit (String c r)); [| discriminate].
  destruct (within_digit_limit _); [| discriminate].
  intros [= <-]. repeat split. discriminate.
Qed.

Lemma int_of_run_alpha (r : string) :
  r <> "" -> all_chars is_alpha r = true -> int_of_run r = Raise ValueError.
Proof.
  intros Hne H. unfold int_of_run. rewrite (alpha_not_digits r Hne H).
  destruct r; reflexivity.
Qed.

(** C8, as stated, fails: the pattern skips every character that is neither
    a digit nor a letter, so "50 M" does not have the shape of the claim and
    converts without error; "M50" has not the shape either and raises
    [KeyError], not [ValueError]. *)
Lemma separators_are_skipped :
  num_then_unit "50 M" = false
  /\ _convert_value (JStr "50 M") FILESIZE_CONVERSION = Ok (PInt 50000)
  /\ num_then_unit "M50" = false
  /\ _convert_value (JStr "M50") FILESIZE_CONVERSION = Raise (KeyError "50").
Proof. repeat split. Qed.

(** C8, amended: what decides is the list of matches of the pattern, the
    maximal runs of digits and of letters in the string, all other
    characters being skipped.  [_convert_value] raises [KeyError] (unknown
    unit) exactly when there are exactly two matches and the second, in
    lower case, is not a key of the table; it raises [ValueError]
    (malformed value) exactly when there are not exactly two matches, or
    there are two, the second is a key of the table and the first is a run
    of letters or has more digits than [int] converts, 4300.  In particular
    a run of digits followed by a run of letters raises [KeyError] exactly
    when its unit is not in the table, and [ValueError] exactly when its
    unit is in the table and it has more than 4300 digits. *)
Theorem convert_value_errors (s : string) (d : list (string * pynum)) :
  (_convert_value (JStr s) d = Raise ValueError <->
     (forall num unit, findall s <> [num; unit])
     \/ (exists num unit,
           findall s = [num; unit] /\ lookup (lower unit) d <> None
           /\ (all_chars is_alpha num = true
               \/ within_digit_limit (String.length num) = false)))
  /\ (forall k,
        _convert_value (JStr s) d = Raise (KeyError k) <->
        exists num unit,
          findall s = [num; unit] /\ lookup (lower unit) d = None
          /\ k = lower unit)
  /\ (forall ds ls,
        s = (ds ++ ls)%string -> ds <> "" -> ls <> "" ->
        all_chars is_digit ds = true -> all_chars is_alpha ls = true ->
        (_convert_value (JStr s) d = Raise ValueError <->
           lookup (lower ls) d <> None
           /\ within_digit_limit (String.length ds) = false)
        /\ (_convert_value (JStr s) d = Raise (KeyError (lower ls)) <->
            lookup (lower ls) d = None)).
Proof.
  assert (Hmain :
    (_convert_value (JStr s) d = Raise ValueError <->
       (forall num unit, findall s <> [num; unit])
       \/ (exists num unit,
             findall s = [num; unit] /\ lookup (lower unit) d <> None
             /\ (all_chars is_alpha num = true
                 \/ within_digit_limit (String.length num) = false)))
    /\ (forall k,
          _convert_value (JStr s) d = Raise (KeyError k) <->
          exists num unit,
            findall s = [num; unit] /\ lookup (lower unit) d = None
            /\ k = lower unit)).
  { pose proof (findall_runs s) as Hruns.
    unfold _convert_value, convert_str.
    destruct (findall s) as [| num [| unit [| x rest]]] eqn:E.
    1, 2, 4: split; [split; [intros _; left; intros ? ?; discriminate | reflexivity]
                    | intros k; split; [discriminate | intros (? & ? & ? & _); discriminate]].
    inversion Hruns as [| ? ? [Hne Hkind] _]; subst.
    destruct (lookup (lower unit) d) as [m |] eqn:El.
    - destruct Hkind as [Hd | Ha].
      + destruct (within_digit_limit (String.length num)) eqn:Hl.
        * rewrite (int_of_run_digits num Hne Hd Hl). cbn [bind]. split.
          -- split.
             ++ intros H. apply py_mul_raises in H. discriminate H.
             ++ intros [H | (n' & u' & [= <- <-] & _ & [Ha | Hlong])].
                ** now specialize (H num unit).
                ** rewrite (alpha_not_digits num Hne Ha) in Hd. discriminate Hd.
                ** congruence.
          -- intros k. split.
             ++ intros H. apply py_mul_raises in H. discriminate H.
             ++ intros (n' & u' & [= <- <-] & Hnone & _). congruence.
        * rewrite (int_of_run_long num Hl). cbn [bind]. split.
          -- split; [| reflexivity]. intros _. right. exists num, unit.
             repeat split; [congruence | now right].
          -- intros k. split; [discriminate |].
             intros (n' & u' & [= <- <-] & Hnone & _). congruence.
      + rewrite (int_of_run_alpha num Hne Ha). cbn [bind]. split.
        * split; [| reflexivity]. intros _. right. exists num, unit.
          repeat split; [congruence | now left].
        * intros k. split; [discriminate |].
          intros (n' & u' & [= <- <-] & Hnone & _). congruence.
    - split.
      + split; [discriminate |].
        intros [H | (n' & u' & [= <- <-] & Hsome & _)];
          [now specialize (H num unit) | congruence].
      + intros k. split.
        * intros [= <-]. now exists num, unit.
        * intros (n' & u' & [= <- <-] & _ & ->). reflexivity. }
  destruct Hmain as [Hvalue Hkey]. split; [exact Hvalue | split; [exact Hkey |]].
  intros ds ls -> Hds Hls Hd Ha.
  pose proof (findall_num_unit ds ls Hds Hls Hd Ha) as Hfind. split.
  - rewrite Hvalue. split.
    + intros [H | (n' & u' & H & Hsome & [Ha' | Hlong])].
      * now specialize (H ds ls).
      * rewrite Hfind in H. injection H as <- <-.
        rewrite (alpha_not_digits ds Hds Ha') in Hd. discriminate Hd.
      * rewrite Hfind in H. injection H as <- <-. split; assumption.
    + intros [Hsome Hlong]. right. exists ds, ls. auto.
  - rewrite Hkey. split.
    + intros (n' & u' & H & Hnone & _). rewrite Hfind in H.
      injection H as <- <-. exact Hnone.
    + intros Hnone. now exists ds, ls.
Qed.

Lemma convert_value_errors_witness :
  _convert_value (JStr "50MiB") FILESIZE_CONVERSION <> Raise ValueError
  /\ _convert_value (JStr "50MiB") FILESIZE_CONVERSION = Raise (KeyError "mib")
  /\ _convert_value (JStr "50.5M") FILESIZE_CONVERSION = Raise ValueError.
Proof.
  destruct (convert_value_errors "50MiB" FILESIZE_CONVERSION) as (_ & _ & Hshape).
  destruct (Hshape "50" "MiB") as [Hvalue Hkey];
    [reflexivity | discriminate | discriminate | reflexivity | reflexivity |].
  destruct (convert_value_errors "50.5M" FILESIZE_CONVERSION) as (Hmal & _ & _).
  split; [| split].
  - intros H. apply Hvalue in H as [H _]. now apply H.
  - apply Hkey. reflexivity.
  - apply Hmal. left. intros num unit H. discriminate H.
Defined.

(** ** The timeline *)

Lemma app_tail_neq {A : Type} (l : list A) (x : A) : l <> l ++ [x].
Proof.
  intros H. apply (f_equal (@List.length A)) in H.
  rewrite length_app in H. simpl in H. lia.
Qed.

(** The record an iteration appends starts where [start_time_ms_of] says,
    in whole seconds. *)
Lemma emitted_start fio_out gf gr st i job st' r :
  job_step fio_out gf gr st i job = Ok st' ->
  all_jobs st' = all_jobs st ++ [r] ->
  exists v start_ms t,
    read_job gf gr job = Ok v
    /\ time_window fio_out (prev_endtime_s st) v = Ok (m_start_time r, m_end_time r)
    /\ skip_job v (m_start_time r) (m_end_time r) = false
    /\ start_time_ms_of fio_out (prev_endtime_s st) = Ok start_ms
    /\ as_num start_ms = Ok t
    /\ py_floordiv t (PInt 1000) = Ok (m_start_time r).
Proof.
  unfold job_step. intros H Hall.
  apply bind_ok in H as (v & Hv & H).
  apply bind_ok in H as ([s e] & Hw & H).
  destruct (skip_job v s e) eqn:Hskip.
  - injection H as <-. simpl in Hall. now apply app_tail_neq in Hall.
  - apply bind_ok in H as (fs & _ & H).
    apply bind_ok in H as (n & _ & H).
    injection H as <-. simpl in Hall. apply app_inj_tail in Hall as [_ <-].
    simpl. pose proof Hw as Hw'. unfold time_window in Hw'.
    apply bind_ok in Hw' as (start_ms & Hstart & Hw').
    apply bind_ok in Hw' as (runtime & _ & Hw').
    apply bind_ok in Hw' as (t & Ht & Hw').
    apply bind_ok in Hw' as (rt & _ & Hw').
    apply bind_ok in Hw' as (sum & _ & Hw').
    apply bind_ok in Hw' as (end_ms & _ & Hw').
    apply bind_ok in Hw' as (s' & Hs & Hw').
    apply bind_ok in Hw' as (quot & _ & Hw').
    apply bind_ok in Hw' as (e' & _ & Hw').
    injection Hw' as <- <-.
    exists v, start_ms, t. repeat split; assumption.
Qed.

(** The records only grow along the loop. *)
Lemma run_jobs_grows fio_out gf gr jobs : forall i st st',
  run_jobs fio_out gf gr i jobs st = Ok st' ->
  exists more, all_jobs st' = all_jobs st ++ more.
Proof.
  induction jobs as [| job rest IH]; intros i st st' H; simpl in H.
  - injection H as <-. exists []. now rewrite app_nil_r.
  - apply bind_ok in H as (st1 & Hstep & H).
    apply IH in H as [more H]. apply job_step_result in Hstep.
    destruct Hstep as [Ha _ _ | r Ha _ _]; rewrite Ha in H.
    + now exists more.
    + exists (r :: more). now rewrite H, <- app_assoc.
Qed.

(** After a non-empty run of jobs that were all skipped, the previous end
    time is 0. *)
Lemma run_skipped_resets fio_out gf gr jobs : forall i st st',
  jobs <> [] ->
  run_jobs fio_out gf gr i jobs st = Ok st' ->
  all_jobs st' = all_jobs st ->
  prev_endtime_s st' = 0.
Proof.
  induction jobs as [| job rest IH]; intros i st st' Hne H Hall; [congruence |].
  simpl in H. apply bind_ok in H as (st1 & Hstep & H).
  apply job_step_result in Hstep.
  pose proof (run_jobs_grows _ _ _ _ _ _ _ H) as [more Hmore].
  destruct Hstep as [Ha Hp _ | r Ha _ _].
  - destruct rest as [| job' rest].
    + simpl in H. injection H as <-. exact Hp.
    + eapply IH; [discriminate | exact H | congruence].
  - exfalso. rewrite Ha, <- app_assoc, Hall in Hmore.
    rewrite <- (app_nil_r (all_jobs st)) in Hmore at 1.
    apply app_inv_head in Hmore. discriminate Hmore.
Qed.

(** C5, as stated, fails in its last part: an emitted job whose end time is
    not positive does not pass that end time on.  Here the first job is
    emitted with end time 0 and the second starts at the report's
    timestamp, second 2, not at the end of the first. *)
Lemma nonpositive_end_not_chained :
  exists r1 r2,
    _extract_metrics negative_runtime_report = Ok [r1; r2]
    /\ m_end_time r1 = 0
    /\ m_start_time r2 = PInt 2
    /\ m_start_time r2 <> PInt (m_end_time r1).
Proof.
  do 2 eexists. split; [reflexivity |]. repeat split. discriminate.
Qed.

(** C5, amended: an iteration that skips its job leaves the previous end
    time at 0, and so does any non-empty run of skipped jobs; an iteration
    that emits a record leaves it at the record's end time.  The job that
    follows takes its start from the report's [timestamp_ms], floored to
    seconds, when the previous end time is not positive, which is the case
    after a skipped job; when it is positive, as after an emitted job with
    a positive end time, the job starts at the previous end time times 1000
    milliseconds, that is at that end time. *)
Theorem timeline_anchor fio_out gf gr st i job st' :
  job_step fio_out gf gr st i job = Ok st' ->
  ((all_jobs st' = all_jobs st /\ prev_endtime_s st' = 0
    /\ start_time_ms_of fio_out (prev_endtime_s st')
       = py_getitem fio_out TIMESTAMP_MS)
   \/ (exists r,
         all_jobs st' = all_jobs st ++ [r]
         /\ prev_endtime_s st' = m_end_time r
         /\ (0 < m_end_time r ->
             start_time_ms_of fio_out (prev_endtime_s st')
             = Ok (JInt (m_end_time r * 1000)))
         /\ (m_end_time r <= 0 ->
             start_time_ms_of fio_out (prev_endtime_s st')
             = py_getitem fio_out TIMESTAMP_MS)))
  /\ (forall i' jobs st'',
        jobs <> [] ->
        run_jobs fio_out gf gr i' jobs st' = Ok st'' ->
        all_jobs st'' = all_jobs st' ->
        prev_endtime_s st'' = 0)
  /\ (forall i' job' st'' r',
        job_step fio_out gf gr st' i' job' = Ok st'' ->
        all_jobs st'' = all_jobs st' ++ [r'] ->
        (0 < prev_endtime_s st' ->
         m_start_time r' = PInt (prev_endtime_s st'))
        /\ (prev_endtime_s st' <= 0 ->
            exists ts t,
              py_getitem fio_out TIMESTAMP_MS = Ok ts
              /\ as_num ts = Ok t
              /\ py_floordiv t (PInt 1000) = Ok (m_start_time r')
              /\ forall z, ts = JInt z -> m_start_time r' = PInt (z / 1000))).
Proof.
  intros Hstep. split; [| split].
  - apply job_step_result in Hstep.
    destruct Hstep as [Ha Hp _ | r Ha Hp _].
    + left. rewrite Hp. repeat split; assumption.
    + right. exists r. rewrite Hp. unfold start_time_ms_of. repeat split.
      * exact Ha.
      * intros H. apply Z.gtb_lt in H. now rewrite H.
      * intros H. destruct (m_end_time r >? 0) eqn:E; [| reflexivity].
        apply Z.gtb_lt in E. lia.
  - intros i' jobs st''. apply run_skipped_resets.
  - intros i' job' st'' r' Hstep' Hall.
    destruct (emitted_start _ _ _ _ _ _ _ _ Hstep' Hall)
      as (v & start_ms & t & _ & _ & _ & Hstart & Ht & Hdiv).
    unfold start_time_ms_of in Hstart. split.
    + intros Hpos. apply Z.gtb_lt in Hpos. rewrite Hpos in Hstart.
      injection Hstart as <-. injection Ht as <-. simpl in Hdiv.
      injection Hdiv as <-. now rewrite Z.div_mul.
    + intros Hneg. destruct (prev_endtime_s st' >? 0) eqn:E.
      * apply Z.gtb_lt in E. lia.
      * exists start_ms, t. repeat split; try assumption.
        intros z ->. injection Ht as <-. simpl in Hdiv. now injection Hdiv as <-.
Qed.

Lemma timeline_anchor_witness :
  job_step partial_report (JStr "50M") (PInt 10000) initial_state 0 zero_job
  = Ok after_zero_job
  /\ prev_endtime_s after_zero_job = 0
  /\ m_start_time (good_record (JStr "2_thread")) = PInt (1653027155355 / 1000).
Proof.
  assert (Hstep : job_step partial_report (JStr "50M") (PInt 10000)
                    initial_state 0 zero_job = Ok after_zero_job)
    by reflexivity.
  destruct (timeline_anchor _ _ _ _ _ _ _ Hstep) as (_ & _ & Hnext).
  destruct (Hnext 1%nat (JObj (good_job (JStr "2_thread"))) after_second_job
              (good_record (JStr "2_thread")) eq_refl eq_refl) as [_ Hanchor].
  destruct Hanchor as (ts & t & Hts & _ & _ & Hz); [simpl; lia |].
  split; [exact Hstep | split; [reflexivity |]].
  apply Hz. vm_compute in Hts. now injection Hts as <-.
Defined.

(** ** Rounding to binary64

    What [binary_round_aux] and [binary_round] of the standard library
    compute on positive inputs in the normal range, in terms of integer
    division: the facts the properties of the conversion and of the time
    window rest on. *)

Lemma digits2_size (p : positive) : digits2_pos p = Pos.size p.
Proof. induction p as [p IH | p IH |]; simpl; now rewrite ?IH. Qed.

Lemma Zdigits2_log2 (m : Z) : 0 < m -> Zdigits2 m = Z.log2 m + 1.
Proof.
  destruct m as [| p | p]; try lia. intros _. simpl.
  destruct p as [p | p |]; simpl; rewrite ?digits2_size; lia.
Qed.

Lemma Zdigits2_bounds (m : Z) :
  0 < m -> 2 ^ (Zdigits2 m - 1) <= m < 2 ^ Zdigits2 m.
Proof.
  intros H. rewrite (Zdigits2_log2 m H).
  replace (Z.log2 m + 1 - 1) with (Z.log2 m) by lia.
  apply Z.log2_spec, H.
Qed.

Lemma Zdigits2_unique (m k : Z) :
  2 ^ (k - 1) <= m < 2 ^ k -> 0 < k -> Zdigits2 m = k.
Proof.
  intros H Hk. assert (0 < m) by (pose proof (Z.pow_pos_nonneg 2 (k - 1)); lia).
  rewrite (Zdigits2_log2 m) by assumption.
  rewrite (Z.log2_unique m (k - 1)); try lia.
  replace (Z.succ (k - 1)) with k by lia. exact H.
Qed.

Lemma represents_of_loc (N D : Z) :
  represents N D (shr_record_of_loc (N / D) (loc_of N D)).
Proof.
  split.
  - destruct (loc_of N D) as [| []]; reflexivity.
  - destruct (loc_of N D) as [| []]; reflexivity.
Qed.

Lemma shr_1_nonneg (m : Z) (r s : bool) :
  0 <= m ->
  shr_1 (Build_shr_record m r s) = Build_shr_record (m / 2) (Z.odd m) (r || s).
Proof.
  intros H. destruct m as [| [p | p |] | p]; try lia; simpl shr_1.
  - reflexivity.
  - f_equal. rewrite Pos2Z.inj_xI. apply (Z.div_unique _ _ _ 1); lia.
  - f_equal. rewrite Pos2Z.inj_xO. apply (Z.div_unique _ _ _ 0); lia.
  - reflexivity.
Qed.

Lemma loc_of_exact (N D : Z) : loc_of N D = loc_Exact <-> N mod D = 0.
Proof.
  unfold loc_of. destruct (N mod D =? 0) eqn:E.
  - apply Z.eqb_eq in E. tauto.
  - apply Z.eqb_neq in E. split; [discriminate | tauto].
Qed.

Lemma shr_1_represents (N D : Z) (mrs : shr_record) :
  0 <= N -> 0 < D -> represents N D mrs -> represents N (2 * D) (shr_1 mrs).
Proof.
  intros HN HD [Hm Hl]. destruct mrs as [m r s]. simpl in Hm, Hl.
  assert (Hq : N / (2 * D) = m / 2).
  { rewrite Hm, Z.mul_comm, <- Z.div_div by lia. reflexivity. }
  assert (Hr : N mod (2 * D) = (m mod 2) * D + N mod D).
  { rewrite Z.mul_comm, Z.rem_mul_r by lia. rewrite <- Hm. lia. }
  assert (Hm0 : 0 <= m) by (rewrite Hm; apply Z.div_pos; lia).
  pose proof (Z.mod_pos_bound N D HD) as Hb.
  assert (Hrs : (r || s)%bool = false <-> N mod D = 0).
  { rewrite <- loc_of_exact, <- Hl. destruct r, s; simpl; split; congruence. }
  rewrite shr_1_nonneg by assumption.
  split; [cbn [shr_m]; symmetry; exact Hq |].
  unfold loc_of. rewrite Hr. rewrite Zmod_odd.
  cbn [loc_of_shr_record].
  destruct (Z.odd m), (r || s)%bool eqn:Ers.
  - assert (N mod D <> 0) by (intros H0; apply Hrs in H0; discriminate).
    replace (1 * D + N mod D =? 0) with false by (symmetry; apply Z.eqb_neq; lia).
    replace (2 * (1 * D + N mod D) ?= 2 * D) with Gt
      by (symmetry; apply Z.compare_gt_iff; lia).
    reflexivity.
  - assert (N mod D = 0) by (now apply Hrs).
    replace (1 * D + N mod D =? 0) with false by (symmetry; apply Z.eqb_neq; lia).
    replace (2 * (1 * D + N mod D) ?= 2 * D) with Eq
      by (symmetry; apply Z.compare_eq_iff; lia).
    reflexivity.
  - assert (N mod D <> 0) by (intros H0; apply Hrs in H0; discriminate).
    replace (0 * D + N mod D =? 0) with false by (symmetry; apply Z.eqb_neq; lia).
    replace (2 * (0 * D + N mod D) ?= 2 * D) with Lt
      by (symmetry; apply Z.compare_lt_iff; lia).
    reflexivity.
  - assert (N mod D = 0) by (now apply Hrs).
    replace (0 * D + N mod D =? 0) with true by (symmetry; apply Z.eqb_eq; lia).
    reflexivity.
Qed.

Lemma iter_shr_represents (p : positive) : forall (N D : Z) (mrs : shr_record),
  0 <= N -> 0 < D -> represents N D mrs ->
  represents N (D * 2 ^ Z.pos p) (iter_pos shr_1 p mrs).
Proof.
  induction p as [p IH | p IH |]; intros N D mrs HN HD H; simpl iter_pos.
  - apply (shr_1_represents N D mrs HN HD) in H.
    apply IH in H; [| lia | lia]. apply IH in H; [| lia |].
    + replace (D * 2 ^ Z.pos p~1) with (2 * D * 2 ^ Z.pos p * 2 ^ Z.pos p); [exact H |].
      replace (Z.pos p~1) with (Z.pos p + Z.pos p + 1) by lia.
      rewrite !Z.pow_add_r by lia. change (2 ^ 1) with 2. ring.
    + pose proof (Z.pow_pos_nonneg 2 (Z.pos p)). lia.
  - apply IH in H; [| lia | lia]. apply IH in H; [| lia |].
    + replace (D * 2 ^ Z.pos p~0) with (D * 2 ^ Z.pos p * 2 ^ Z.pos p); [exact H |].
      replace (Z.pos p~0) with (Z.pos p + Z.pos p) by lia.
      rewrite !Z.pow_add_r by lia. ring.
    + pose proof (Z.pow_pos_nonneg 2 (Z.pos p)). lia.
  - apply (shr_1_represents N D mrs HN HD) in H.
    change (2 ^ 1) with 2. now rewrite Z.mul_comm.
Qed.

Lemma rne_represents (N D : Z) (mrs : shr_record) :
  represents N D mrs ->
  round_nearest_even (shr_m mrs) (loc_of_shr_record mrs) = rne N D.
Proof. intros [-> ->]. reflexivity. Qed.

Lemma rne_bounds (N D : Z) : N / D <= rne N D <= N / D + 1.
Proof.
  unfold rne, round_nearest_even.
  destruct (loc_of N D) as [| []]; try destruct (Z.even (N / D)); lia.
Qed.

Lemma rne_exact (N D : Z) : N mod D = 0 -> rne N D = N / D.
Proof.
  intros H. unfold rne. apply loc_of_exact in H. now rewrite H.
Qed.

Lemma rne_mono (N1 N2 D : Z) : 0 < D -> N1 <= N2 -> rne N1 D <= rne N2 D.
Proof.
  intros HD H.
  pose proof (Z.div_le_mono N1 N2 D HD H) as Hq.
  pose proof (rne_bounds N1 D) as B1. pose proof (rne_bounds N2 D) as B2.
  destruct (Z.eq_dec (N1 / D) (N2 / D)) as [E | E]; [| lia].
  pose proof (Z.div_mod N1 D ltac:(lia)) as E1.
  pose proof (Z.div_mod N2 D ltac:(lia)) as E2.
  pose proof (Z.mod_pos_bound N1 D HD) as M1.
  pose proof (Z.mod_pos_bound N2 D HD) as M2.
  unfold rne, loc_of, round_nearest_even in *. rewrite E in *.
  destruct (N1 mod D =? 0) eqn:Z1; [apply Z.eqb_eq in Z1 | apply Z.eqb_neq in Z1];
    (destruct (N2 mod D =? 0) eqn:Z2; [apply Z.eqb_eq in Z2 | apply Z.eqb_neq in Z2]);
    destruct (Z.compare_spec (2 * (N1 mod D)) D);
    destruct (Z.compare_spec (2 * (N2 mod D)) D);
    destruct (Z.even (N2 / D)); lia.
Qed.

Lemma rne_scale (N D k : Z) : 0 < D -> 0 < k -> rne (N * k) (D * k) = rne N D.
Proof.
  intros HD Hk. unfold rne, loc_of.
  rewrite Z.div_mul_cancel_r by lia.
  rewrite Z.mul_mod_distr_r by lia.
  replace (N mod D * k =? 0) with (N mod D =? 0).
  2:{ destruct (N mod D =? 0) eqn:E; symmetry;
        [apply Z.eqb_eq in E; apply Z.eqb_eq; nia
        | apply Z.eqb_neq in E; apply Z.eqb_neq; nia]. }
  replace (2 * (N mod D * k) ?= D * k) with (2 * (N mod D) ?= D); [reflexivity |].
  destruct (Z.compare_spec (2 * (N mod D)) D) as [E | E | E]; symmetry;
    [apply Z.compare_eq_iff | apply Z.compare_lt_iff | apply Z.compare_gt_iff];
    nia.
Qed.

Lemma rne_ge (N D c : Z) : 0 < D -> c * D <= N -> c <= rne N D.
Proof.
  intros HD H. pose proof (rne_mono (c * D) N D HD H) as Hm.
  rewrite rne_exact in Hm by (apply Z.mod_mul; lia).
  rewrite Z.div_mul in Hm by lia. exact Hm.
Qed.

Lemma rne_le (N D c : Z) : 0 < D -> N <= c * D -> rne N D <= c.
Proof.
  intros HD H. pose proof (rne_mono N (c * D) D HD H) as Hm.
  rewrite (rne_exact (c * D)) in Hm by (apply Z.mod_mul; lia).
  rewrite Z.div_mul in Hm by lia. exact Hm.
Qed.

Lemma fexp_normal (x : Z) : -1074 <= x - 53 -> fexp prec emax x = x - 53.
Proof. unfold fexp, emin, prec, emax. lia. Qed.

Lemma pow2_split (a b : Z) : 0 <= a -> 0 <= b -> 2 ^ (a + b) = 2 ^ a * 2 ^ b.
Proof. intros. now rewrite Z.pow_add_r. Qed.

Lemma round_mantissa_bounds (N D : Z) :
  0 <= N -> 0 < D -> 53 <= Zdigits2 (N / D) ->
  2 ^ 52 <= rne N (D * 2 ^ (Zdigits2 (N / D) - 53)) <= 2 ^ 53.
Proof.
  intros HN HD Hd.
  assert (Hq : 0 < N / D).
  { pose proof (Z.div_pos N D HN HD).
    destruct (N / D) as [| p | p]; simpl in Hd; lia. }
  set (d := Zdigits2 (N / D)) in *.
  pose proof (Zdigits2_bounds (N / D) Hq) as [Hlo Hhi]. fold d in Hlo, Hhi.
  pose proof (rne_bounds N (D * 2 ^ (d - 53))) as B.
  assert (Hp : 0 < 2 ^ (d - 53)) by (apply Z.pow_pos_nonneg; lia).
  rewrite <- Z.div_div in B by lia.
  assert (Hlo' : 2 ^ 52 * 2 ^ (d - 53) <= N / D).
  { rewrite <- pow2_split by lia. now replace (52 + (d - 53)) with (d - 1) by lia. }
  assert (Hhi' : N / D < 2 ^ 53 * 2 ^ (d - 53)).
  { rewrite <- pow2_split by lia. now replace (53 + (d - 53)) with d by lia. }
  assert (2 ^ 52 <= N / D / 2 ^ (d - 53)) by (apply Z.div_le_lower_bound; lia).
  assert (N / D / 2 ^ (d - 53) < 2 ^ 53) by (apply Z.div_lt_upper_bound; lia).
  lia.
Qed.

Lemma shr_zero (mrs : shr_record) (e : Z) : shr mrs e 0 = (mrs, e).
Proof. reflexivity. Qed.

Lemma binary_round_aux_normal (N D e : Z) :
  0 <= N -> 0 < D -> 53 <= Zdigits2 (N / D) ->
  -1074 <= Zdigits2 (N / D) + e - 53 ->
  binary_round_aux prec emax false (N / D) e (loc_of N D)
  = pack (rne N (D * 2 ^ (Zdigits2 (N / D) - 53))) (Zdigits2 (N / D) + e - 53).
Proof.
  intros HN HD Hd He.
  pose proof (round_mantissa_bounds N D HN HD Hd) as Hm.
  set (d := Zdigits2 (N / D)) in *.
  unfold binary_round_aux, shr_fexp. fold d.
  rewrite (fexp_normal (d + e)) by lia.
  assert (Hfirst : exists mrs,
             shr (shr_record_of_loc (N / D) (loc_of N D)) e (d + e - 53 - e)
             = (mrs, d + e - 53)
             /\ represents N (D * 2 ^ (d - 53)) mrs).
  { replace (d + e - 53 - e) with (d - 53) by lia.
    destruct (d - 53) as [| p | p] eqn:En; try lia.
    - exists (shr_record_of_loc (N / D) (loc_of N D)). split.
      + simpl. f_equal. lia.
      + rewrite Z.mul_1_r. apply represents_of_loc.
    - eexists. split.
      + simpl. f_equal. lia.
      + apply iter_shr_represents; try assumption. apply represents_of_loc. }
  destruct Hfirst as (mrs & -> & Hrep).
  rewrite (rne_represents _ _ _ Hrep).
  set (m := rne N (D * 2 ^ (d - 53))) in *.
  set (E := d + e - 53) in *.
  unfold pack, canon. destruct (m =? 2 ^ 53) eqn:Em; cbn [fst snd].
  - apply Z.eqb_eq in Em. rewrite Em.
    change (Zdigits2 (2 ^ 53)) with 54.
    rewrite (fexp_normal (54 + E)) by lia.
    replace (54 + E - 53 - E) with 1 by lia. reflexivity.
  - apply Z.eqb_neq in Em.
    rewrite (Zdigits2_unique m 53) by (change (2 ^ (53 - 1)) with (2 ^ 52); lia).
    rewrite (fexp_normal (53 + E)) by lia.
    replace (53 + E - 53 - E) with 0 by lia.
    rewrite shr_zero. cbn [shr_m shr_record_of_loc].
    unfold fin. destruct m as [| p | p]; reflexivity.
Qed.

(** *** Exact inputs: [binary_round] *)

Lemma iter_xO (d : positive) (m : positive) :
  Z.pos (Pos.iter xO m d) = Z.pos m * 2 ^ Z.pos d.
Proof.
  induction d as [| d IH] using Pos.peano_ind.
  - simpl. lia.
  - rewrite Pos.iter_succ, Pos2Z.inj_xO, IH, Pos2Z.inj_succ, Z.pow_succ_r by lia.
    ring.
Qed.

Lemma Zdigits2_shift (m k : Z) :
  0 < m -> 0 <= k -> Zdigits2 (m * 2 ^ k) = Zdigits2 m + k.
Proof.
  intros Hm Hk. pose proof (Zdigits2_bounds m Hm) as [Hlo Hhi].
  assert (Hd : 0 < Zdigits2 m) by (destruct m; simpl; lia).
  assert (Hp : 0 < 2 ^ k) by (apply Z.pow_pos_nonneg; lia).
  apply Zdigits2_unique; [| lia]. split.
  - replace (Zdigits2 m + k - 1) with (Zdigits2 m - 1 + k) by lia.
    rewrite pow2_split by lia. nia.
  - rewrite pow2_split by lia. nia.
Qed.

Lemma loc_of_one (N : Z) : loc_of N 1 = loc_Exact.
Proof. apply loc_of_exact, Z.mod_1_r. Qed.

Lemma binary_round_aux_exact (M e : Z) :
  0 < M -> 53 <= Zdigits2 M -> -1074 <= Zdigits2 M + e - 53 ->
  binary_round_aux prec emax false M e loc_Exact = rounded M e.
Proof.
  intros HM Hd He.
  pose proof (binary_round_aux_normal M 1 e ltac:(lia) ltac:(lia)) as H.
  rewrite Z.div_1_r, loc_of_one, Z.mul_1_l in H. now apply H.
Qed.

Lemma binary_round_exact (m : positive) (e : Z) :
  -1074 <= Z.pos (digits2_pos m) + e - 53 ->
  binary_round prec emax false m e = rounded (fst (aligned m e)) (snd (aligned m e))
  /\ 53 <= Zdigits2 (fst (aligned m e))
  /\ 0 < fst (aligned m e).
Proof.
  intros He. unfold binary_round, aligned, shl_align.
  set (d := Z.pos (digits2_pos m)) in *.
  rewrite (fexp_normal (d + e)) by lia.
  destruct (d <? 53) eqn:Ed; [apply Z.ltb_lt in Ed | apply Z.ltb_ge in Ed].
  - destruct (d + e - 53 - e) as [| p | p] eqn:Ep; try lia.
    cbn [fst snd]. replace (53 - d) with (Z.pos p) by lia.
    rewrite <- (iter_xO p m).
    assert (Hdig : Zdigits2 (Z.pos (Pos.iter xO m p)) = 53).
    { rewrite iter_xO, Zdigits2_shift by lia. simpl Zdigits2. fold d. lia. }
    replace (e - Z.pos p) with (d + e - 53) by lia.
    rewrite binary_round_aux_exact by (rewrite ?Hdig; lia).
    split; [reflexivity | split; [rewrite Hdig; lia | lia]].
  - assert (Hdig : Zdigits2 (Z.pos m) = d) by reflexivity.
    destruct (d + e - 53 - e) as [| p | p] eqn:Ep; try lia;
      cbn [fst snd]; rewrite binary_round_aux_exact by (rewrite ?Hdig; lia).
    all: split; [reflexivity | split; [rewrite Hdig; lia | lia]].
Qed.

(** *** Order *)

Lemma SFleb_fin (m1 E1 m2 E2 : Z) :
  0 < m1 -> 0 < m2 -> E1 < E2 \/ (E1 = E2 /\ m1 <= m2) ->
  SFleb (fin m1 E1) (fin m2 E2) = true.
Proof.
  intros H1 H2 H. destruct m1 as [| p | p], m2 as [| q | q]; try lia.
  unfold fin, emax, prec.
  destruct (E1 <=? 1024 - 53) eqn:L1, (E2 <=? 1024 - 53) eqn:L2;
    try reflexivity.
  - unfold SFleb, SFcompare.
    destruct (Z.compare_spec E1 E2) as [E | E | E]; try reflexivity; try lia.
    change (Pos.compare_cont Eq p q) with (Pos.compare p q).
    destruct (Pos.compare_spec p q) as [C | C | C]; try reflexivity. lia.
  - apply Z.leb_gt in L1. apply Z.leb_le in L2. lia.
Qed.

Lemma canon_bounds (m E : Z) :
  2 ^ 52 <= m <= 2 ^ 53 -> 2 ^ 52 <= fst (canon m E) < 2 ^ 53.
Proof.
  intros H. unfold canon.
  destruct (m =? 2 ^ 53) eqn:A; rewrite ?Z.eqb_eq, ?Z.eqb_neq in *;
    cbn [fst]; [split; [lia | reflexivity] | lia].
Qed.

Lemma canon_le (m1 E1 m2 E2 : Z) :
  2 ^ 52 <= m1 <= 2 ^ 53 -> 2 ^ 52 <= m2 <= 2 ^ 53 ->
  E1 < E2 \/ (E1 = E2 /\ m1 <= m2) ->
  key_le (canon m1 E1) (canon m2 E2).
Proof.
  intros H1 H2 H. unfold canon, key_le.
  destruct (m1 =? 2 ^ 53) eqn:A1, (m2 =? 2 ^ 53) eqn:A2;
    rewrite ?Z.eqb_eq, ?Z.eqb_neq in *; cbn [fst snd]; lia.
Qed.

Lemma rounded_key_bounds (M e : Z) :
  0 < M -> 53 <= Zdigits2 M -> 2 ^ 52 <= fst (rounded_key M e) < 2 ^ 53.
Proof.
  intros HM Hd. apply canon_bounds.
  pose proof (round_mantissa_bounds M 1 ltac:(lia) ltac:(lia)) as B.
  rewrite Z.div_1_r, Z.mul_1_l in B. now apply B.
Qed.

Lemma rounded_key_exp (M e : Z) :
  Zdigits2 M + e - 53 <= snd (rounded_key M e).
Proof.
  unfold rounded_key, canon.
  destruct (_ =? 2 ^ 53); cbn [snd]; lia.
Qed.

Lemma rounded_key_mono (M1 e1 M2 e2 : Z) :
  0 < M1 -> 0 < M2 -> 53 <= Zdigits2 M1 -> 53 <= Zdigits2 M2 ->
  M1 * 2 ^ (e1 - Z.min e1 e2) <= M2 * 2 ^ (e2 - Z.min e1 e2) ->
  key_le (rounded_key M1 e1) (rounded_key M2 e2).
Proof.
  intros H1 H2 D1 D2 H. unfold rounded_key.
  set (e0 := Z.min e1 e2) in *.
  set (d1 := Zdigits2 M1) in *. set (d2 := Zdigits2 M2) in *.
  pose proof (Zdigits2_bounds M1 H1) as [L1 U1]. fold d1 in L1, U1.
  pose proof (Zdigits2_bounds M2 H2) as [L2 U2]. fold d2 in L2, U2.
  assert (K1 : 0 < 2 ^ (e1 - e0)) by (apply Z.pow_pos_nonneg; lia).
  assert (K2 : 0 < 2 ^ (e2 - e0)) by (apply Z.pow_pos_nonneg; lia).
  assert (HE : d1 + e1 - 53 <= d2 + e2 - 53).
  { assert (Hlt : 2 ^ (d1 - 1 + (e1 - e0)) < 2 ^ (d2 + (e2 - e0))).
    { rewrite !pow2_split by lia. nia. }
    apply Z.pow_lt_mono_r_iff in Hlt; lia. }
  apply canon_le.
  - pose proof (round_mantissa_bounds M1 1 ltac:(lia) ltac:(lia)) as B.
    rewrite Z.div_1_r, Z.mul_1_l in B. now apply B.
  - pose proof (round_mantissa_bounds M2 1 ltac:(lia) ltac:(lia)) as B.
    rewrite Z.div_1_r, Z.mul_1_l in B. now apply B.
  - destruct (Z.eq_dec (d1 + e1 - 53) (d2 + e2 - 53)) as [E | E]; [right | left; lia].
    split; [exact E |].
    assert (P1 : 0 < 2 ^ (d1 - 53)) by (apply Z.pow_pos_nonneg; lia).
    assert (P2 : 0 < 2 ^ (d2 - 53)) by (apply Z.pow_pos_nonneg; lia).
    rewrite <- (rne_scale M1 (2 ^ (d1 - 53)) (2 ^ (e1 - e0))) by assumption.
    rewrite <- (rne_scale M2 (2 ^ (d2 - 53)) (2 ^ (e2 - e0))) by assumption.
    rewrite <- !pow2_split by lia.
    replace (d2 - 53 + (e2 - e0)) with (d1 - 53 + (e1 - e0)) by lia.
    apply rne_mono; [apply Z.pow_pos_nonneg; lia | exact H].
Qed.

Lemma SFleb_keys (k1 k2 : Z * Z) :
  0 < fst k1 -> 0 < fst k2 -> key_le k1 k2 ->
  SFleb (fin (fst k1) (snd k1)) (fin (fst k2) (snd k2)) = true.
Proof. intros H1 H2 H. apply SFleb_fin; assumption. Qed.

(** ** Monotonicity of the conversion *)

Lemma digit_val_bounds (c : ascii) : is_digit c = true -> 0 <= digit_val c <= 9.
Proof.
  unfold is_digit, digit_val. intros H. apply andb_prop in H as [H1 H2].
  apply Nat.leb_le in H1, H2. lia.
Qed.

Lemma decimal_mono (s : string) : forall a b,
  a <= b -> decimal a s <= decimal b s.
Proof.
  induction s as [| c s IH]; intros a b H; cbn [decimal]; [exact H |].
  apply IH. lia.
Qed.

Lemma decimal_nonneg (s : string) : forall acc,
  all_chars is_digit s = true -> 0 <= acc -> 0 <= decimal acc s.
Proof.
  induction s as [| c s IH]; intros acc H Hacc; cbn [decimal all_chars] in *;
    [exact Hacc |].
  apply andb_prop in H as [Hc Hs]. apply IH; [exact Hs |].
  pose proof (digit_val_bounds c Hc). lia.
Qed.

Lemma aligned_value (p : positive) (e : Z) :
  snd (aligned p e) <= e
  /\ fst (aligned p e) = Z.pos p * 2 ^ (e - snd (aligned p e)).
Proof.
  unfold aligned. destruct (_ <? 53) eqn:E; cbn [fst snd].
  - apply Z.ltb_lt in E. split; [lia |]. f_equal. f_equal. lia.
  - split; [lia |]. rewrite Z.sub_diag. simpl. lia.
Qed.

Lemma aligned_digits (p : positive) (e : Z) :
  Zdigits2 (fst (aligned p e)) + snd (aligned p e) = Z.pos (digits2_pos p) + e.
Proof.
  unfold aligned. destruct (_ <? 53) eqn:E; cbn [fst snd].
  - apply Z.ltb_lt in E. rewrite Zdigits2_shift by lia. cbn [Zdigits2]. lia.
  - reflexivity.
Qed.

Lemma fin_finite (a b : Z) :
  0 < a -> is_inf (fin a b) = false ->
  fin a b = S754_finite false (Z.to_pos a) b /\ b <= 971.
Proof.
  intros Ha. unfold fin, emax, prec. destruct a as [| p | p]; try lia.
  destruct (b <=? 1024 - 53) eqn:E; [| discriminate].
  apply Z.leb_le in E. intros _. split; [reflexivity | lia].
Qed.

Lemma float_of_int_pos (p : positive) (x : spec_float) :
  float_of_int (Z.pos p) = Ok x ->
  x = S754_finite false (Z.to_pos (fst (int_key p))) (snd (int_key p))
  /\ 2 ^ 52 <= fst (int_key p) < 2 ^ 53
  /\ -52 <= snd (int_key p).
Proof.
  unfold float_of_int. cbn [binary_normalize].
  destruct (binary_round_exact p 0) as (Hround & Hdig & Hpos);
    [pose proof (Pos2Z.is_pos (digits2_pos p)); lia |].
  rewrite Hround. unfold rounded. fold (int_key p).
  pose proof (rounded_key_bounds _ (snd (aligned p 0)) Hpos Hdig) as Hb.
  fold (int_key p) in Hb.
  destruct (is_inf _) eqn:Einf; [discriminate |]. intros [= <-].
  apply fin_finite in Einf as [Hfin _]; [| lia].
  split; [exact Hfin | split; [exact Hb |]].
  pose proof (rounded_key_exp (fst (aligned p 0)) (snd (aligned p 0))) as He.
  fold (int_key p) in He.
  pose proof (aligned_digits p 0). pose proof (Pos2Z.is_pos (digits2_pos p)).
  lia.
Qed.

Lemma mul_milli (a : positive) (b : Z) :
  2 ^ 52 <= Z.pos a < 2 ^ 53 -> -52 <= b ->
  SFmul prec emax (S754_finite false a b) milli
  = rounded (Z.pos a * milli_m) (b + milli_e)
  /\ 53 <= Zdigits2 (Z.pos a * milli_m).
Proof.
  intros Ha Hb.
  assert (Hdig : 105 <= Zdigits2 (Z.pos a * milli_m)).
  { pose proof (Zdigits2_bounds (Z.pos a * milli_m)) as [_ Hu];
      [unfold milli_m; lia |].
    destruct (Z_lt_le_dec (Zdigits2 (Z.pos a * milli_m)) 105) as [Hlt | Hge];
      [| exact Hge].
    assert (2 ^ Zdigits2 (Z.pos a * milli_m) <= 2 ^ 104)
      by (apply Z.pow_le_mono_r; lia).
    assert (2 ^ 104 <= Z.pos a * milli_m).
    { change (2 ^ 104) with (2 ^ 52 * 2 ^ 52). unfold milli_m.
      change (2 ^ 52) with 4503599627370496 in *. nia. }
    lia. }
  split; [| lia].
  unfold milli. cbn [SFmul xorb].
  change (Z.pos (a * 4611686018427388)) with (Z.pos a * milli_m).
  change (b + -62) with (b + milli_e).
  apply binary_round_aux_exact; unfold milli_m, milli_e in *; lia.
Qed.

Lemma keys_value_le (a1 b1 a2 b2 : Z) :
  2 ^ 52 <= a1 < 2 ^ 53 -> 2 ^ 52 <= a2 < 2 ^ 53 ->
  key_le (a1, b1) (a2, b2) ->
  a1 * 2 ^ (b1 - Z.min b1 b2) <= a2 * 2 ^ (b2 - Z.min b1 b2).
Proof.
  intros H1 H2 [Hlt | [Heq Hle]]; cbn [fst snd] in *.
  - rewrite Z.min_l by lia. rewrite Z.sub_diag. simpl (2 ^ 0).
    assert (2 ^ 1 <= 2 ^ (b2 - b1)) by (apply Z.pow_le_mono_r; lia).
    change (2 ^ 1) with 2 in *. change (2 ^ 53) with (2 * 2 ^ 52) in *. nia.
  - subst b2. rewrite Z.min_id, Z.sub_diag. simpl (2 ^ 0). lia.
Qed.

Lemma int_key_mono (p q : positive) :
  (p <= q)%positive -> key_le (int_key p) (int_key q).
Proof.
  intros H. unfold int_key.
  destruct (binary_round_exact p 0) as (_ & Dp & Pp);
    [pose proof (Pos2Z.is_pos (digits2_pos p)); lia |].
  destruct (binary_round_exact q 0) as (_ & Dq & Pq);
    [pose proof (Pos2Z.is_pos (digits2_pos q)); lia |].
  apply rounded_key_mono; try assumption.
  destruct (aligned_value p 0) as [Lp Vp]. destruct (aligned_value q 0) as [Lq Vq].
  rewrite Vp, Vq, <- !Z.mul_assoc, <- !pow2_split by lia.
  replace (0 - snd (aligned p 0) + (snd (aligned p 0) - Z.min (snd (aligned p 0)) (snd (aligned q 0))))
    with (- Z.min (snd (aligned p 0)) (snd (aligned q 0))) by lia.
  replace (0 - snd (aligned q 0) + (snd (aligned q 0) - Z.min (snd (aligned p 0)) (snd (aligned q 0))))
    with (- Z.min (snd (aligned p 0)) (snd (aligned q 0))) by lia.
  apply Z.mul_le_mono_nonneg_r; [apply Z.pow_nonneg; lia | lia].
Qed.

(** [float(n) * 0.001] grows with [n]. *)
Lemma mul_milli_mono (n1 n2 : Z) (x1 x2 : spec_float) :
  0 <= n1 <= n2 ->
  float_of_int n1 = Ok x1 -> float_of_int n2 = Ok x2 ->
  SFleb (SFmul prec emax x1 milli) (SFmul prec emax x2 milli) = true.
Proof.
  intros Hn H1 H2.
  destruct n2 as [| q | q]; [| | lia].
  { assert (n1 = 0) by lia. subst n1. rewrite H1 in H2. injection H2 as <-.
    injection H1 as <-. reflexivity. }
  apply float_of_int_pos in H2 as (-> & B2 & E2).
  destruct (mul_milli (Z.to_pos (fst (int_key q))) (snd (int_key q)))
    as [-> D2]; [rewrite Z2Pos.id by lia; exact B2 | exact E2 |].
  rewrite Z2Pos.id in * by lia.
  assert (P2 : 0 < fst (int_key q) * milli_m) by (unfold milli_m; lia).
  pose proof (rounded_key_bounds _ (snd (int_key q) + milli_e) P2 D2) as K2.
  destruct n1 as [| p | p]; [| | lia].
  { injection H1 as <-. cbn [SFmul milli xorb]. unfold rounded, fin.
    destruct (fst (rounded_key _ _)) as [| m | m]; try lia.
    destruct (_ <=? _); reflexivity. }
  apply float_of_int_pos in H1 as (-> & B1 & E1).
  destruct (mul_milli (Z.to_pos (fst (int_key p))) (snd (int_key p)))
    as [-> D1]; [rewrite Z2Pos.id by lia; exact B1 | exact E1 |].
  rewrite Z2Pos.id in * by lia.
  assert (P1 : 0 < fst (int_key p) * milli_m) by (unfold milli_m; lia).
  pose proof (rounded_key_bounds _ (snd (int_key p) + milli_e) P1 D1) as K1.
  unfold rounded. apply SFleb_keys; [lia | lia |].
  apply rounded_key_mono; try assumption.
  pose proof (int_key_mono p q ltac:(lia)) as Hk.
  pose proof (keys_value_le (fst (int_key p)) (snd (int_key p))
                (fst (int_key q)) (snd (int_key q)) B1 B2) as Hv.
  rewrite <- !surjective_pairing in Hv. specialize (Hv Hk).
  replace (Z.min (snd (int_key p) + milli_e) (snd (int_key q) + milli_e))
    with (Z.min (snd (int_key p)) (snd (int_key q)) + milli_e) by lia.
  replace (snd (int_key p) + milli_e - (Z.min (snd (int_key p)) (snd (int_key q)) + milli_e))
    with (snd (int_key p) - Z.min (snd (int_key p)) (snd (int_key q))) by lia.
  replace (snd (int_key q) + milli_e - (Z.min (snd (int_key p)) (snd (int_key q)) + milli_e))
    with (snd (int_key q) - Z.min (snd (int_key p)) (snd (int_key q))) by lia.
  unfold milli_m. nia.
Qed.

Lemma filesize_table (k : string) (m : pynum) :
  lookup k FILESIZE_CONVERSION = Some m ->
  m = PFloat milli \/ exists y, 0 < y /\ m = PInt y.
Proof.
  unfold FILESIZE_CONVERSION. cbn [lookup].
  repeat match goal with
    | |- (if ?b then _ else _) = _ -> _ =>
        destruct b; [intros [= <-]; first [now left | right; eexists; split; [| reflexivity]; reflexivity] |]
    end.
  discriminate.
Qed.

(** C9: for a fixed unit of the size table, the conversion is monotonic in
    the number: when ["<n1><unit>"] and ["<n2><unit>"] both convert and
    [n1 <= n2], the first result is at most the second, in Python's order on
    numbers.  For the unit [b] the results are the floats
    [float(n) * 0.001], which grow with [n] through both roundings. *)
Theorem convert_monotone (n1 n2 unit : string) (r1 r2 : pynum) :
  n1 <> "" -> n2 <> "" -> unit <> "" ->
  all_chars is_digit n1 = true -> all_chars is_digit n2 = true ->
  all_chars is_alpha unit = true ->
  decimal 0 n1 <= decimal 0 n2 ->
  _convert_value (JStr (n1 ++ unit)%string) FILESIZE_CONVERSION = Ok r1 ->
  _convert_value (JStr (n2 ++ unit)%string) FILESIZE_CONVERSION = Ok r2 ->
  py_leb r1 r2 = true.
Proof.
  intros E1 E2 Eu D1 D2 A Hle H1 H2.
  unfold _convert_value, convert_str in H1, H2.
  rewrite findall_num_unit in H1, H2 by assumption.
  destruct (lookup (lower unit) FILESIZE_CONVERSION) as [m |] eqn:El;
    [| discriminate H1].
  apply bind_ok in H1 as (k1 & Hk1 & H1). apply bind_ok in H2 as (k2 & Hk2 & H2).
  apply int_of_run_ok in Hk1 as (_ & _ & _ & ->).
  apply int_of_run_ok in Hk2 as (_ & _ & _ & ->).
  pose proof (decimal_nonneg n1 0 D1 ltac:(lia)) as Hpos.
  destruct (filesize_table _ _ El) as [-> | (y & Hy & ->)].
  - cbn [py_mul to_float] in H1, H2.
    apply bind_ok in H1 as (x1 & Hx1 & H1). apply bind_ok in H2 as (x2 & Hx2 & H2).
    cbn [bind] in H1, H2. injection H1 as <-. injection H2 as <-.
    cbn [py_leb]. eapply mul_milli_mono; [| exact Hx1 | exact Hx2]. lia.
  - cbn [py_mul] in H1, H2. injection H1 as <-. injection H2 as <-.
    cbn [py_leb]. apply Z.leb_le. nia.
Qed.

Lemma convert_monotone_witness :
  py_leb (PFloat float_1_5) (PFloat (S754_finite false 4503599627370496 (-51)))
  = true
  /\ py_leb (PInt 50000) (PInt 51000) = true.
Proof.
  split.
  - apply (convert_monotone "1500" "2000" "b"); try discriminate; reflexivity.
  - apply (convert_monotone "50" "51" "M"); try discriminate; reflexivity.
Defined.

(** ** Lower bounds through rounding *)

Lemma sle_intro (A B u v : Z) :
  0 <= u -> 0 <= v -> A * 2 ^ v <= B * 2 ^ u -> sle A B (u - v).
Proof.
  intros Hu Hv H. unfold sle.
  destruct (Z_le_gt_dec v u) as [L | L].
  - rewrite Z.max_l, Z.max_r by lia. rewrite Z.pow_0_r, Z.mul_1_r.
    replace u with (u - v + v) in H by lia. rewrite pow2_split in H by lia.
    assert (0 < 2 ^ v) by (apply Z.pow_pos_nonneg; lia). nia.
  - rewrite Z.max_r, Z.max_l by lia. rewrite Z.pow_0_r, Z.mul_1_r.
    replace v with (- (u - v) + u) in H by lia. rewrite pow2_split in H by lia.
    assert (0 < 2 ^ u) by (apply Z.pow_pos_nonneg; lia). nia.
Qed.

Lemma sle_shift (A B e u v : Z) :
  0 <= u -> 0 <= v -> u - v = e -> A * 2 ^ v <= B * 2 ^ u -> sle A B e.
Proof. intros Hu Hv <-. now apply sle_intro. Qed.

Lemma sle_elim (A B e u v : Z) :
  sle A B e -> 0 <= u -> 0 <= v -> u - v = e -> A * 2 ^ v <= B * 2 ^ u.
Proof.
  unfold sle. intros H Hu Hv He.
  destruct (Z_le_gt_dec 0 e) as [L | L].
  - rewrite Z.max_l, Z.max_r in H by lia. rewrite Z.pow_0_r, Z.mul_1_r in H.
    replace u with (e + v) by lia. rewrite pow2_split by lia.
    assert (0 < 2 ^ v) by (apply Z.pow_pos_nonneg; lia). nia.
  - rewrite Z.max_r, Z.max_l in H by lia. rewrite Z.pow_0_r, Z.mul_1_r in H.
    replace v with (- e + u) by lia. rewrite pow2_split by lia.
    assert (0 < 2 ^ u) by (apply Z.pow_pos_nonneg; lia). nia.
Qed.

Lemma fin_above (m E c : Z) : 0 < m -> sle c m E -> above c (fin m E).
Proof.
  intros Hm H. unfold fin. destruct m as [| p | p]; try lia.
  destruct (_ <=? _); [exact H | exact I].
Qed.

Lemma pack_above (m E c : Z) :
  2 ^ 52 <= m <= 2 ^ 53 -> sle c m E -> above c (pack m E).
Proof.
  intros Hm H. unfold pack, canon.
  destruct (m =? 2 ^ 53) eqn:A; rewrite ?Z.eqb_eq, ?Z.eqb_neq in *; cbn [fst snd].
  - apply fin_above; [reflexivity |]. subst m.
    replace (E + 1) with (Z.max 0 E + 1 - Z.max 0 (- E)) by lia.
    apply sle_intro; try lia.
    unfold sle in H. rewrite pow2_split by lia.
    change (2 ^ 53) with (2 ^ 52 * 2 ^ 1) in H. lia.
  - apply fin_above; [| exact H]. change (2 ^ 52) with 4503599627370496 in Hm. lia.
Qed.

Lemma rne_pack_above (N D d e c : Z) :
  0 < D -> 53 <= d -> 0 <= c <= 2 ^ 53 ->
  2 ^ 52 <= rne N (D * 2 ^ (d - 53)) <= 2 ^ 53 ->
  sle (c * D) N e ->
  above c (pack (rne N (D * 2 ^ (d - 53))) (d + e - 53)).
Proof.
  intros HD Hd Hc Hm H. apply pack_above; [exact Hm |].
  set (m := rne N (D * 2 ^ (d - 53))) in *.
  assert (P : 0 < 2 ^ (d - 53)) by (apply Z.pow_pos_nonneg; lia).
  destruct (Z_le_gt_dec (d + e - 53) 0) as [L | L].
  - replace (d + e - 53) with (0 - (- (d + e - 53))) by lia.
    apply sle_intro; try lia. rewrite Z.pow_0_r, Z.mul_1_r.
    apply rne_ge; [lia |].
    pose proof (sle_elim _ _ e 0 (- e) H ltac:(lia) ltac:(lia) ltac:(lia)) as H'.
    rewrite Z.pow_0_r, Z.mul_1_r in H'.
    replace (- e) with (- (d + e - 53) + (d - 53)) in H' by lia.
    rewrite pow2_split in H' by lia. lia.
  - replace (d + e - 53) with (d + e - 53 - 0) by lia.
    apply sle_intro; try lia. rewrite Z.pow_0_r, Z.mul_1_r.
    assert (2 ^ 1 <= 2 ^ (d + e - 53)) by (apply Z.pow_le_mono_r; lia).
    change (2 ^ 1) with 2 in *. change (2 ^ 53) with (2 ^ 52 * 2) in *.
    assert (0 < 2 ^ 52) by reflexivity. nia.
Qed.

Lemma binary_round_aux_above (N D e c : Z) :
  0 <= N -> 0 < D -> 53 <= Zdigits2 (N / D) ->
  -1074 <= Zdigits2 (N / D) + e - 53 ->
  0 <= c <= 2 ^ 53 -> sle (c * D) N e ->
  above c (binary_round_aux prec emax false (N / D) e (loc_of N D)).
Proof.
  intros HN HD Hd He Hc H.
  rewrite binary_round_aux_normal by assumption.
  apply rne_pack_above; try assumption.
  apply round_mantissa_bounds; assumption.
Qed.

Lemma new_location_spec (N D : Z) :
  0 < D -> new_location D (N mod D) = loc_of N D.
Proof.
  intros HD. unfold new_location, new_location_even, new_location_odd, loc_of.
  destruct (Z.even D) eqn:Ev; [reflexivity |].
  destruct (N mod D =? 0); [reflexivity |]. f_equal.
  assert (Hodd : Z.odd D = true) by (rewrite <- Z.negb_even, Ev; reflexivity).
  apply Z.odd_spec in Hodd as [k Hk].
  destruct (Z.compare_spec (2 * (N mod D) + 1) D);
    destruct (Z.compare_spec (2 * (N mod D)) D); try reflexivity; lia.
Qed.

Lemma shift_match (m s : Z) :
  0 <= s ->
  match s with
  | Z.pos _ => Z.shiftl m s
  | 0 => m
  | Z.neg _ => 0
  end = m * 2 ^ s.
Proof.
  intros Hs. destruct s as [| p | p]; try lia.
  apply Z.shiftl_mul_pow2. lia.
Qed.

(** What [SFdiv_core_binary] hands to [binary_round_aux]: the quotient of
    the dividend shifted left by [s] bits, with at least 53 digits. *)
Lemma SFdiv_core_spec (m1 e1 m2 e2 : Z) :
  0 < m1 -> 0 < m2 ->
  -1074 <= Zdigits2 m1 + e1 - (Zdigits2 m2 + e2) - 53 ->
  exists s,
    0 <= s
    /\ SFdiv_core_binary prec emax m1 e1 m2 e2
       = ((m1 * 2 ^ s) / m2, e1 - e2 - s, loc_of (m1 * 2 ^ s) m2)
    /\ 53 <= Zdigits2 ((m1 * 2 ^ s) / m2)
    /\ Zdigits2 m1 + e1 - (Zdigits2 m2 + e2)
       <= Zdigits2 ((m1 * 2 ^ s) / m2) + (e1 - e2 - s).
Proof.
  intros H1 H2 Hn. unfold SFdiv_core_binary.
  set (d1 := Zdigits2 m1) in *. set (d2 := Zdigits2 m2) in *.
  rewrite (fexp_normal (d1 + e1 - (d2 + e2))) by lia.
  set (e' := Z.min (d1 + e1 - (d2 + e2) - 53) (e1 - e2)).
  set (s := e1 - e2 - e').
  assert (Hs : 0 <= s) by (unfold s, e'; lia).
  assert (Hs' : 53 + d2 - d1 <= s) by (unfold s, e'; lia).
  exists s. split; [exact Hs |].
  pose proof (shift_match m1 s Hs) as Hm'.
  rewrite Hm'.
  assert (Hdiv : Z.div_eucl (m1 * 2 ^ s) m2
                 = ((m1 * 2 ^ s) / m2, (m1 * 2 ^ s) mod m2)).
  { unfold Z.div, Z.modulo. now destruct (Z.div_eucl (m1 * 2 ^ s) m2). }
  rewrite Hdiv, new_location_spec by lia.
  replace e' with (e1 - e2 - s) by (unfold s; lia).
  split; [reflexivity |].
  pose proof (Zdigits2_bounds m1 H1) as [L1 U1]. fold d1 in L1, U1.
  pose proof (Zdigits2_bounds m2 H2) as [L2 U2]. fold d2 in L2, U2.
  assert (Hd1 : 0 < d1) by (unfold d1; destruct m1; simpl; lia).
  assert (Hd2 : 0 < d2) by (unfold d2; destruct m2; simpl; lia).
  assert (Hq : 2 ^ (d1 - 1 + s - d2) <= m1 * 2 ^ s / m2).
  { apply Z.div_le_lower_bound; [lia |].
    assert (2 ^ (d1 - 1 + s - d2) * 2 ^ d2 = 2 ^ (d1 - 1) * 2 ^ s).
    { rewrite <- !pow2_split by lia. f_equal. lia. }
    assert (0 < 2 ^ (d1 - 1 + s - d2)) by (apply Z.pow_pos_nonneg; lia).
    assert (0 < 2 ^ s) by (apply Z.pow_pos_nonneg; lia).
    nia. }
  assert (Hdig : d1 + s - d2 <= Zdigits2 (m1 * 2 ^ s / m2)).
  { assert (Hpos : 0 < m1 * 2 ^ s / m2).
    { assert (0 < 2 ^ (d1 - 1 + s - d2)) by (apply Z.pow_pos_nonneg; lia). lia. }
    pose proof (Zdigits2_bounds _ Hpos) as [_ U].
    destruct (Z_lt_le_dec (Zdigits2 (m1 * 2 ^ s / m2)) (d1 + s - d2)) as [C | C];
      [| exact C].
    assert (2 ^ Zdigits2 (m1 * 2 ^ s / m2) <= 2 ^ (d1 - 1 + s - d2)).
    { apply Z.pow_le_mono_r; [lia |]. lia. }
    lia. }
  split; lia.
Qed.

Lemma round_above (f : spec_float) (c z : Z) :
  above c f -> py_round (PFloat f) = Ok z -> c <= z.
Proof.
  destruct f as [s | s | | [] m e]; simpl; try discriminate; try tauto.
  - intros H [= <-]. exact H.
  - intros H [= <-]. unfold sle in H. unfold round_half_even.
    destruct e as [| p | p].
    + simpl in *. lia.
    + rewrite Z.max_l, Z.max_r in H by lia. rewrite Z.pow_0_r in H. lia.
    + rewrite Z.max_r, Z.max_l in H by lia. rewrite Z.pow_0_r in H.
      change (- Z.neg p) with (Z.pos p) in H.
      rewrite Z.pow_pos_fold.
      assert (P : 0 < 2 ^ Z.pos p) by (apply Z.pow_pos_nonneg; lia).
      assert (c <= Z.pos m / 2 ^ Z.pos p) by (apply Z.div_le_lower_bound; lia).
      destruct (_ ?= _); try destruct (Z.even _); lia.
Qed.

(** [round(a / 1000)] is at least [k] when [a >= 1000 * k], as long as [k]
    is exactly representable. *)
Lemma int_truediv_above (a k : Z) (f : spec_float) :
  0 <= k <= 2 ^ 53 -> 1000 * k <= a ->
  int_truediv a 1000 = Ok f -> above k f.
Proof.
  intros Hk Ha. unfold int_truediv.
  change (1000 =? 0) with false. change (1000 <? 0) with false. cbv iota.
  destruct (a =? 0) eqn:E0; [apply Z.eqb_eq in E0 | apply Z.eqb_neq in E0].
  - intros [= <-]. simpl. lia.
  - assert (Hpos : 0 < a) by lia.
    replace (a <? 0) with false by (symmetry; apply Z.ltb_ge; lia).
    rewrite Z.abs_eq by lia. change (Z.abs 1000) with 1000. cbn [xorb].
    destruct (SFdiv_core_spec a 0 1000 0 Hpos ltac:(lia)) as (s & Hs & -> & Hd & Hn).
    { change (Zdigits2 1000) with 10.
      assert (0 < Zdigits2 a) by (destruct a; simpl; lia). lia. }
    change (Zdigits2 1000) with 10 in Hn.
    assert (0 < Zdigits2 a) by (destruct a; simpl; lia).
    destruct (is_inf _) eqn:Ei; [discriminate |]. intros [= <-].
    assert (P : 0 < 2 ^ s) by (apply Z.pow_pos_nonneg; lia).
    apply binary_round_aux_above; try lia.
    apply (sle_intro (k * 1000) (a * 2 ^ s) 0 s); try lia.
    rewrite Z.pow_0_r. nia.
Qed.

Lemma binary_round_aux_sign (m e : Z) (l : location) :
  above 0 (binary_round_aux prec emax false m e l).
Proof.
  unfold binary_round_aux.
  destruct (shr_fexp prec emax m e l) as [mrs' e'].
  destruct (shr_fexp prec emax _ e' loc_Exact) as [mrs'' e''].
  destruct (shr_m mrs'') as [| p | p]; simpl; try lia; try exact I.
  destruct (_ <=? _); simpl; [| exact I].
  unfold sle. rewrite Z.mul_0_l.
  assert (0 < 2 ^ Z.max 0 e'') by (apply Z.pow_pos_nonneg; lia). lia.
Qed.

Lemma binary_round_sign (m : positive) (e : Z) :
  above 0 (binary_round prec emax false m e).
Proof.
  unfold binary_round. destruct (shl_align _ _ _) as [mz ez].
  apply binary_round_aux_sign.
Qed.

Lemma rounded_above (M e c : Z) :
  0 < M -> 53 <= Zdigits2 M -> 0 <= c <= 2 ^ 53 -> sle c M e ->
  above c (rounded M e).
Proof.
  intros HM Hd Hc H.
  pose proof (rne_pack_above M 1 (Zdigits2 M) e c ltac:(lia) Hd Hc) as Hp.
  pose proof (round_mantissa_bounds M 1 ltac:(lia) ltac:(lia)) as B.
  rewrite Z.div_1_r in B. rewrite Z.mul_1_l, Z.mul_1_r in *.
  apply Hp; [now apply B | exact H].
Qed.

(** The exact positive value [m * 2^e], rounded by [binary_round], stays
    above every representable integer below it. *)
Lemma binary_round_above (m : positive) (e c : Z) :
  0 <= c <= 2 ^ 53 -> sle c (Z.pos m) e ->
  above c (binary_round prec emax false m e).
Proof.
  intros Hc H.
  destruct (Z.eq_dec c 0) as [-> | Hc0]; [apply binary_round_sign |].
  assert (Hn : 0 < Z.pos (digits2_pos m) + e).
  { pose proof (Zdigits2_bounds (Z.pos m) ltac:(lia)) as [_ U]. cbn [Zdigits2] in U.
    unfold sle in H.
    assert (1 * 2 ^ Z.max 0 (- e) <= c * 2 ^ Z.max 0 (- e))
      by (apply Z.mul_le_mono_nonneg_r; [apply Z.pow_nonneg |]; lia).
    assert (P : 0 < 2 ^ Z.max 0 e) by (apply Z.pow_pos_nonneg; lia).
    assert (Hlt : 2 ^ Z.max 0 (- e) < 2 ^ (Z.pos (digits2_pos m) + Z.max 0 e)).
    { rewrite pow2_split by lia. nia. }
    apply Z.pow_lt_mono_r_iff in Hlt; lia. }
  destruct (binary_round_exact m e ltac:(lia)) as (-> & Hd & Hp).
  apply rounded_above; try assumption.
  destruct (aligned_value m e) as [Hle Hv]. rewrite Hv.
  set (e' := snd (aligned m e)) in *. clearbody e'.
  pose proof (sle_elim _ _ e _ _ H (Z.le_max_l 0 e) (Z.le_max_l 0 (- e)) ltac:(lia)) as H'.
  apply (sle_shift _ _ _ (Z.max 0 e) (Z.max 0 (- e) + (e - e'))); try lia.
  rewrite pow2_split by lia.
  assert (0 < 2 ^ (e - e')) by (apply Z.pow_pos_nonneg; lia). nia.
Qed.

Lemma float_of_int_above (z c : Z) (x : spec_float) :
  0 <= c <= 2 ^ 53 -> c <= z -> float_of_int z = Ok x -> above c x.
Proof.
  intros Hc Hz. unfold float_of_int.
  destruct (is_inf _); [discriminate |]. intros [= <-].
  destruct z as [| p | p]; cbn [binary_normalize]; try lia.
  - simpl. lia.
  - apply binary_round_above; [exact Hc |].
    pose proof (sle_intro c (Z.pos p) 0 0 ltac:(lia) ltac:(lia)) as H.
    apply H. rewrite Z.pow_0_r. lia.
Qed.

Lemma shl_align_fst (m : positive) (e ez : Z) :
  ez <= e -> Z.pos (fst (shl_align m e ez)) = Z.pos m * 2 ^ (e - ez).
Proof.
  intros H. unfold shl_align.
  destruct (ez - e) as [| p | p] eqn:E; try lia; cbn [fst].
  - replace (e - ez) with 0 by lia. rewrite Z.pow_0_r. lia.
  - rewrite iter_xO. f_equal. f_equal. lia.
Qed.

Lemma above_weaken (c c' : Z) (f : spec_float) :
  c' <= c -> above c f -> above c' f.
Proof.
  intros Hc. destruct f as [s | [] | | [] m e]; simpl; try tauto; try lia.
  unfold sle. intros H.
  assert (0 <= 2 ^ Z.max 0 (- e)) by (apply Z.pow_nonneg; lia). nia.
Qed.

(** Adding a float that is not negative keeps a float above [c]. *)
Lemma SFadd_above (x f : spec_float) (c : Z) :
  0 <= c <= 2 ^ 53 -> above c x -> above 0 f ->
  above c (SFadd prec emax x f).
Proof.
  intros Hc Hx Hf.
  destruct x as [sx | [] | | [] mx ex]; simpl in Hx; try tauto;
    destruct f as [sf | [] | | [] mf ef]; simpl in Hf; try tauto;
    try exact I; try exact Hx.
  - (* zero + zero *) simpl. destruct sx, sf; simpl; lia.
  - (* zero + finite *) cbn [SFadd]. apply above_weaken with (c := 0); [lia |].
    simpl. exact Hf.
  - (* finite + finite *)
    cbn [SFadd cond_Zopp].
    rewrite !shl_align_fst by lia.
    set (ez := Z.min ex ef).
    assert (P1 : 0 < 2 ^ (ex - ez)) by (apply Z.pow_pos_nonneg; lia).
    assert (P2 : 0 < 2 ^ (ef - ez)) by (apply Z.pow_pos_nonneg; lia).
    destruct (Z.pos mx * 2 ^ (ex - ez) + Z.pos mf * 2 ^ (ef - ez)) as [| S | S] eqn:ES;
      try lia.
    cbn [binary_normalize]. apply binary_round_above; [exact Hc |].
    rewrite <- ES.
    pose proof (sle_elim _ _ ex _ _ Hx (Z.le_max_l 0 ex) (Z.le_max_l 0 (- ex)) ltac:(lia)) as H'.
    apply (sle_shift _ _ _ (Z.max 0 ex) (Z.max 0 (- ex) + (ex - ez))); try lia.
    rewrite pow2_split by lia.
    assert (0 < 2 ^ Z.max 0 ex) by (apply Z.pow_pos_nonneg; lia).
    nia.
Qed.

Lemma float_of_1000 : float_of_int 1000 = Ok float_1000.
Proof. reflexivity. Qed.

(** Dividing a float above [1000 * k] by 1000.0 gives a float above [k]. *)
Lemma float_truediv_above (s q : spec_float) (k : Z) :
  0 <= k <= 2 ^ 53 -> above (1000 * k) s ->
  float_truediv s float_1000 = Ok q -> above k q.
Proof.
  intros Hk Hs. unfold float_truediv, float_1000. cbn [is_zero]. intros [= <-].
  destruct s as [sx | [] | | [] ms es]; cbn [above] in Hs; try tauto; try exact I.
  - (* zero *) cbn [SFdiv above]. lia.
  - (* finite *)
    cbn [SFdiv xorb].
    destruct (Z.eq_dec k 0) as [-> | Hk0].
    { destruct (SFdiv_core_binary _ _ _ _ _ _) as [[mz ez] lz].
      apply binary_round_aux_sign. }
    assert (Hn : 0 < Z.pos (digits2_pos ms) + es).
    { pose proof (Zdigits2_bounds (Z.pos ms) ltac:(lia)) as [_ U]. cbn [Zdigits2] in U.
      unfold sle in Hs.
      assert (1 * 2 ^ Z.max 0 (- es) <= 1000 * k * 2 ^ Z.max 0 (- es))
        by (apply Z.mul_le_mono_nonneg_r; [apply Z.pow_nonneg |]; lia).
      assert (P : 0 < 2 ^ Z.max 0 es) by (apply Z.pow_pos_nonneg; lia).
      assert (Hlt : 2 ^ Z.max 0 (- es) < 2 ^ (Z.pos (digits2_pos ms) + Z.max 0 es)).
      { rewrite pow2_split by lia. nia. }
      apply Z.pow_lt_mono_r_iff in Hlt; lia. }
    destruct (SFdiv_core_spec (Z.pos ms) es 8796093022208000 (-43))
      as (sh & Hsh & -> & Hd & Hnorm); try lia.
    { change (Zdigits2 8796093022208000) with 53. cbn [Zdigits2]. lia. }
    change (Zdigits2 8796093022208000) with 53 in Hnorm. cbn [Zdigits2] in Hnorm.
    apply binary_round_aux_above; try lia.
    pose proof (sle_elim _ _ es _ _ Hs (Z.le_max_l 0 es) (Z.le_max_l 0 (- es)) ltac:(lia)) as H'.
    apply (sle_shift _ _ _ (Z.max 0 es + 43) (Z.max 0 (- es) + sh)); try lia.
    rewrite !pow2_split by lia. change (2 ^ 43) with 8796093022208.
    assert (0 < 2 ^ sh) by (apply Z.pow_pos_nonneg; lia).
    assert (0 < 2 ^ Z.max 0 es) by (apply Z.pow_pos_nonneg; lia).
    assert (0 < 2 ^ Z.max 0 (- es)) by (apply Z.pow_pos_nonneg; lia).
    nia.
Qed.

(** ** Every emitted record ends after it starts *)

Lemma SFmul_milli_sign (x : spec_float) :
  above 0 x -> above 0 (SFmul prec emax x milli).
Proof.
  unfold milli.
  destruct x as [s | [] | | [] m e]; cbn [above SFmul xorb]; try tauto; intros H.
  apply binary_round_aux_sign.
Qed.

Lemma ramptime_table (k : string) (m : pynum) :
  lookup k RAMPTIME_CONVERSION = Some m ->
  m = PFloat milli \/ exists y, 0 < y /\ m = PInt y.
Proof.
  unfold RAMPTIME_CONVERSION. cbn [lookup].
  repeat match goal with
    | |- (if ?b then _ else _) = _ -> _ =>
        destruct b; [intros [= <-]; first [now left | right; eexists; split; [| reflexivity]; reflexivity] |]
    end.
  discriminate.
Qed.

Lemma int_of_run_nonneg (num : string) (n : Z) :
  int_of_run num = Ok n -> 0 <= n.
Proof.
  intros H. apply int_of_run_ok in H as (_ & Hd & _ & ->).
  apply decimal_nonneg; [exact Hd | lia].
Qed.

(** A converted ramp time is never negative. *)
Lemma ramptime_nonneg (v : json) (r : pynum) :
  _convert_value v RAMPTIME_CONVERSION = Ok r -> nonneg_num r.
Proof.
  unfold _convert_value, convert_str. destruct v; try discriminate.
  destruct (findall s) as [| num [| unit [| x rest]]]; try discriminate.
  destruct (lookup (lower unit) RAMPTIME_CONVERSION) as [m |] eqn:El;
    [| discriminate].
  intros H. apply bind_ok in H as (n & Hn & H). apply int_of_run_nonneg in Hn.
  destruct (ramptime_table _ _ El) as [-> | (y & Hy & ->)].
  - cbn [py_mul to_float] in H. apply bind_ok in H as (x & Hx & H).
    cbn [bind] in H. injection H as <-. cbn [nonneg_num].
    apply SFmul_milli_sign. eapply float_of_int_above; [| | exact Hx]; lia.
  - cbn [py_mul] in H. injection H as <-. cbn [nonneg_num]. nia.
Qed.

Lemma job_options_nonneg (job numjobs filesize : json) (r : pynum) :
  job_options job = Ok (numjobs, filesize, r) -> nonneg_num r.
Proof.
  unfold job_options. intros H. apply bind_ok in H as (has & _ & H).
  destruct has.
  - apply bind_ok in H as (opts & _ & H).
    apply bind_ok in H as (h1 & _ & H). apply bind_ok in H as (n & _ & H).
    apply bind_ok in H as (h2 & _ & H). apply bind_ok in H as (f & _ & H).
    apply bind_ok in H as (h3 & _ & H). apply bind_ok in H as (r' & Hr & H).
    injection H as <- <- <-. destruct h3.
    + apply bind_ok in Hr as (x & _ & Hr). eapply ramptime_nonneg, Hr.
    + injection Hr as <-. simpl. lia.
  - injection H as <- <- <-. simpl. lia.
Qed.

Lemma global_options_nonneg (fio_out gf : json) (gr : pynum) :
  global_options fio_out = Ok (gf, gr) -> nonneg_num gr.
Proof.
  unfold global_options. intros H. apply bind_ok in H as (has & _ & H).
  destruct has.
  - apply bind_ok in H as (opts & _ & H).
    apply bind_ok in H as (h1 & _ & H). apply bind_ok in H as (f & _ & H).
    apply bind_ok in H as (h2 & _ & H). apply bind_ok in H as (r' & Hr & H).
    injection H as <- <-. destruct h2.
    + apply bind_ok in Hr as (x & _ & Hr). eapply ramptime_nonneg, Hr.
    + injection Hr as <-. simpl. lia.
  - injection H as <- <-. simpl. lia.
Qed.

Lemma read_job_ramp_nonneg (gf : json) (gr : pynum) (job : json) (v : job_view) :
  nonneg_num gr -> read_job gf gr job = Ok v -> nonneg_num (v_ramptime_ms v).
Proof.
  intros Hg H. unfold read_job in H.
  do 10 (apply bind_ok in H as (? & _ & H)).
  apply bind_ok in H as ([[numjobs filesize] r] & Hopts & H).
  injection H as <-. cbn [v_ramptime_ms].
  apply job_options_nonneg in Hopts.
  destruct (py_eqb r (PInt 0)); assumption.
Qed.

(** The time window of a job that starts at the non-negative millisecond
    [z] and ran for the non-negative time [rt]. *)
Lemma window_bounds (fio_out : json) (prev z rt : Z) (v : job_view)
    (s : pynum) (e : Z) :
  start_time_ms_of fio_out prev = Ok (JInt z) -> 0 <= z ->
  py_getitem (v_job_read v) RUNTIME = Ok (JInt rt) -> 0 <= rt ->
  nonneg_num (v_ramptime_ms v) ->
  time_window fio_out prev v = Ok (s, e) ->
  s = PInt (z / 1000) /\ 0 <= e /\ (1000 * (z / 1000) <= 2 ^ 53 -> z / 1000 <= e).
Proof.
  intros Hstart Hz Hrun Hrt Hramp H. unfold time_window in H.
  rewrite Hstart, Hrun in H. cbn [bind as_num py_add] in H.
  pose proof (Z.mul_div_le z 1000 ltac:(lia)) as Hfloor.
  pose proof (Z.div_pos z 1000 Hz ltac:(lia)) as Hk.
  destruct (v_ramptime_ms v) as [r | f]; cbn [nonneg_num] in Hramp.
  - cbn [py_add bind py_floordiv py_truediv] in H.
    change (1000 =? 0) with false in H. cbn [bind] in H.
    apply bind_ok in H as (q & Hq & H). apply bind_ok in Hq as (x & Hx & Hq).
    injection Hq as <-. apply bind_ok in H as (e' & He & H).
    injection H as <- <-. split; [reflexivity |]. split.
    + eapply round_above; [| exact He].
      eapply int_truediv_above; [| | exact Hx]; [split; [lia | apply Z.pow_nonneg; lia] | lia].
    + intros Hb. eapply round_above; [| exact He].
      eapply int_truediv_above; [| | exact Hx]; [| lia].
      assert (0 <= 2 ^ 53) by (apply Z.pow_nonneg; lia).
      change (2 ^ 53) with 9007199254740992 in *. lia.
  - cbn [py_add to_float] in H.
    apply bind_ok in H as (end_ms & Hend & H).
    apply bind_ok in Hend as (x & Hx & Hend). cbn [bind] in Hend.
    injection Hend as <-.
    cbn [py_floordiv] in H. change (1000 =? 0) with false in H. cbn [bind] in H.
    cbn [py_truediv to_float] in H. rewrite float_of_1000 in H. cbn [bind] in H.
    apply bind_ok in H as (q & Hq & H). apply bind_ok in Hq as (y & Hy & Hq).
    injection Hq as <-. apply bind_ok in H as (e' & He & H).
    injection H as <- <-. split; [reflexivity |].
    assert (Hgen : forall k, 0 <= k -> 1000 * k <= 2 ^ 53 -> 1000 * k <= z -> k <= e').
    { intros k Hk0 Hk1 Hk2. eapply round_above; [| exact He].
      eapply float_truediv_above; [| | exact Hy].
      - change (2 ^ 53) with 9007199254740992 in *. lia.
      - apply SFadd_above; [lia | | exact Hramp].
        eapply float_of_int_above; [| | exact Hx]; lia. }
    split.
    + apply Hgen; [lia | | lia]. rewrite Z.mul_0_r. apply Z.pow_nonneg. lia.
    + intros Hb. apply Hgen; lia.
Qed.

Section Timeline.

Variables (fio_out gf : json) (gr : pynum) (ts : Z).
Hypothesis Htimestamp : py_getitem fio_out TIMESTAMP_MS = Ok (JInt ts).
Hypothesis Hts : 0 <= ts.
Hypothesis Hgr : nonneg_num gr.

Lemma start_nonneg (prev : Z) :
  0 <= prev ->
  exists z, start_time_ms_of fio_out prev = Ok (JInt z) /\ 0 <= z.
Proof using Htimestamp Hts.
  intros Hprev. unfold start_time_ms_of.
  destruct (prev >? 0).
  - exists (prev * 1000). split; [reflexivity | lia].
  - exists ts. split; [exact Htimestamp | exact Hts].
Qed.

Lemma job_step_timed (st st' : loop_state) (i : nat) (job : json) :
  runtime_nonneg job -> 0 <= prev_endtime_s st ->
  job_step fio_out gf gr st i job = Ok st' ->
  0 <= prev_endtime_s st'
  /\ forall r, all_jobs st' = all_jobs st ++ [r] -> well_timed r.
Proof using Htimestamp Hts Hgr.
  intros (fields & read & rt & -> & Hread & Hrun & Hrt) Hprev Hstep.
  assert (Hrec : forall r, all_jobs st' = all_jobs st ++ [r] -> well_timed r).
  { intros r Hall.
    destruct (emitted_start _ _ _ _ _ _ _ _ Hstep Hall)
      as (v & _ & _ & Hv & Hw & Hskip & _).
    pose proof (read_job_ramp_nonneg _ _ _ _ Hgr Hv) as Hramp.
    apply read_job_reads in Hv
      as (fields' & read' & lat & [= <-] & _ & Hread' & Hjr & _).
    rewrite Hread in Hread'. injection Hread' as <-.
    destruct (start_nonneg _ Hprev) as (z & Hstart & Hz).
    assert (Hrt' : py_getitem (v_job_read v) RUNTIME = Ok (JInt rt))
      by (rewrite Hjr; now apply getitem_obj).
    destruct (window_bounds _ _ _ _ _ _ _ Hstart Hz Hrt' Hrt Hramp Hw)
      as (Hs & He & Hb).
    exists (z / 1000). split; [exact Hs |].
    split; [apply Z.div_pos; lia |]. split; [exact He |].
    assert (Hne : m_end_time r <> z / 1000).
    { unfold skip_job in Hskip. rewrite Hs in Hskip.
      apply orb_false_elim in Hskip as [Hskip _].
      apply orb_false_elim in Hskip as [_ Hskip].
      cbn [py_eqb] in Hskip. apply Z.eqb_neq in Hskip. lia. }
    split; [exact Hne |]. intros Hbound. specialize (Hb Hbound). lia. }
  split; [| exact Hrec].
  destruct (job_step_result _ _ _ _ _ _ _ Hstep) as [_ Hp _ | r Ha Hp _].
  - lia.
  - rewrite Hp. destruct (Hrec r Ha) as (s & _ & _ & He & _). exact He.
Qed.

Lemma run_jobs_timed (jobs : list json) : forall (i : nat) (st st' : loop_state),
  (forall job, In job jobs -> runtime_nonneg job) ->
  0 <= prev_endtime_s st -> Forall well_timed (all_jobs st) ->
  run_jobs fio_out gf gr i jobs st = Ok st' ->
  Forall well_timed (all_jobs st').
Proof using Htimestamp Hts Hgr.
  induction jobs as [| job rest IH]; intros i st st' Hjobs Hprev Hall H;
    simpl in H.
  - now injection H as <-.
  - apply bind_ok in H as (st1 & Hstep & H).
    destruct (job_step_timed st st1 i job) as [Hprev1 Hrec];
      [apply Hjobs; now left | exact Hprev | exact Hstep |].
    apply (IH (S i) st1 st'); [intros j Hj; apply Hjobs; now right | exact Hprev1 | | exact H].
    destruct (job_step_result _ _ _ _ _ _ _ Hstep) as [Ha _ _ | r Ha _ _];
      rewrite Ha; [exact Hall |].
    apply Forall_app. split; [exact Hall |]. constructor; [| constructor].
    apply Hrec, Ha.
Qed.

End Timeline.




(** ** Letter case *)

Lemma classify_lower (c : ascii) : classify (lower_char c) = classify c.
Proof. destruct c as [[] [] [] [] [] [] [] []]; reflexivity. Qed.

Lemma lower_char_idem (c : ascii) : lower_char (lower_char c) = lower_char c.
Proof. destruct c as [[] [] [] [] [] [] [] []]; reflexivity. Qed.

Lemma lower_char_digit (c : ascii) : is_digit c = true -> lower_char c = c.
Proof. destruct c as [[] [] [] [] [] [] [] []]; vm_compute; congruence. Qed.

Lemma is_digit_lower (c : ascii) : is_digit (lower_char c) = is_digit c.
Proof. destruct c as [[] [] [] [] [] [] [] []]; reflexivity. Qed.

Lemma lower_idem (s : string) : lower (lower s) = lower s.
Proof.
  induction s as [| c s IH]; simpl; [reflexivity |].
  now rewrite lower_char_idem, IH.
Qed.

Lemma lower_digits (s : string) : all_chars is_digit s = true -> lower s = s.
Proof.
  induction s as [| c s IH]; simpl; [reflexivity |]. intros H.
  apply andb_prop in H as [Hc Hs]. now rewrite lower_char_digit, IH.
Qed.

Lemma all_digits_lower (s : string) :
  all_chars is_digit (lower s) = all_chars is_digit s.
Proof.
  induction s as [| c s IH]; simpl; [reflexivity |].
  now rewrite is_digit_lower, IH.
Qed.

Lemma lower_rev_string (s acc : string) :
  lower (rev_string acc s) = rev_string (lower acc) (lower s).
Proof.
  revert acc. induction s as [| c s IH]; intros acc; simpl; [reflexivity |].
  now rewrite IH.
Qed.

Lemma flush_lower (run : string) : flush (lower run) = map lower (flush run).
Proof.
  destruct run as [| c run]; [reflexivity |].
  simpl. now rewrite lower_rev_string.
Qed.

Lemma scan_lower (s : string) : forall k run,
  scan k (lower run) (lower s) = map lower (scan k run s).
Proof.
  induction s as [| c s IH]; intros k run; simpl.
  - apply flush_lower.
  - rewrite classify_lower.
    destruct (classify c), k; cbn [cclass_eqb];
      rewrite ?map_app, <- ?flush_lower;
      first [ apply (IH _ (String c run))
            | f_equal; apply (IH _ (String c ""))
            | f_equal; apply (IH _ "") ].
Qed.

Lemma findall_lower (s : string) : findall (lower s) = map lower (findall s).
Proof. apply (scan_lower s COther ""). Qed.

Lemma int_of_run_lower (num : string) : int_of_run (lower num) = int_of_run num.
Proof.
  destruct (all_chars is_digit num) eqn:E.
  - now rewrite lower_digits.
  - unfold int_of_run. rewrite all_digits_lower, E.
    destruct num; reflexivity.
Qed.

Lemma convert_lower (s : string) (d : list (string * pynum)) :
  _convert_value (JStr (lower s)) d = _convert_value (JStr s) d.
Proof.
  unfold _convert_value, convert_str. rewrite findall_lower.
  destruct (findall s) as [| num [| unit [| x rest]]]; try reflexivity.
  cbn [map]. now rewrite lower_idem, int_of_run_lower.
Qed.

(** X1: the case of the letters never matters to [_convert_value]: two strings
    that are equal once their letters [A] to [Z] are put in lower case
    convert alike, to the same number or to the same exception, whatever
    the table. *)
Theorem convert_ignores_case (s1 s2 : string) (d : list (string * pynum)) :
  lower s1 = lower s2 ->
  _convert_value (JStr s1) d = _convert_value (JStr s2) d.
Proof.
  intros H. rewrite <- (convert_lower s1), <- (convert_lower s2). now rewrite H.
Qed.

Lemma convert_ignores_case_witness :
  _convert_value (JStr "50Mb") FILESIZE_CONVERSION
  = _convert_value (JStr "50mB") FILESIZE_CONVERSION.
Proof. apply (convert_ignores_case "50Mb" "50mB"). reflexivity. Defined.

(** ** Characters the pattern skips *)

Lemma scan_separator (c : ascii) (s2 : string) :
  classify c = COther ->
  forall s1 k run,
    scan k run (s1 ++ String c s2)%string = scan k run s1 ++ findall s2.
Proof.
  intros Hc. induction s1 as [| a s1 IH]; intros k run; simpl.
  - now rewrite Hc.
  - destruct (classify a), k; cbn [cclass_eqb];
      rewrite ?IH, ?app_assoc; reflexivity.
Qed.

Lemma findall_separator (c : ascii) (s1 s2 : string) :
  classify c = COther ->
  findall (s1 ++ String c s2)%string = findall s1 ++ findall s2.
Proof. intros Hc. now apply scan_separator. Qed.

Lemma findall_digits (ds : string) :
  ds <> "" -> all_chars is_digit ds = true -> findall ds = [ds].
Proof.
  intros Hne Hd. destruct ds as [| d ds]; [congruence |].
  simpl in Hd. apply andb_prop in Hd as [Hd Hds].
  unfold findall. simpl. apply classify_digit in Hd. rewrite Hd. simpl.
  rewrite <- (append_empty ds) at 1.
  rewrite scan_run by (try discriminate; now rewrite <- in_class_digit).
  simpl. apply flush_rev.
Qed.

Lemma findall_letters (ls : string) :
  ls <> "" -> all_chars is_alpha ls = true -> findall ls = [ls].
Proof.
  intros Hne Hl. destruct ls as [| l ls]; [congruence |].
  simpl in Hl. apply andb_prop in Hl as [Hl Hls].
  unfold findall. simpl. apply classify_alpha in Hl. rewrite Hl. simpl.
  rewrite <- (append_empty ls) at 1.
  rewrite scan_run by (try discriminate; now rewrite <- in_class_alpha).
  simpl. apply flush_rev.
Qed.

(** X2: a character that is neither a digit nor a letter is skipped wherever it
    stands around the number and the unit: in front of the value, behind
    it, or between the number and the unit.  A minus sign is such a
    character, so a negative value converts like the positive one. *)
Theorem convert_skips_separators (c : ascii) (d : list (string * pynum)) :
  classify c = COther ->
  (forall s, _convert_value (JStr (String c s)) d = _convert_value (JStr s) d)
  /\ (forall s, _convert_value (JStr (s ++ String c "")) d
                = _convert_value (JStr s) d)
  /\ (forall ds ls,
        ds <> "" -> ls <> "" ->
        all_chars is_digit ds = true -> all_chars is_alpha ls = true ->
        _convert_value (JStr (ds ++ String c ls)) d
        = _convert_value (JStr (ds ++ ls)) d).
Proof.
  intros Hc. unfold _convert_value, convert_str. split; [| split].
  - intros s. change (String c s) with ("" ++ String c s)%string.
    now rewrite findall_separator.
  - intros s. rewrite findall_separator by exact Hc.
    change (findall "") with (@nil string). now rewrite app_nil_r.
  - intros ds ls Hds Hls Hd Hl.
    rewrite findall_separator by exact Hc.
    now rewrite findall_digits, findall_letters, findall_num_unit.
Qed.

Lemma convert_skips_separators_witness :
  _convert_value (JStr "-5s") RAMPTIME_CONVERSION
  = _convert_value (JStr "5s") RAMPTIME_CONVERSION
  /\ _convert_value (JStr "5s ") RAMPTIME_CONVERSION
     = _convert_value (JStr "5s") RAMPTIME_CONVERSION.
Proof.
  destruct (convert_skips_separators "-" RAMPTIME_CONVERSION eq_refl)
    as (Hfront & _ & _).
  destruct (convert_skips_separators " " RAMPTIME_CONVERSION eq_refl)
    as (_ & Hback & _).
  split; [apply (Hfront "5s") | apply (Hback "5s")].
Defined.

(** ** Integer multipliers *)

Lemma convert_digits_unit (ds ls : string) (d : list (string * pynum)) (m : pynum) :
  ds <> "" -> ls <> "" ->
  all_chars is_digit ds = true -> all_chars is_alpha ls = true ->
  lookup (lower ls) d = Some m ->
  _convert_value (JStr (ds ++ ls)) d
  = if within_digit_limit (String.length ds)
    then py_mul (PInt (decimal 0 ds)) m
    else Raise ValueError.
Proof.
  intros Hds Hls Hd Hl Hm. unfold _convert_value, convert_str.
  rewrite findall_num_unit by assumption. rewrite Hm.
  destruct (within_digit_limit (String.length ds)) eqn:E.
  - rewrite int_of_run_digits by assumption. reflexivity.
  - rewrite int_of_run_long by assumption. reflexivity.
Qed.

(** X3: with a multiplier that is an [int], a run of at most 4300 digits
    followed by a unit of the table converts to the exact product, an
    [int]: nothing is rounded and nothing overflows, up to the largest
    number [int] converts.  A run of more than 4300 digits raises
    [ValueError]. *)
Theorem convert_integer_unit (ds ls : string) (d : list (string * pynum)) (y : Z) :
  ds <> "" -> ls <> "" ->
  all_chars is_digit ds = true -> all_chars is_alpha ls = true ->
  lookup (lower ls) d = Some (PInt y) ->
  _convert_value (JStr (ds ++ ls)) d
  = if within_digit_limit (String.length ds)
    then Ok (PInt (decimal 0 ds * y))
    else Raise ValueError.
Proof.
  intros Hds Hls Hd Hl Hy.
  now rewrite (convert_digits_unit ds ls d (PInt y)).
Qed.

Lemma convert_integer_unit_witness :
  _convert_value (JStr "123456789012345678901234567890GB") FILESIZE_CONVERSION
  = Ok (PInt (decimal 0 "123456789012345678901234567890" * 10 ^ 6)).
Proof.
  apply (convert_integer_unit "123456789012345678901234567890" "GB");
    try discriminate; reflexivity.
Defined.

(** ** The units of the two tables *)

(** X4: file sizes are decimal: for a number of at most 4300 digits, [k] is
    the unit of the result, and each of [m], [g], [t], [p] is a thousand
    times the unit before it; the suffix [b] after one of these letters
    changes nothing. *)
Theorem filesize_units_decimal (ds : string) :
  ds <> "" -> all_chars is_digit ds = true ->
  within_digit_limit (String.length ds) = true ->
  forall size n,
    size = (fun unit => _convert_value (JStr (ds ++ unit)) FILESIZE_CONVERSION) ->
    n = decimal 0 ds ->
    size "k" = Ok (PInt n)
    /\ size "m" = Ok (PInt (n * 1000))
    /\ size "g" = Ok (PInt (n * 1000 ^ 2))
    /\ size "t" = Ok (PInt (n * 1000 ^ 3))
    /\ size "p" = Ok (PInt (n * 1000 ^ 4))
    /\ size "kb" = size "k" /\ size "mb" = size "m" /\ size "gb" = size "g"
    /\ size "tb" = size "t" /\ size "pb" = size "p".
Proof.
  intros Hne Hd Hlim size n -> ->.
  assert (H : forall ls y,
             ls <> "" -> all_chars is_alpha ls = true ->
             lookup (lower ls) FILESIZE_CONVERSION = Some (PInt y) ->
             _convert_value (JStr (ds ++ ls)) FILESIZE_CONVERSION
             = Ok (PInt (decimal 0 ds * y))).
  { intros ls y Hls Hl Hy.
    now rewrite (convert_digits_unit ds ls _ (PInt y)), Hlim. }
  rewrite (H "k" 1), (H "m" (10 ^ 3)), (H "g" (10 ^ 6)), (H "t" (10 ^ 9)),
    (H "p" (10 ^ 12)), (H "kb" 1), (H "mb" (10 ^ 3)), (H "gb" (10 ^ 6)),
    (H "tb" (10 ^ 9)), (H "pb" (10 ^ 12)) by (try discriminate; reflexivity).
  rewrite Z.mul_1_r. repeat split.
Qed.

Lemma filesize_units_decimal_witness :
  _convert_value (JStr "50m") FILESIZE_CONVERSION = Ok (PInt (50 * 1000))
  /\ _convert_value (JStr "50mb") FILESIZE_CONVERSION
     = _convert_value (JStr "50m") FILESIZE_CONVERSION.
Proof.
  destruct (filesize_units_decimal "50" ltac:(discriminate) eq_refl eq_refl
              (fun unit => _convert_value (JStr ("50" ++ unit)) FILESIZE_CONVERSION)
              50 eq_refl eq_refl)
    as (_ & Hm & _ & _ & _ & _ & Hmb & _).
  split; [exact Hm | exact Hmb].
Defined.

(** X5: ramp times come out in milliseconds: for a number of at most 4300
    digits, [ms] is the unit of the result, a second is 1000 of them, a
    minute 60 seconds, an hour 60 minutes and a day 24 hours. *)
Theorem ramptime_units (ds : string) :
  ds <> "" -> all_chars is_digit ds = true ->
  within_digit_limit (String.length ds) = true ->
  forall ramp n,
    ramp = (fun unit => _convert_value (JStr (ds ++ unit)) RAMPTIME_CONVERSION) ->
    n = decimal 0 ds ->
    ramp "ms" = Ok (PInt n)
    /\ ramp "s" = Ok (PInt (n * 1000))
    /\ ramp "m" = Ok (PInt (n * 1000 * 60))
    /\ ramp "h" = Ok (PInt (n * 1000 * 60 * 60))
    /\ ramp "d" = Ok (PInt (n * 1000 * 60 * 60 * 24)).
Proof.
  intros Hne Hd Hlim ramp n -> ->.
  assert (H : forall ls y,
             ls <> "" -> all_chars is_alpha ls = true ->
             lookup (lower ls) RAMPTIME_CONVERSION = Some (PInt y) ->
             _convert_value (JStr (ds ++ ls)) RAMPTIME_CONVERSION
             = Ok (PInt (decimal 0 ds * y))).
  { intros ls y Hls Hl Hy.
    now rewrite (convert_digits_unit ds ls _ (PInt y)), Hlim. }
  rewrite (H "ms" 1), (H "s" 1000), (H "m" (60 * 1000)), (H "h" (3600 * 1000)),
    (H "d" (24 * 3600 * 1000)) by (try discriminate; reflexivity).
  repeat split; do 2 f_equal; lia.
Qed.

Lemma ramptime_units_witness :
  _convert_value (JStr "10s") RAMPTIME_CONVERSION = Ok (PInt (10 * 1000))
  /\ _convert_value (JStr "10h") RAMPTIME_CONVERSION
     = Ok (PInt (10 * 1000 * 60 * 60)).
Proof.
  destruct (ramptime_units "10" ltac:(discriminate) eq_refl eq_refl
              (fun unit => _convert_value (JStr ("10" ++ unit)) RAMPTIME_CONVERSION)
              10 eq_refl eq_refl)
    as (_ & Hs & _ & Hh & _).
  split; [exact Hs | exact Hh].
Defined.

(** ** No negative results *)

Lemma shr_1_keeps_nonneg (mrs : shr_record) :
  0 <= shr_m mrs -> 0 <= shr_m (shr_1 mrs).
Proof.
  destruct mrs as [m r s]. cbn [shr_m]. intros H.
  rewrite shr_1_nonneg by exact H. cbn [shr_m]. apply Z.div_pos; lia.
Qed.

Lemma iter_shr_keeps_nonneg (p : positive) : forall mrs,
  0 <= shr_m mrs -> 0 <= shr_m (iter_pos shr_1 p mrs).
Proof.
  induction p as [p IH | p IH |]; intros mrs H; simpl iter_pos.
  - apply IH, IH, shr_1_keeps_nonneg, H.
  - apply IH, IH, H.
  - apply shr_1_keeps_nonneg, H.
Qed.

Lemma shr_fexp_keeps_nonneg (m e : Z) (l : location) :
  0 <= m -> 0 <= shr_m (fst (shr_fexp prec emax m e l)).
Proof.
  intros H. unfold shr_fexp, shr.
  assert (H0 : 0 <= shr_m (shr_record_of_loc m l))
    by (destruct l as [| []]; exact H).
  destruct (fexp prec emax (Zdigits2 m + e) - e); cbn [fst]; try exact H0.
  apply iter_shr_keeps_nonneg, H0.
Qed.

Lemma round_nearest_even_nonneg (m : Z) (l : location) :
  0 <= m -> 0 <= round_nearest_even m l.
Proof.
  intros H. unfold round_nearest_even.
  destruct l as [| []]; try destruct (Z.even m); lia.
Qed.

Lemma binary_round_aux_not_negative (m e : Z) (l : location) :
  0 <= m -> not_negative (binary_round_aux prec emax false m e l).
Proof.
  intros Hm. unfold binary_round_aux.
  pose proof (shr_fexp_keeps_nonneg m e l Hm) as H1.
  destruct (shr_fexp prec emax m e l) as [mrs' e']. cbn [fst] in H1.
  pose proof (shr_fexp_keeps_nonneg _ e' loc_Exact
                (round_nearest_even_nonneg _ (loc_of_shr_record mrs') H1)) as H2.
  destruct (shr_fexp prec emax _ e' loc_Exact) as [mrs'' e'']. cbn [fst] in H2.
  destruct (shr_m mrs'') as [| p | p]; [exact I | | lia].
  destruct (_ <=? _); exact I.
Qed.

Lemma float_of_int_not_negative (n : Z) (x : spec_float) :
  0 <= n -> float_of_int n = Ok x -> not_negative x.
Proof.
  unfold float_of_int, binary_normalize. intros Hn.
  destruct n as [| p | p]; [| | lia].
  - intros [= <-]. exact I.
  - destruct (is_inf _); [discriminate |]. intros [= <-].
    unfold binary_round. destruct (shl_align _ _ _) as [mz ez].
    apply binary_round_aux_not_negative. lia.
Qed.

Lemma SFmul_milli_not_negative (x : spec_float) :
  not_negative x -> not_negative (SFmul prec emax x milli).
Proof.
  unfold milli.
  destruct x as [[] | [] | | [] m e]; cbn [not_negative SFmul xorb]; try tauto.
  intros _. apply binary_round_aux_not_negative. lia.
Qed.

Lemma not_negative_leb (f : spec_float) :
  not_negative f -> py_leb (PInt 0) (PFloat f) = true.
Proof.
  destruct f as [[] | [] | | [] m e]; cbn [not_negative]; try tauto; intros _;
    try reflexivity.
  cbn [py_leb float_cmp_int]. destruct e as [| p | p]; try reflexivity.
  assert (0 < Z.pos m * 2 ^ Z.pos p) by (apply Z.mul_pos_pos; lia).
  destruct (Z.compare_spec (Z.pos m * 2 ^ Z.pos p) 0); try reflexivity; lia.
Qed.

Lemma table_never_negative (d : list (string * pynum)) :
  (forall k m, lookup k d = Some m ->
               m = PFloat milli \/ exists y, 0 < y /\ m = PInt y) ->
  forall v r, _convert_value v d = Ok r -> py_leb (PInt 0) r = true.
Proof.
  intros Hd v r. unfold _convert_value, convert_str. destruct v; try discriminate.
  destruct (findall s) as [| num [| unit [| x rest]]]; try discriminate.
  destruct (lookup (lower unit) d) as [m |] eqn:El; [| discriminate].
  intros H. apply bind_ok in H as (n & Hn & H). apply int_of_run_nonneg in Hn.
  destruct (Hd _ _ El) as [-> | (y & Hy & ->)].
  - cbn [py_mul to_float] in H. apply bind_ok in H as (x & Hx & H).
    cbn [bind] in H. injection H as <-.
    apply not_negative_leb, SFmul_milli_not_negative.
    eapply float_of_int_not_negative; [| exact Hx]. lia.
  - cbn [py_mul] in H. injection H as <-. cbn [py_leb]. apply Z.leb_le. nia.
Qed.

(** X6: whatever the string, a value that [_convert_value] returns for one of
    the two tables of the module is not negative: [0 <= result] holds in
    Python's order on numbers, for the [int]s and for the floats. *)
Theorem convert_never_negative (v : json) (r : pynum) :
  _convert_value v FILESIZE_CONVERSION = Ok r
  \/ _convert_value v RAMPTIME_CONVERSION = Ok r ->
  py_leb (PInt 0) r = true.
Proof.
  intros [H | H].
  - eapply table_never_negative; [apply filesize_table | exact H].
  - eapply table_never_negative; [apply ramptime_table | exact H].
Qed.

Lemma convert_never_negative_witness :
  py_leb (PInt 0) (PInt 5000) = true.
Proof.
  apply (convert_never_negative (JStr "-5s") (PInt 5000)).
  right. reflexivity.
Defined.

(** ** Monotonicity of the ramp times *)

(** X7: ramp times are monotonic in the number as file sizes are: for a fixed
    unit of the ramp-time table, microseconds included, a smaller number
    never converts to a greater result. *)
Theorem ramptime_monotone (n1 n2 unit : string) (r1 r2 : pynum) :
  n1 <> "" -> n2 <> "" -> unit <> "" ->
  all_chars is_digit n1 = true -> all_chars is_digit n2 = true ->
  all_chars is_alpha unit = true ->
  decimal 0 n1 <= decimal 0 n2 ->
  _convert_value (JStr (n1 ++ unit)) RAMPTIME_CONVERSION = Ok r1 ->
  _convert_value (JStr (n2 ++ unit)) RAMPTIME_CONVERSION = Ok r2 ->
  py_leb r1 r2 = true.
Proof.
  intros E1 E2 Eu D1 D2 A Hle H1 H2.
  destruct (lookup (lower unit) RAMPTIME_CONVERSION) as [m |] eqn:El.
  - rewrite (convert_digits_unit n1 unit _ m) in H1 by assumption.
    rewrite (convert_digits_unit n2 unit _ m) in H2 by assumption.
    destruct (within_digit_limit (String.length n1)); [| discriminate H1].
    destruct (within_digit_limit (String.length n2)); [| discriminate H2].
    pose proof (decimal_nonneg n1 0 D1 ltac:(lia)) as Hpos.
    destruct (ramptime_table _ _ El) as [-> | (y & Hy & ->)].
    + cbn [py_mul to_float] in H1, H2.
      apply bind_ok in H1 as (x1 & Hx1 & H1).
      apply bind_ok in H2 as (x2 & Hx2 & H2).
      cbn [bind] in H1, H2. injection H1 as <-. injection H2 as <-.
      cbn [py_leb]. eapply mul_milli_mono; [| exact Hx1 | exact Hx2]. lia.
    + cbn [py_mul] in H1, H2. injection H1 as <-. injection H2 as <-.
      cbn [py_leb]. apply Z.leb_le. nia.
  - unfold _convert_value, convert_str in H1.
    rewrite findall_num_unit, El in H1 by assumption. discriminate H1.
Qed.

Lemma ramptime_monotone_witness :
  py_leb (PFloat float_1_5) (PFloat (S754_finite false 4503599627370496 (-51)))
  = true.
Proof.
  apply (ramptime_monotone "1500" "2000" "us"); try discriminate; reflexivity.
Defined.

(** ** What an emitted record holds *)

Lemma emitted_record fio_out gf gr st i job st' r :
  job_step fio_out gf gr st i job = Ok st' ->
  all_jobs st' = all_jobs st ++ [r] ->
  exists v,
    read_job gf gr job = Ok v
    /\ time_window fio_out (prev_endtime_s st) v = Ok (m_start_time r, m_end_time r)
    /\ skip_job v (m_start_time r) (m_end_time r) = false
    /\ _convert_value (v_filesize v) FILESIZE_CONVERSION = Ok (m_filesize r)
    /\ py_int (v_numjobs v) = Ok (m_num_threads r)
    /\ m_jobname r = v_jobname v
    /\ m_iops r = v_iops v /\ m_bw r = v_bw v
    /\ m_lat_min r = v_lat_min v /\ m_lat_max r = v_lat_max v
    /\ m_lat_mean r = v_lat_mean v.
Proof.
  unfold job_step. intros H Hall.
  apply bind_ok in H as (v & Hv & H).
  apply bind_ok in H as ([s e] & Hw & H).
  destruct (skip_job v s e) eqn:Hskip.
  - injection H as <-. simpl in Hall. now apply app_tail_neq in Hall.
  - apply bind_ok in H as (fs & Hfs & H).
    apply bind_ok in H as (n & Hn & H).
    injection H as <-. simpl in Hall. apply app_inj_tail in Hall as [_ <-].
    exists v. cbn. repeat split; assumption.
Qed.

Lemma emitted_of_job fio_out gf gr st i job st' r :
  job_step fio_out gf gr st i job = Ok st' ->
  all_jobs st' = all_jobs st ++ [r] ->
  record_of_job job r.
Proof.
  intros Hstep Hall. unfold record_of_job.
  destruct (emitted_record _ _ _ _ _ _ _ _ Hstep Hall)
    as (v & Hv & _ & _ & _ & _ & -> & -> & -> & -> & -> & ->).
  apply read_job_reads in Hv
    as (fields & read & lat & -> & Hname & Hread & _ & H).
  exists fields, read, lat. tauto.
Qed.

(** A property of every record an iteration appends holds for all the
    records of the loop. *)
Lemma run_jobs_forall (P : metric -> Prop) fio_out gf gr :
  (forall st i job st' r,
     job_step fio_out gf gr st i job = Ok st' ->
     all_jobs st' = all_jobs st ++ [r] -> P r) ->
  forall jobs i st st',
    run_jobs fio_out gf gr i jobs st = Ok st' ->
    Forall P (all_jobs st) -> Forall P (all_jobs st').
Proof.
  intros Hstep. induction jobs as [| job rest IH]; intros i st st' H Hall;
    simpl in H.
  - now injection H as <-.
  - apply bind_ok in H as (st1 & Hs & H). apply (IH _ _ _ H).
    destruct (job_step_result _ _ _ _ _ _ _ Hs) as [Ha _ _ | r Ha _ _];
      rewrite Ha; [exact Hall |].
    apply Forall_app. split; [exact Hall |]. constructor; [| constructor].
    eapply Hstep; [exact Hs | exact Ha].
Qed.

(** The parts of a successful extraction. *)
Lemma extract_ok fio_out records :
  _extract_metrics fio_out = Ok records ->
  exists gf gr jobsv jobs st,
    truthy fio_out = true
    /\ global_options fio_out = Ok (gf, gr)
    /\ py_getitem fio_out JOBS = Ok jobsv
    /\ py_iter jobsv = Ok jobs
    /\ run_jobs fio_out gf gr 0 jobs initial_state = Ok st
    /\ all_jobs st = records
    /\ records <> [].
Proof.
  unfold _extract_metrics. intros H.
  destruct (truthy fio_out); [| discriminate H]. cbn [negb] in H.
  apply bind_ok in H as ([gf gr] & Hg & H).
  apply bind_ok in H as (jobsv & Hjobsv & H).
  apply bind_ok in H as (jobs & Hjobs & H).
  apply bind_ok in H as (st & Hrun & H).
  exists gf, gr, jobsv, jobs, st.
  destruct (all_jobs st) as [| r l] eqn:E; [discriminate H |].
  injection H as <-. repeat split; try assumption. discriminate.
Qed.

Lemma picked_app jobs1 rs1 jobs2 rs2 :
  picked jobs1 rs1 -> picked jobs2 rs2 -> picked (jobs1 ++ jobs2) (rs1 ++ rs2).
Proof.
  intros H1 H2. induction H1; simpl.
  - exact H2.
  - now apply picked_skip.
  - now apply picked_keep.
Qed.

Lemma run_jobs_picked fio_out gf gr jobs : forall i st st',
  run_jobs fio_out gf gr i jobs st = Ok st' ->
  exists more, all_jobs st' = all_jobs st ++ more /\ picked jobs more.
Proof.
  induction jobs as [| job rest IH]; intros i st st' H; simpl in H.
  - injection H as <-. exists []. split; [now rewrite app_nil_r | constructor].
  - apply bind_ok in H as (st1 & Hstep & H).
    apply IH in H as (more & Hmore & Hp).
    destruct (job_step_result _ _ _ _ _ _ _ Hstep) as [Ha _ _ | r Ha _ _].
    + exists more. split; [congruence | now apply picked_skip].
    + exists (r :: more). split.
      * rewrite Hmore, Ha, <- app_assoc. reflexivity.
      * apply picked_keep; [| exact Hp].
        eapply emitted_of_job; [exact Hstep | exact Ha].
Qed.

Lemma picked_object jobs records :
  picked jobs records -> records <> [] ->
  exists fields, In (JObj fields) jobs.
Proof.
  induction 1 as [| job jobs records _ IH | job jobs r records Hr _ _]; intros Hne.
  - congruence.
  - destruct (IH Hne) as [f Hf]. exists f. now right.
  - destruct Hr as (fields & _ & _ & -> & _). exists fields. now left.
Qed.

Lemma picked_length jobs records :
  picked jobs records -> (List.length records <= List.length jobs)%nat.
Proof. induction 1; simpl; lia. Qed.

Lemma iter_array (jobsv : json) (jobs : list json) (fields : list (string * json)) :
  py_iter jobsv = Ok jobs -> In (JObj fields) jobs -> jobsv = JArr jobs.
Proof.
  destruct jobsv; simpl; try discriminate; intros [= <-] Hin.
  - exfalso. induction s as [| c s IH]; simpl in Hin; [destruct Hin |].
    destruct Hin as [Hin | Hin]; [discriminate Hin | auto].
  - reflexivity.
  - exfalso. apply in_map_iff in Hin as (kv & Hkv & _). discriminate Hkv.
Qed.

(** X8: when [_extract_metrics] returns, the report is an object with a list
    under [jobs] and a value under [timestamp_ms]; the list returned is
    not empty and holds at most one record per job, in the order of the
    jobs; each record carries the name of its job and the metrics iops, bw
    and lat_ns.min/max/mean of the job's [read] section as they stand in
    the report. *)
Theorem records_from_jobs (fio_out : json) (records : list metric) :
  _extract_metrics fio_out = Ok records ->
  exists fields jobs ts,
    fio_out = JObj fields
    /\ lookup JOBS fields = Some (JArr jobs)
    /\ lookup TIMESTAMP_MS fields = Some ts
    /\ picked jobs records
    /\ records <> []
    /\ (List.length records <= List.length jobs)%nat.
Proof.
  intros H.
  apply extract_ok in H
    as (gf & gr & jobsv & jobs & st & _ & _ & Hjobsv & Hiter & Hrun & <- & Hne).
  apply getitem_ok_obj in Hjobsv as (fields & -> & Hjobs).
  destruct (run_jobs_picked _ _ _ _ _ _ _ Hrun) as (more & Hmore & Hp).
  simpl in Hmore. rewrite <- Hmore in Hp.
  destruct (picked_object _ _ Hp Hne) as [f Hf].
  rewrite (iter_array _ _ _ Hiter Hf) in Hjobs.
  assert (Hts : exists ts, lookup TIMESTAMP_MS fields = Some ts).
  { destruct jobs as [| job rest]; [destruct Hf |].
    simpl in Hrun. apply bind_ok in Hrun as (st1 & Hstep & _).
    unfold job_step in Hstep. apply bind_ok in Hstep as (v & _ & Hstep).
    apply bind_ok in Hstep as ([s e] & Hw & _).
    unfold time_window in Hw. apply bind_ok in Hw as (start & Hstart & _).
    cbn in Hstart. destruct (lookup TIMESTAMP_MS fields) as [ts |]; [| discriminate].
    now exists ts. }
  destruct Hts as [ts Hts].
  exists fields, jobs, ts. repeat split; try assumption.
  now apply picked_length.
Qed.

Lemma records_from_jobs_witness :
  exists fields jobs ts,
    JObj (good_report (JStr "1_thread")) = JObj fields
    /\ lookup JOBS fields = Some (JArr jobs)
    /\ lookup TIMESTAMP_MS fields = Some ts
    /\ picked jobs [good_record (JStr "1_thread")]
    /\ [good_record (JStr "1_thread")] <> []
    /\ (List.length [good_record (JStr "1_thread")] <= List.length jobs)%nat.
Proof.
  apply (records_from_jobs (JObj (good_report (JStr "1_thread")))
           [good_record (JStr "1_thread")]).
  reflexivity.
Defined.

(** ** What every record satisfies *)

(** X9: every record returned has at least one of the metrics iops, bw and
    lat_ns.min/max/mean different from zero, and a file size that is not
    negative. *)
Theorem records_have_metrics (fio_out : json) (records : list metric) :
  _extract_metrics fio_out = Ok records ->
  forall r, In r records ->
    has_metric r = true /\ py_leb (PInt 0) (m_filesize r) = true.
Proof.
  intros H.
  apply extract_ok in H as (gf & gr & jobsv & jobs & st & _ & _ & _ & _ & Hrun & <- & _).
  apply Forall_forall.
  eapply run_jobs_forall; [| exact Hrun | constructor].
  intros st0 i job st1 r Hstep Hall.
  destruct (emitted_record _ _ _ _ _ _ _ _ Hstep Hall)
    as (v & _ & _ & Hskip & Hfs & _ & _ & Hi & Hb & Hmin & Hmax & Hmean).
  split.
  - unfold has_metric. rewrite Hi, Hb, Hmin, Hmax, Hmean.
    unfold skip_job in Hskip. apply orb_false_elim in Hskip as [_ Hskip].
    destruct (truthy (v_iops v)), (truthy (v_bw v)), (truthy (v_lat_min v)),
      (truthy (v_lat_max v)), (truthy (v_lat_mean v)); try reflexivity.
    discriminate Hskip.
  - apply (table_never_negative FILESIZE_CONVERSION filesize_table _ _ Hfs).
Qed.

Lemma records_have_metrics_witness :
  has_metric (good_record (JStr "1_thread")) = true
  /\ py_leb (PInt 0) (m_filesize (good_record (JStr "1_thread"))) = true.
Proof.
  apply (records_have_metrics (JObj (good_report (JStr "1_thread")))
           [good_record (JStr "1_thread")] eq_refl).
  left. reflexivity.
Defined.

(** ** Only what is read matters *)

Lemma lookup_keep (keys : list string) (k : string) (fields : list (string * json)) :
  In k keys -> lookup k (keep keys fields) = lookup k fields.
Proof.
  intros Hin. induction fields as [| [k' v] rest IH]; [reflexivity |].
  cbn [keep filter fst lookup]. fold (keep keys rest).
  destruct (String.eqb k k') eqn:E.
  - apply String.eqb_eq in E. subst k'.
    replace (existsb (String.eqb k) keys) with true.
    + cbn [lookup]. now rewrite String.eqb_refl.
    + symmetry. apply existsb_exists. exists k. split; [exact Hin |].
      apply String.eqb_refl.
  - destruct (existsb (String.eqb k') keys); [| exact IH].
    cbn [lookup]. rewrite E. exact IH.
Qed.

Lemma lookup_at_key (key k : string) (f : json -> json)
    (fields : list (string * json)) :
  lookup k (at_key key f fields)
  = if String.eqb k key then option_map f (lookup k fields) else lookup k fields.
Proof.
  induction fields as [| [k' v] rest IH].
  - cbn. now destruct (String.eqb k key).
  - cbn [at_key map fst snd]. fold (at_key key f rest).
    destruct (String.eqb k' key) eqn:E'; cbn [lookup];
      destruct (String.eqb k k') eqn:E; rewrite ?IH; try reflexivity.
    + apply String.eqb_eq in E. subst k'. now rewrite E'.
    + apply String.eqb_eq in E. subst k'. now rewrite E'.
Qed.

(** Simplifying a lookup in the kept part of an object. *)
Ltac kept :=
  rewrite ?lookup_at_key, ?lookup_keep by (cbn; tauto);
  cbn [String.eqb Ascii.eqb Bool.eqb JOBNAME GLOBAL_OPTS JOBS JOB_OPTS FILESIZE
       NUMJOBS TIMESTAMP_MS RUNTIME RAMPTIME READ IOPS BW LAT MIN MAX MEAN].

Lemma getitem_relevant_options (v : json) (key : string) :
  In key [NUMJOBS; FILESIZE; RAMPTIME] ->
  py_getitem (relevant_options v) key = py_getitem v key
  /\ py_contains key (relevant_options v) = py_contains key v.
Proof.
  intros Hin. destruct v; try (split; reflexivity).
  cbn [relevant_options in_object py_getitem py_contains].
  now rewrite lookup_keep.
Qed.

Lemma ramptime_relevant_options (v : json) :
  (has <- py_contains RAMPTIME (relevant_options v) ;;
   if has then x <- py_getitem (relevant_options v) RAMPTIME ;;
               _convert_value x RAMPTIME_CONVERSION
   else Ok (PInt 0))
  = (has <- py_contains RAMPTIME v ;;
     if has then x <- py_getitem v RAMPTIME ;;
                 _convert_value x RAMPTIME_CONVERSION
     else Ok (PInt 0)).
Proof.
  destruct (getitem_relevant_options v RAMPTIME) as [-> ->]; [cbn; tauto |].
  reflexivity.
Qed.

Lemma job_options_relevant (job : json) :
  job_options (relevant_job job) = job_options job.
Proof.
  destruct job; try reflexivity.
  unfold job_options. cbn [relevant_job in_object py_contains py_getitem].
  kept. destruct (lookup JOB_OPTS fields) as [opts |]; [| reflexivity].
  cbn [option_map bind].
  destruct (getitem_relevant_options opts NUMJOBS) as [-> ->]; [cbn; tauto |].
  destruct (getitem_relevant_options opts FILESIZE) as [-> ->]; [cbn; tauto |].
  destruct (getitem_relevant_options opts RAMPTIME) as [-> ->]; [cbn; tauto |].
  reflexivity.
Qed.

Lemma global_options_relevant (fio_out : json) :
  global_options (relevant fio_out) = global_options fio_out.
Proof.
  destruct fio_out; try reflexivity.
  unfold global_options. cbn [relevant in_object py_contains py_getitem].
  kept. destruct (lookup GLOBAL_OPTS fields) as [opts |]; [| reflexivity].
  cbn [option_map bind].
  destruct opts; try reflexivity.
  cbn [relevant_global in_object py_contains py_getitem].
  rewrite !lookup_keep by (cbn; tauto). reflexivity.
Qed.

Lemma timestamp_relevant (fio_out : json) :
  py_getitem (relevant fio_out) TIMESTAMP_MS = py_getitem fio_out TIMESTAMP_MS.
Proof.
  destruct fio_out; try reflexivity.
  cbn [relevant in_object py_getitem]. kept. reflexivity.
Qed.

Lemma jobs_relevant (fio_out : json) :
  py_getitem (relevant fio_out) JOBS
  = jobs <- py_getitem fio_out JOBS ;; Ok (relevant_jobs jobs).
Proof.
  destruct fio_out; try reflexivity.
  cbn [relevant in_object py_getitem]. kept.
  destruct (lookup JOBS fields); reflexivity.
Qed.

Lemma relevant_job_strings (l : list json) :
  Forall (fun v => exists s, v = JStr s) l -> map relevant_job l = l.
Proof.
  induction 1 as [| v l [s ->] _ IH]; [reflexivity |].
  cbn [map]. now rewrite IH.
Qed.

Lemma iter_relevant_jobs (jobsv : json) :
  py_iter (relevant_jobs jobsv)
  = jobs <- py_iter jobsv ;; Ok (map relevant_job jobs).
Proof.
  destruct jobsv; try reflexivity; cbn [relevant_jobs py_iter bind].
  - rewrite relevant_job_strings; [reflexivity |].
    induction s as [| c s IH]; constructor; eauto.
  - rewrite relevant_job_strings; [reflexivity |].
    induction fields as [| kv fields IH]; constructor; eauto.
Qed.

Lemma runtime_relevant_read (job_read : json) :
  py_getitem (relevant_read job_read) RUNTIME = py_getitem job_read RUNTIME.
Proof.
  destruct job_read; try reflexivity.
  cbn [relevant_read in_object py_getitem]. kept. reflexivity.
Qed.

Lemma read_job_relevant (gf : json) (gr : pynum) (job : json) :
  read_job gf gr (relevant_job job)
  = v <- read_job gf gr job ;;
    Ok (set_job_read (relevant_read (v_job_read v)) v).
Proof.
  unfold read_job. rewrite job_options_relevant.
  destruct job; try reflexivity.
  cbn [relevant_job in_object py_getitem]. kept.
  destruct (lookup JOBNAME fields) as [jobname |]; [| reflexivity].
  destruct (lookup READ fields) as [job_read |]; [| reflexivity].
  cbn [option_map bind].
  destruct job_read as [| | | | | | read]; try reflexivity.
  cbn [relevant_read in_object py_getitem]. kept.
  destruct (lookup IOPS read) as [iops |]; [| reflexivity].
  destruct (lookup BW read) as [bw |]; [| reflexivity].
  destruct (lookup LAT read) as [lat |]; [| reflexivity].
  cbn [option_map bind].
  destruct lat as [| | | | | | lat]; try reflexivity.
  cbn [relevant_lat in_object py_getitem].
  rewrite !lookup_keep by (cbn; tauto).
  destruct (lookup MIN lat) as [lmin |]; [| reflexivity].
  destruct (lookup MAX lat) as [lmax |]; [| reflexivity].
  destruct (lookup MEAN lat) as [lmean |]; [| reflexivity].
  cbn [bind].
  destruct (job_options (JObj fields)) as [[[numjobs filesize] ramptime] | e];
    reflexivity.
Qed.

Lemma time_window_relevant (fio_out : json) (prev : Z) (v : job_view) :
  time_window (relevant fio_out) prev
    (set_job_read (relevant_read (v_job_read v)) v)
  = time_window fio_out prev v.
Proof.
  unfold time_window, start_time_ms_of.
  rewrite timestamp_relevant. cbn [set_job_read v_job_read v_ramptime_ms].
  now rewrite runtime_relevant_read.
Qed.

Lemma job_step_relevant fio_out gf gr st i job :
  job_step (relevant fio_out) gf gr st i (relevant_job job)
  = job_step fio_out gf gr st i job.
Proof.
  unfold job_step. rewrite read_job_relevant.
  destruct (read_job gf gr job) as [v | e]; [| reflexivity]. cbn [bind].
  rewrite time_window_relevant.
  destruct (time_window fio_out (prev_endtime_s st) v) as [[s e] | e];
    reflexivity.
Qed.

Lemma run_jobs_relevant fio_out gf gr jobs : forall i st,
  run_jobs (relevant fio_out) gf gr i (map relevant_job jobs) st
  = run_jobs fio_out gf gr i jobs st.
Proof.
  induction jobs as [| job rest IH]; intros i st; [reflexivity |].
  cbn [map run_jobs]. rewrite job_step_relevant.
  destruct (job_step fio_out gf gr st i job) as [st1 | e]; [| reflexivity].
  cbn [bind]. apply IH.
Qed.

(** X10: [_extract_metrics] reads a report only in part: the time stamp, the
    file size and ramp time of the global options, and of every job its
    name, its three options and the fields iops, bw, runtime and
    lat_ns.min/max/mean of its [read] section.  The report with everything
    else removed gives the same records or the same exception, unless
    nothing at all is left of it. *)
Theorem extract_reads_relevant (fio_out : json) :
  relevant fio_out <> JObj [] ->
  _extract_metrics (relevant fio_out) = _extract_metrics fio_out.
Proof.
  intros Hne.
  assert (Ht : truthy (relevant fio_out) = truthy fio_out).
  { destruct fio_out; try reflexivity.
    cbn [relevant in_object truthy] in *.
    destruct fields as [| kv fields]; [now contradiction Hne |].
    destruct (at_key _ _ _); [now contradiction Hne | reflexivity]. }
  unfold _extract_metrics. rewrite Ht, global_options_relevant.
  destruct (negb (truthy fio_out)); [reflexivity |].
  destruct (global_options fio_out) as [[gf gr] | e]; [| reflexivity].
  cbn [bind]. rewrite jobs_relevant.
  destruct (py_getitem fio_out JOBS) as [jobsv | e]; [| reflexivity].
  cbn [bind]. rewrite iter_relevant_jobs.
  destruct (py_iter jobsv) as [jobs | e]; [| reflexivity].
  cbn [bind]. now rewrite run_jobs_relevant.
Qed.

Lemma extract_reads_relevant_witness :
  _extract_metrics (relevant full_good_report)
  = _extract_metrics full_good_report
  /\ relevant full_good_report = JObj (good_report (JStr "1_thread")).
Proof.
  split.
  - apply (extract_reads_relevant full_good_report). discriminate.
  - reflexivity.
Defined.

(** ** Documents of the wrong shape *)

(** X11: a report that is not an object gives no records: when it is empty,
    zero, false or null, [NoValuesError] with the message of the first
    check; otherwise [TypeError]. *)
Theorem document_must_be_object (fio_out : json) :
  (forall fields, fio_out <> JObj fields) ->
  _extract_metrics fio_out
  = Raise (if truthy fio_out then TypeError else NoValuesError msg_no_data).
Proof.
  intros Hobj. unfold _extract_metrics.
  destruct (truthy fio_out) eqn:Ht; cbn [negb]; [| reflexivity].
  destruct fio_out; try reflexivity; try discriminate Ht.
  - unfold global_options. cbn [py_contains bind].
    destruct (is_substring GLOBAL_OPTS s); reflexivity.
  - unfold global_options. cbn [py_contains bind].
    destruct (existsb (is_str GLOBAL_OPTS) items); reflexivity.
  - now contradiction (Hobj fields).
Qed.

Lemma document_must_be_object_witness :
  _extract_metrics (JArr [JObj (good_job (JStr "1_thread"))]) = Raise TypeError
  /\ _extract_metrics (JStr "") = Raise (NoValuesError msg_no_data).
Proof.
  split.
  - apply (document_must_be_object (JArr [JObj (good_job (JStr "1_thread"))])).
    discriminate.
  - apply (document_must_be_object (JStr "")). discriminate.
Defined.

Lemma read_job_not_object gf gr job :
  (forall fields, job <> JObj fields) -> read_job gf gr job = Raise TypeError.
Proof.
  intros H. destruct job; try reflexivity. now contradiction (H fields).
Qed.

Lemma run_jobs_first_raises fio_out gf gr job rest e :
  read_job gf gr job = Raise e ->
  forall i st, run_jobs fio_out gf gr i (job :: rest) st = Raise e.
Proof.
  intros H i st. cbn [run_jobs]. unfold job_step. now rewrite H.
Qed.

(** X12: the value under [jobs] has to be a list.  Anything else that can be
    iterated yields strings, which are no jobs: [TypeError] at the first of
    them, and [NoValuesError] when there is none; what cannot be iterated
    raises [TypeError] as well. *)
Theorem jobs_must_be_list (fio_out gf : json) (gr : pynum) (jobsv : json) :
  truthy fio_out = true ->
  global_options fio_out = Ok (gf, gr) ->
  py_getitem fio_out JOBS = Ok jobsv ->
  (forall items, jobsv <> JArr items) ->
  _extract_metrics fio_out
  = Raise (match py_iter jobsv with
           | Ok [] => NoValuesError msg_nothing_extracted
           | _ => TypeError
           end).
Proof.
  intros Ht Hg Hj Hlist. unfold _extract_metrics.
  rewrite Ht, Hg. cbn [negb bind]. rewrite Hj. cbn [bind].
  destruct jobsv; try reflexivity.
  - destruct s as [| c s]; [reflexivity |]. cbn [py_iter chars bind].
    now rewrite (run_jobs_first_raises _ _ _ _ _ TypeError).
  - now contradiction (Hlist items).
  - destruct fields as [| kv fields]; [reflexivity |]. cbn [py_iter map bind].
    now rewrite (run_jobs_first_raises _ _ _ _ _ TypeError).
Qed.

Lemma jobs_must_be_list_witness :
  _extract_metrics
    (JObj [ ("timestamp_ms", JInt 1653027155355);
            ("jobs", JObj [ ("1_thread", JObj (good_job (JStr "1_thread"))) ]) ])
  = Raise TypeError.
Proof.
  apply (jobs_must_be_list _ (JStr "") (PInt 0)
           (JObj [ ("1_thread", JObj (good_job (JStr "1_thread"))) ]));
    try reflexivity.
  discriminate.
Defined.

(** ** Missing keys of the report *)

(** X13: for a report whose global options are read without error: without
    [jobs], [KeyError] on that key; with an empty list of jobs,
    [NoValuesError], whether there is a time stamp or not; without
    [timestamp_ms], [KeyError] on that key as soon as the first job has its
    name, its metrics and its options; and when reading the first job
    raises, that exception, whatever the jobs after it are. *)
Theorem top_level_keys (fields : list (string * json)) (gf : json) (gr : pynum) :
  fields <> [] ->
  global_options (JObj fields) = Ok (gf, gr) ->
  (lookup JOBS fields = None ->
   _extract_metrics (JObj fields) = Raise (KeyError JOBS))
  /\ (lookup JOBS fields = Some (JArr []) ->
      _extract_metrics (JObj fields) = Raise (NoValuesError msg_nothing_extracted))
  /\ (forall job rest v,
        lookup JOBS fields = Some (JArr (job :: rest)) ->
        lookup TIMESTAMP_MS fields = None ->
        read_job gf gr job = Ok v ->
        _extract_metrics (JObj fields) = Raise (KeyError TIMESTAMP_MS))
  /\ (forall job rest e,
        lookup JOBS fields = Some (JArr (job :: rest)) ->
        read_job gf gr job = Raise e ->
        _extract_metrics (JObj fields) = Raise e).
Proof.
  intros Hne Hg. unfold _extract_metrics. rewrite Hg.
  destruct fields as [| kv0 fields0] eqn:Ef; [congruence |]. rewrite <- Ef in *.
  replace (truthy (JObj fields)) with true by (rewrite Ef; reflexivity).
  cbn [negb bind py_getitem].
  split; [| split; [| split]].
  - intros ->. reflexivity.
  - intros ->. reflexivity.
  - intros job rest v -> Hts Hv. cbn [bind py_iter run_jobs].
    unfold job_step. rewrite Hv. cbn [bind].
    unfold time_window, start_time_ms_of. cbn [initial_state prev_endtime_s].
    change (0 >? 0) with false. cbn [py_getitem]. rewrite Hts. reflexivity.
  - intros job rest e -> He. cbn [bind py_iter].
    now rewrite (run_jobs_first_raises _ _ _ _ _ e).
Qed.

Lemma top_level_keys_witness :
  _extract_metrics
    (JObj [ ("global options", JObj [ ("filesize", JStr "50M") ]);
            ("jobs", JArr [ JObj (good_job (JStr "1_thread")) ]) ])
  = Raise (KeyError TIMESTAMP_MS)
  /\ _extract_metrics (JObj [ ("timestamp_ms", JInt 1653027155355) ])
     = Raise (KeyError JOBS).
Proof.
  split.
  - destruct (top_level_keys
                [ ("global options", JObj [ ("filesize", JStr "50M") ]);
                  ("jobs", JArr [ JObj (good_job (JStr "1_thread")) ]) ]
                (JStr "50M") (PInt 0) ltac:(discriminate) eq_refl)
      as (_ & _ & H & _).
    apply (H (JObj (good_job (JStr "1_thread"))) []
             {| v_jobname := JStr "1_thread"; v_job_read := JObj good_read;
                v_iops := JFloat iops_good; v_bw := JInt 97547;
                v_lat_min := JInt 353377760; v_lat_max := JInt 1697519869;
                v_lat_mean := JFloat mean_good; v_numjobs := JStr "40";
                v_filesize := JStr "50M"; v_ramptime_ms := PInt 0 |});
      reflexivity.
  - destruct (top_level_keys [ ("timestamp_ms", JInt 1653027155355) ]
                (JStr "") (PInt 0) ltac:(discriminate) eq_refl)
      as (H & _).
    apply H. reflexivity.
Defined.

(** ** The exceptions of the extraction *)

Lemma raises_ok {A : Type} (P : exn -> Prop) (a : A) : raises_only P (Ok a).
Proof. intros e H. discriminate H. Qed.

Lemma raises_bind {A B : Type} (P : exn -> Prop) (m : outcome A)
    (k : A -> outcome B) :
  raises_only P m -> (forall a, m = Ok a -> raises_only P (k a)) ->
  raises_only P (bind m k).
Proof.
  intros Hm Hk e H. destruct m as [a | e']; cbn [bind] in H.
  - eapply Hk; [reflexivity | exact H].
  - injection H as <-. now apply Hm.
Qed.

Lemma raises_weaken {A : Type} (P Q : exn -> Prop) (m : outcome A) :
  (forall e, P e -> Q e) -> raises_only P m -> raises_only Q m.
Proof. intros HPQ H e He. apply HPQ, H, He. Qed.

Lemma getitem_ordinary v key : raises_only ordinary (py_getitem v key).
Proof.
  intros e. destruct v; cbn; try (intros [= <-]; exact I).
  destruct (lookup key fields); [discriminate | intros [= <-]; exact I].
Qed.

Lemma contains_ordinary key v : raises_only ordinary (py_contains key v).
Proof. intros e. destruct v; cbn; try discriminate; intros [= <-]; exact I. Qed.

Lemma iter_ordinary v : raises_only ordinary (py_iter v).
Proof. intros e. destruct v; cbn; try discriminate; intros [= <-]; exact I. Qed.

Lemma as_num_ordinary v : raises_only ordinary (as_num v).
Proof. intros e. destruct v; cbn; try discriminate; intros [= <-]; exact I. Qed.

Lemma to_float_ordinary a : raises_only ordinary (to_float a).
Proof.
  intros e. destruct a; cbn; [| discriminate].
  intros H. apply float_of_int_raises in H. now subst e.
Qed.

Lemma add_ordinary a b : raises_only ordinary (py_add a b).
Proof.
  destruct a, b; cbn [py_add]; try apply raises_ok;
    (apply raises_bind; [apply to_float_ordinary | intros x _];
     apply raises_bind; [apply to_float_ordinary | intros y _]; apply raises_ok).
Qed.

Lemma convert_ordinary v d : raises_only ordinary (_convert_value v d).
Proof.
  intros e. unfold _convert_value, convert_str.
  destruct v; try (intros [= <-]; exact I).
  destruct (findall s) as [| num [| unit [| x rest]]]; try (intros [= <-]; exact I).
  destruct (lookup (lower unit) d); [| intros [= <-]; exact I].
  destruct (int_of_run num) as [n | e'] eqn:En; cbn [bind].
  - intros H. apply py_mul_raises in H. now subst e.
  - intros [= <-]. unfold int_of_run in En.
    destruct num; [injection En as <-; exact I |].
    destruct (_ && _); [discriminate En | injection En as <-; exact I].
Qed.

Lemma int_ordinary v : raises_only ordinary (py_int v).
Proof.
  intros e. destruct v; cbn [py_int]; try discriminate; try (intros [= <-]; exact I).
  - destruct f; try discriminate; intros [= <-]; exact I.
  - unfold int_of_str. destruct (match strip s with String _ _ => _ | _ => _ end).
    destruct (int_digits _ _ _); [| intros [= <-]; exact I].
    destruct (within_digit_limit _); [discriminate | intros [= <-]; exact I].
Qed.

Lemma round_ordinary a : raises_only ordinary (py_round a).
Proof.
  intros e. destruct a as [z | []]; cbn; try discriminate; intros [= <-]; exact I.
Qed.

(** Dividing by the constant 1000 never divides by zero. *)
Lemma floordiv_1000_ordinary a : raises_only ordinary (py_floordiv a (PInt 1000)).
Proof.
  destruct a as [z | f]; cbn [py_floordiv].
  - change (1000 =? 0) with false. apply raises_ok.
  - cbn [to_float bind]. rewrite float_of_1000. cbn [bind].
    unfold float_floordiv. change (is_zero float_1000) with false. cbv iota.
    intros e H. exfalso. revert H.
    repeat match goal with
      | |- context [if ?b then _ else _] => destruct b
      end; discriminate.
Qed.

Lemma truediv_1000_ordinary a : raises_only ordinary (py_truediv a (PInt 1000)).
Proof.
  destruct a as [z | f]; cbn [py_truediv].
  - unfold int_truediv. change (1000 =? 0) with false. cbv iota.
    destruct (z =? 0); [apply raises_ok |].
    destruct (SFdiv_core_binary _ _ _ _ _ _) as [[q e] l].
    destruct (is_inf _); [| apply raises_ok].
    intros e' [= <-]. exact I.
  - cbn [to_float bind]. rewrite float_of_1000. cbn [bind]. apply raises_ok.
Qed.

Create HintDb ordinary.

#[local] Hint Resolve getitem_ordinary contains_ordinary iter_ordinary
  as_num_ordinary add_ordinary convert_ordinary int_ordinary round_ordinary
  floordiv_1000_ordinary truediv_1000_ordinary : ordinary.

(** Splitting a sequence of bindings into its operations. *)
Ltac ordinary_steps :=
  repeat first
    [ apply raises_ok
    | solve [auto with ordinary]
    | apply raises_bind; [| intros ? _]
    | match goal with
      | |- raises_only _ (if ?b then _ else _) => destruct b
      | |- raises_only _ (match ?x with pair _ _ => _ end) => destruct x
      end ].

Lemma job_options_ordinary job : raises_only ordinary (job_options job).
Proof. unfold job_options. ordinary_steps. Qed.

Lemma global_options_ordinary fio_out : raises_only ordinary (global_options fio_out).
Proof. unfold global_options. ordinary_steps. Qed.

Lemma read_job_ordinary gf gr job : raises_only ordinary (read_job gf gr job).
Proof.
  unfold read_job. ordinary_steps.
Qed.

Lemma time_window_ordinary fio_out prev v :
  raises_only ordinary (time_window fio_out prev v).
Proof. unfold time_window, start_time_ms_of. ordinary_steps. Qed.

Lemma job_step_ordinary fio_out gf gr st i job :
  raises_only ordinary (job_step fio_out gf gr st i job).
Proof.
  unfold job_step. apply raises_bind; [apply read_job_ordinary | intros v _].
  apply raises_bind; [apply time_window_ordinary | intros [s e] _].
  ordinary_steps.
Qed.

Lemma run_jobs_ordinary fio_out gf gr jobs : forall i st,
  raises_only ordinary (run_jobs fio_out gf gr i jobs st).
Proof.
  induction jobs as [| job rest IH]; intros i st; cbn [run_jobs].
  - apply raises_ok.
  - apply raises_bind; [apply job_step_ordinary | intros st1 _; apply IH].
Qed.

(** X14: whatever the report, [_extract_metrics] raises nothing but
    [KeyError], [TypeError], [ValueError], [OverflowError] and
    [NoValuesError] with one of its two messages; it never raises
    [ZeroDivisionError], although it divides. *)
Theorem extract_exceptions (fio_out : json) (e : exn) :
  _extract_metrics fio_out = Raise e -> expected_exception e.
Proof.
  assert (Hord : forall e', ordinary e' -> expected_exception e')
    by (intros []; cbn; tauto).
  revert e. change (raises_only expected_exception (_extract_metrics fio_out)).
  unfold _extract_metrics.
  destruct (negb (truthy fio_out)); [intros e [= <-]; now left |].
  apply raises_bind;
    [eapply raises_weaken; [exact Hord | apply global_options_ordinary] |].
  intros [gf gr] _.
  apply raises_bind;
    [eapply raises_weaken; [exact Hord | apply getitem_ordinary] | intros jobsv _].
  apply raises_bind;
    [eapply raises_weaken; [exact Hord | apply iter_ordinary] | intros jobs _].
  apply raises_bind;
    [eapply raises_weaken; [exact Hord | apply run_jobs_ordinary] | intros st _].
  destruct (all_jobs st); [intros e [= <-]; now right | apply raises_ok].
Qed.

Lemma extract_exceptions_witness :
  expected_exception (KeyError "read").
Proof.
  apply (extract_exceptions missing_read_report (KeyError "read")).
  reflexivity.
Defined.

(** ** The notices of skipped jobs *)

Lemma run_jobs_skipped fio_out gf gr jobs : forall i st st',
  run_jobs fio_out gf gr i jobs st = Ok st' ->
  exists more,
    skipped st' = skipped st ++ more
    /\ StronglySorted lt more
    /\ Forall (fun j => (i <= j < i + List.length jobs)%nat) more.
Proof.
  induction jobs as [| job rest IH]; intros i st st' H; simpl in H.
  - injection H as <-. exists []. rewrite app_nil_r. repeat constructor.
  - apply bind_ok in H as (st1 & Hstep & H).
    apply IH in H as (more & Hmore & Hsorted & Hrange).
    assert (Hrange' : Forall (fun j => (i <= j < i + List.length (job :: rest))%nat) more).
    { eapply Forall_impl; [| exact Hrange]. simpl. intros j Hj. lia. }
    destruct (job_step_result _ _ _ _ _ _ _ Hstep) as [_ _ Hs | r _ _ Hs].
    + exists (i :: more). split; [| split].
      * rewrite Hmore, Hs, <- app_assoc. reflexivity.
      * constructor; [exact Hsorted |].
        eapply Forall_impl; [| exact Hrange]. simpl. intros j Hj. lia.
      * constructor; [simpl; lia | exact Hrange'].
    + exists more. split; [congruence | split; assumption].
Qed.

(** X15: when the loop over the jobs completes, every job has either given a
    record or a skip notice: the indices of the notices increase, each is
    the index of a job, and there are as many notices and records together
    as there are jobs. *)
Theorem skip_notices (fio_out gf : json) (gr : pynum) (jobs : list json)
    (st : loop_state) :
  run_jobs fio_out gf gr 0 jobs initial_state = Ok st ->
  (List.length (all_jobs st) + List.length (skipped st) = List.length jobs)%nat
  /\ StronglySorted lt (skipped st)
  /\ Forall (fun i => (i < List.length jobs)%nat) (skipped st).
Proof.
  intros H. split.
  - apply run_jobs_count in H. simpl in H. lia.
  - apply run_jobs_skipped in H as (more & Hmore & Hsorted & Hrange).
    simpl in Hmore. subst more. split; [exact Hsorted |].
    eapply Forall_impl; [| exact Hrange]. simpl. intros j Hj. lia.
Qed.

Lemma skip_notices_witness :
  (List.length (all_jobs after_second_job)
   + List.length (skipped after_second_job) = 2)%nat
  /\ StronglySorted lt (skipped after_second_job)
  /\ Forall (fun i => (i < 2)%nat) (skipped after_second_job).
Proof.
  apply (skip_notices partial_report (JStr "50M") (PInt 10000)
           [zero_job; JObj (good_job (JStr "2_thread"))] after_second_job).
  reflexivity.
Defined.

(** ** The time line of the records *)

Lemma timeline_first ts l :
  timeline ts l ->
  forall r rest, l = r :: rest -> m_start_time r = PInt (ts / 1000).
Proof.
  induction 1 as [| l r0 _ IH Hs | l p r0 _ IH _ _]; intros r rest E.
  - discriminate E.
  - destruct l as [| a l].
    + injection E as <- _. exact Hs.
    + injection E as -> _. eapply IH. reflexivity.
  - destruct (l ++ [p]) as [| a l'] eqn:El.
    + now destruct l.
    + injection E as -> _. eapply IH. reflexivity.
Qed.

Lemma job_step_timeline fio_out gf gr ts st i job st' :
  py_getitem fio_out TIMESTAMP_MS = Ok (JInt ts) ->
  job_step fio_out gf gr st i job = Ok st' ->
  timeline ts (all_jobs st)
  /\ (prev_endtime_s st <= 0
      \/ exists l p, all_jobs st = l ++ [p] /\ prev_endtime_s st = m_end_time p) ->
  timeline ts (all_jobs st')
  /\ (prev_endtime_s st' <= 0
      \/ exists l p, all_jobs st' = l ++ [p] /\ prev_endtime_s st' = m_end_time p).
Proof.
  intros Hts Hstep [Htl Hprev].
  destruct (job_step_result _ _ _ _ _ _ _ Hstep) as [Ha Hp _ | r Ha Hp _].
  - rewrite Ha, Hp. split; [exact Htl | left; lia].
  - split; [| right; eauto].
    destruct (emitted_start _ _ _ _ _ _ _ _ Hstep Ha)
      as (v & start_ms & t & _ & _ & _ & Hstart & Ht & Hdiv).
    unfold start_time_ms_of in Hstart. rewrite Ha.
    destruct (prev_endtime_s st >? 0) eqn:E.
    + apply Z.gtb_lt in E. injection Hstart as <-. injection Ht as <-.
      cbn in Hdiv. injection Hdiv as Hdiv. rewrite Z.div_mul in Hdiv by lia.
      destruct Hprev as [Hle | (l & p & Hl & Hp')]; [lia |].
      rewrite Hl in *. apply starts_at_end; [exact Htl | lia | congruence].
    + rewrite Hts in Hstart. injection Hstart as <-. injection Ht as <-.
      cbn in Hdiv. injection Hdiv as Hdiv.
      apply starts_at_stamp; [exact Htl | now symmetry].
Qed.

Lemma run_jobs_timeline fio_out gf gr ts jobs : forall i st st',
  py_getitem fio_out TIMESTAMP_MS = Ok (JInt ts) ->
  run_jobs fio_out gf gr i jobs st = Ok st' ->
  timeline ts (all_jobs st)
  /\ (prev_endtime_s st <= 0
      \/ exists l p, all_jobs st = l ++ [p] /\ prev_endtime_s st = m_end_time p) ->
  timeline ts (all_jobs st').
Proof.
  induction jobs as [| job rest IH]; intros i st st' Hts H Hinv; simpl in H.
  - injection H as <-. apply Hinv.
  - apply bind_ok in H as (st1 & Hstep & H).
    eapply IH; [exact Hts | exact H |].
    eapply job_step_timeline; eassumption.
Qed.

(** X16: in the list returned for a report with an integer time stamp, the
    first record starts at the second of the time stamp, and every other
    record starts either there or at the end time of the record before it,
    and then that end time is positive. *)
Theorem records_timeline (fio_out : json) (records : list metric) (ts : Z) :
  _extract_metrics fio_out = Ok records ->
  py_getitem fio_out TIMESTAMP_MS = Ok (JInt ts) ->
  timeline ts records
  /\ exists r rest, records = r :: rest /\ m_start_time r = PInt (ts / 1000).
Proof.
  intros H Hts.
  apply extract_ok in H
    as (gf & gr & jobsv & jobs & st & _ & _ & _ & _ & Hrun & <- & Hne).
  assert (Htl : timeline ts (all_jobs st)).
  { eapply run_jobs_timeline; [exact Hts | exact Hrun |].
    split; [constructor | left; simpl; lia]. }
  split; [exact Htl |].
  destruct (all_jobs st) as [| r rest] eqn:E; [congruence |].
  exists r, rest. split; [reflexivity |].
  eapply timeline_first; [exact Htl | reflexivity].
Qed.

Lemma records_timeline_witness :
  timeline 1653027155355 [good_record (JStr "2_thread")]
  /\ exists r rest,
       [good_record (JStr "2_thread")] = r :: rest
       /\ m_start_time r = PInt (1653027155355 / 1000).
Proof.
  apply (records_timeline partial_report); reflexivity.
Defined.

(** ** The end time is the nearest second *)

Lemma rne_nearest (N D : Z) : 0 < D -> 2 * Z.abs (rne N D * D - N) <= D.
Proof.
  intros HD. pose proof (Z.div_mod N D ltac:(lia)) as E.
  pose proof (Z.mod_pos_bound N D HD) as B.
  unfold rne, round_nearest_even, loc_of.
  destruct (N mod D =? 0) eqn:E0.
  - apply Z.eqb_eq in E0. nia.
  - destruct (Z.compare_spec (2 * (N mod D)) D); try destruct (Z.even (N / D)); nia.
Qed.

Lemma rne_tie (N D : Z) : 0 < D -> 2 * (N mod D) = D -> Z.even (rne N D) = true.
Proof.
  intros HD H. unfold rne, round_nearest_even, loc_of.
  replace (N mod D =? 0) with false by (symmetry; apply Z.eqb_neq; lia).
  rewrite (proj2 (Z.compare_eq_iff _ _) H).
  destruct (Z.even (N / D)) eqn:Ev; [exact Ev |].
  rewrite Z.even_add, Ev. reflexivity.
Qed.

(** The nearest integer, the even one of two, is unique. *)
Lemma nearest_cases (N D z : Z) :
  0 < D -> 2 * Z.abs (z * D - N) <= D ->
  (z = N / D /\ 2 * (N mod D) <= D) \/ (z = N / D + 1 /\ D <= 2 * (N mod D)).
Proof.
  intros HD Hz.
  pose proof (Z.div_mod N D ltac:(lia)) as E.
  pose proof (Z.mod_pos_bound N D HD) as B.
  set (q := N / D) in *. set (r := N mod D) in *.
  assert (Hk : z * D - N = (z - q) * D - r) by lia.
  rewrite Hk in Hz.
  destruct (Z_lt_le_dec z q) as [L | L].
  - exfalso. assert ((z - q) * D <= (-1) * D) by (apply Z.mul_le_mono_nonneg_r; lia). lia.
  - destruct (Z_lt_le_dec (q + 1) z) as [U | U].
    + exfalso. assert (2 * D <= (z - q) * D) by (apply Z.mul_le_mono_nonneg_r; lia). lia.
    + destruct (Z.eq_dec z q) as [-> | Hne].
      * left. split; [reflexivity |]. replace ((q - q) * D) with 0 in Hz by lia. lia.
      * right. assert (z = q + 1) by lia. subst z. split; [reflexivity |].
        replace ((q + 1 - q) * D) with D in Hz by lia. lia.
Qed.

(** The nearest integer, the even one of two, is unique. *)
Lemma rne_unique (N D z : Z) :
  0 < D -> 2 * Z.abs (z * D - N) <= D ->
  (2 * (N mod D) = D -> Z.even z = true) ->
  z = rne N D.
Proof.
  intros HD Hz Hev.
  pose proof (nearest_cases N D z HD Hz) as Cz.
  pose proof (nearest_cases N D (rne N D) HD (rne_nearest N D HD)) as Cy.
  destruct (Z.eq_dec (2 * (N mod D)) D) as [T | T].
  - specialize (Hev T). pose proof (rne_tie N D HD T) as Hy.
    destruct Cz as [[Ez _] | [Ez _]], Cy as [[Ey _] | [Ey _]]; try congruence;
      rewrite Ez in Hev; rewrite Ey in Hy; rewrite Z.even_add in *;
      destruct (Z.even (N / D)); discriminate.
  - destruct Cz as [[Ez ?] | [Ez ?]], Cy as [[Ey ?] | [Ey ?]]; try congruence; lia.
Qed.

Lemma round_half_even_nearest (m p : positive) :
  2 * Z.abs (round_half_even m (Z.neg p) * 2 ^ Z.pos p - Z.pos m) <= 2 ^ Z.pos p
  /\ (2 * (Z.pos m mod 2 ^ Z.pos p) = 2 ^ Z.pos p ->
      Z.even (round_half_even m (Z.neg p)) = true).
Proof.
  unfold round_half_even. rewrite Z.pow_pos_fold.
  assert (P : 0 < 2 ^ Z.pos p) by (apply Z.pow_pos_nonneg; lia).
  pose proof (Z.div_mod (Z.pos m) (2 ^ Z.pos p) ltac:(lia)) as E.
  pose proof (Z.mod_pos_bound (Z.pos m) (2 ^ Z.pos p) P) as B.
  set (P2 := 2 ^ Z.pos p) in *. set (q := Z.pos m / P2) in *.
  set (r := Z.pos m mod P2) in *.
  destruct (Z.compare_spec (2 * r) P2) as [C | C | C].
  - split; [destruct (Z.even q); nia |]. intros _.
    destruct (Z.even q) eqn:Ev; [exact Ev |]. rewrite Z.even_add, Ev. reflexivity.
  - split; [nia | lia].
  - split; [nia | lia].
Qed.

(** Rounding a float with a full mantissa [m] at the negative exponent
    [- p] to an integer. *)
Lemma round_pack (m p : Z) :
  2 ^ 52 <= m <= 2 ^ 53 -> 2 <= p ->
  exists z,
    is_inf (pack m (- p)) = false
    /\ py_round (PFloat (pack m (- p))) = Ok z
    /\ 2 * Z.abs (z * 2 ^ p - m) <= 2 ^ p
    /\ (2 * (m mod 2 ^ p) = 2 ^ p -> Z.even z = true).
Proof.
  intros Hm Hp. unfold pack, canon.
  destruct (m =? 2 ^ 53) eqn:Em; cbn [fst snd].
  - apply Z.eqb_eq in Em. subst m.
    destruct (- p + 1) as [| q | q] eqn:Eq; try lia.
    assert (Hq : p = Z.pos q + 1) by lia.
    change (2 ^ 52) with (Z.pos 4503599627370496). cbn [fin].
    replace (Z.neg q <=? emax - prec) with true
      by (symmetry; apply Z.leb_le; unfold emax, prec; lia).
    exists (round_half_even 4503599627370496 (Z.neg q)).
    destruct (round_half_even_nearest 4503599627370496 q) as [Hn Ht].
    split; [reflexivity |]. split; [reflexivity |].
    assert (P : 2 ^ p = 2 * 2 ^ Z.pos q).
    { rewrite Hq, pow2_split by lia. change (2 ^ 1) with 2. lia. }
    rewrite P. change (2 ^ 53) with (2 * Z.pos 4503599627370496). split.
    + lia.
    + intros T. apply Ht. rewrite Z.mul_mod_distr_l in T; lia.
  - apply Z.eqb_neq in Em.
    destruct m as [| mp | mp]; try (change (2 ^ 52) with 4503599627370496 in Hm; lia).
    destruct (- p) as [| q | q] eqn:Eq; try lia.
    assert (Hq : p = Z.pos q) by lia.
    cbn [fin].
    replace (Z.neg q <=? emax - prec) with true
      by (symmetry; apply Z.leb_le; unfold emax, prec; lia).
    exists (round_half_even mp (Z.neg q)).
    destruct (round_half_even_nearest mp q) as [Hn Ht].
    split; [reflexivity |]. split; [reflexivity |]. rewrite Hq. split; assumption.
Qed.

(** The quotient [a / 1000] as a float: a full mantissa, the nearest to
    [a * 2^p / 1000], at the exponent [- p]. *)
Lemma int_truediv_1000 (a : Z) :
  0 < a <= 2 ^ 53 ->
  exists m p,
    9 <= p
    /\ 2 ^ 52 <= m <= 2 ^ 53
    /\ m = rne (a * 2 ^ p) 1000
    /\ (is_inf (pack m (- p)) = false -> int_truediv a 1000 = Ok (pack m (- p))).
Proof.
  intros [Hpos Hle]. unfold int_truediv.
  change (1000 =? 0) with false. change (1000 <? 0) with false. cbv iota.
  replace (a =? 0) with false by (symmetry; apply Z.eqb_neq; lia).
  replace (a <? 0) with false by (symmetry; apply Z.ltb_ge; lia).
  rewrite Z.abs_eq by lia. change (Z.abs 1000) with 1000. cbn [xorb].
  assert (Hda : 0 < Zdigits2 a) by (destruct a; simpl; lia).
  destruct (SFdiv_core_spec a 0 1000 0 Hpos ltac:(lia)) as (s & Hs & -> & Hd & Hn).
  { change (Zdigits2 1000) with 10. lia. }
  change (Zdigits2 1000) with 10 in Hn.
  assert (S2 : 0 < 2 ^ s) by (apply Z.pow_pos_nonneg; lia).
  assert (Hq0 : 0 < a * 2 ^ s / 1000).
  { pose proof (Z.div_pos (a * 2 ^ s) 1000 ltac:(lia) ltac:(lia)).
    destruct (a * 2 ^ s / 1000) as [| q | q]; simpl in Hd; lia. }
  set (q0 := a * 2 ^ s / 1000) in Hd, Hn, Hq0. set (d := Zdigits2 q0) in Hd, Hn.
  pose proof (Zdigits2_bounds q0 Hq0) as [Hlo _]. fold d in Hlo.
  assert (Hup : q0 < 2 ^ (s + 44)).
  { apply Z.div_lt_upper_bound; [lia |].
    rewrite pow2_split by lia. change (2 ^ 53) with (512 * 2 ^ 44) in Hle.
    assert (0 < 2 ^ 44) by reflexivity. nia. }
  assert (Hds : d - 1 < s + 44).
  { apply (Z.pow_lt_mono_r_iff 2); lia. }
  rewrite binary_round_aux_normal by (fold q0; fold d; lia).
  fold q0. fold d.
  pose proof (round_mantissa_bounds (a * 2 ^ s) 1000 ltac:(lia) ltac:(lia) Hd) as Hm.
  fold q0 in Hm. fold d in Hm.
  set (p := s + 53 - d).
  assert (Hs2 : 2 ^ s = 2 ^ p * 2 ^ (d - 53)).
  { rewrite <- pow2_split by (unfold p; lia). f_equal. unfold p. lia. }
  assert (Hr : rne (a * 2 ^ s) (1000 * 2 ^ (d - 53)) = rne (a * 2 ^ p) 1000).
  { rewrite Hs2, Z.mul_assoc. apply rne_scale; [lia |].
    apply Z.pow_pos_nonneg; lia. }
  rewrite Hr in *.
  replace (d + (0 - 0 - s) - 53) with (- p) by (unfold p; lia).
  exists (rne (a * 2 ^ p) 1000), p.
  split; [unfold p; lia |]. split; [exact Hm |]. split; [reflexivity |].
  intros ->. reflexivity.
Qed.

(** [round(a / 1000)], for an [int] between 0 and [2^53]: [a / 1000]
    rounded to the nearest integer, ties to even.  The float quotient in
    between loses nothing that matters. *)
Lemma round_int_truediv (a : Z) :
  0 <= a <= 2 ^ 53 ->
  exists f, int_truediv a 1000 = Ok f /\ py_round (PFloat f) = Ok (rne a 1000).
Proof.
  intros [H0 Hle]. destruct (Z.eq_dec a 0) as [-> | Hne].
  - exists (S754_zero false). split; reflexivity.
  - destruct (int_truediv_1000 a ltac:(lia)) as (m & p & Hp & Hm & Em & Hf).
    destruct (round_pack m p Hm ltac:(lia)) as (z & Hinf & Hz & Hnear & Htie).
    exists (pack m (- p)). split; [exact (Hf Hinf) |]. rewrite Hz. f_equal.
    assert (P : 512 <= 2 ^ p).
    { change 512 with (2 ^ 9). apply Z.pow_le_mono_r; lia. }
    pose proof (rne_nearest (a * 2 ^ p) 1000 ltac:(lia)) as Hmn.
    rewrite <- Em in Hmn.
    set (P2 := 2 ^ p) in *.
    apply rne_unique; [lia | |].
    + assert (U : z * 1000 - a <= 500).
      { destruct (Z_le_gt_dec (z * 1000 - a) 500) as [L | L]; [exact L |].
        exfalso.
        assert (501 * P2 <= (z * 1000 - a) * P2)
          by (apply Z.mul_le_mono_nonneg_r; lia).
        lia. }
      assert (L : -500 <= z * 1000 - a).
      { destruct (Z_le_gt_dec (-500) (z * 1000 - a)) as [L | L]; [exact L |].
        exfalso.
        assert ((z * 1000 - a) * P2 <= (-501) * P2)
          by (apply Z.mul_le_mono_nonneg_r; lia).
        lia. }
      lia.
    + intros T. apply Htie.
      pose proof (Z.div_mod a 1000 ltac:(lia)) as E.
      assert (Hr : a mod 1000 = 500) by lia.
      assert (Hp2 : P2 = 2 * 2 ^ (p - 1)).
      { unfold P2. replace p with (1 + (p - 1)) at 1 by lia.
        rewrite pow2_split by lia. reflexivity. }
      assert (Q : 0 < 2 ^ (p - 1)) by (apply Z.pow_pos_nonneg; lia).
      assert (Hex : a * P2 = 1000 * (a / 1000 * P2 + 2 ^ (p - 1))) by lia.
      assert (Hm' : m = a / 1000 * P2 + 2 ^ (p - 1)).
      { rewrite Em, rne_exact.
        - rewrite Hex, Z.mul_comm, Z.div_mul by lia. reflexivity.
        - rewrite Hex, Z.mul_comm. apply Z.mod_mul. lia. }
      rewrite Hm'. rewrite Z.add_comm, Z.mod_add by lia.
      rewrite Z.mod_small by lia. lia.
Qed.

(** X17: with an integer start in milliseconds, an integer run time and an
    integer ramp time whose sum lies between 0 and [2^53], the time window
    of a job is computed without error: the start time is the start in
    whole seconds, rounded down, and the end time is the sum in seconds
    rounded to the nearest integer, ties to even; the float division in
    between changes nothing. *)
Theorem end_time_nearest_second (fio_out : json) (prev : Z) (v : job_view)
    (start_ms rt ramp : Z) :
  start_time_ms_of fio_out prev = Ok (JInt start_ms) ->
  py_getitem (v_job_read v) RUNTIME = Ok (JInt rt) ->
  v_ramptime_ms v = PInt ramp ->
  0 <= start_ms + rt + ramp <= 2 ^ 53 ->
  time_window fio_out prev v
  = Ok (PInt (start_ms / 1000), rne (start_ms + rt + ramp) 1000).
Proof.
  intros Hstart Hrt Hramp Hsum. unfold time_window.
  rewrite Hstart, Hrt, Hramp. cbn [bind as_num py_add py_floordiv py_truediv].
  change (1000 =? 0) with false. cbn [bind].
  destruct (round_int_truediv _ Hsum) as (f & -> & Hround). cbn [bind].
  rewrite Hround. reflexivity.
Qed.

Lemma end_time_nearest_second_witness :
  time_window (JObj (good_report (JStr "1_thread"))) 0 good_view_1
  = Ok (PInt (1653027155355 / 1000), rne (1653027155355 + 60476 + 10000) 1000)
  /\ rne (1653027155355 + 60476 + 10000) 1000 = 1653027226.
Proof.
  split.
  - apply (end_time_nearest_second (JObj (good_report (JStr "1_thread"))) 0
             good_view_1 1653027155355 60476 10000); try reflexivity.
    split; [lia |]. change (2 ^ 53) with 9007199254740992. lia.
  - reflexivity.
Defined.

(** ** Reading a file *)


Lemma extract_truthy (fio_out : json) :
  truthy fio_out = true ->
  _extract_metrics fio_out <> Raise (NoValuesError msg_no_data).
Proof.
  intros Ht H. unfold _extract_metrics in H. rewrite Ht in H. cbn [negb] in H.
  assert (Hord : raises_only
                   (fun e => ordinary e \/ e = NoValuesError msg_nothing_extracted)
                   ('(gf, gr) <- global_options fio_out ;;
                    jobs <- py_getitem fio_out JOBS ;;
                    jobs <- py_iter jobs ;;
                    st <- run_jobs fio_out gf gr 0 jobs initial_state ;;
                    match all_jobs st with
                    | [] => Raise (NoValuesError msg_nothing_extracted)
                    | _ => Ok (all_jobs st)
                    end)).
  { assert (W : forall A (m : outcome A), raises_only ordinary m ->
                  raises_only (fun e => ordinary e
                                 \/ e = NoValuesError msg_nothing_extracted) m).
    { intros A m. apply raises_weaken. tauto. }
    apply raises_bind; [apply W, global_options_ordinary | intros [gf gr] _].
    apply raises_bind; [apply W, getitem_ordinary | intros jobsv _].
    apply raises_bind; [apply W, iter_ordinary | intros jobs _].
    apply raises_bind; [apply W, run_jobs_ordinary | intros st _].
    destruct (all_jobs st); [intros e [= <-]; now right | apply raises_ok]. }
  destruct (Hord _ H) as [Ho | Ho]; [exact Ho | discriminate Ho].
Qed.

(** X19: [get_metrics] leaves as many files open as it found.  It returns
    exactly the records [_extract_metrics] returns for the document of the
    file, a list that is never empty.  It never raises [NoValuesError] with
    the message of the check at the head of [_extract_metrics]: an empty
    document has been refused by [_load_file_dict] before. *)
Theorem get_metrics_extracts (h : host) (filepath : string) (open_files : nat) :
  fst (get_metrics h filepath open_files) = open_files
  /\ (forall records,
        snd (get_metrics h filepath open_files) = Return records <->
        exists text fio_out,
          file_text h filepath = Some text
          /\ json_load h text = Some fio_out
          /\ _extract_metrics fio_out = Ok records)
  /\ (forall records,
        snd (get_metrics h filepath open_files) = Return records ->
        records <> [])
  /\ snd (get_metrics h filepath open_files)
     <> Throw (Raised (NoValuesError msg_no_data)).
Proof.
  unfold get_metrics, _load_file_dict.
  destruct (file_text h filepath) as [text |] eqn:Ef; cbn [fst snd];
    [| repeat split; try discriminate; intros (t & d & Ht & _); discriminate Ht].
  destruct (json_load h text) as [fio_out |] eqn:Ej; cbn [fst snd Nat.pred];
    [| repeat split; try discriminate;
       intros (t & d & [= <-] & Hd & _); congruence].
  destruct (truthy fio_out) eqn:Ht; cbn [negb fst snd].
  - split; [reflexivity |]. split; [| split].
    + intros records. split.
      * destruct (_extract_metrics fio_out) eqn:E; [| discriminate].
        intros [= <-]. now exists text, fio_out.
      * intros (t & d & [= <-] & Hd & Hx).
        rewrite Ej in Hd. injection Hd as <-. now rewrite Hx.
    + intros records.
      destruct (_extract_metrics fio_out) eqn:E; [| discriminate].
      intros [= <-].
      now apply extract_ok in E as (_ & _ & _ & _ & _ & _ & _ & _ & _ & _ & _ & Hne).
    + destruct (_extract_metrics fio_out) eqn:E; [discriminate |].
      intros [= ->]. now apply (extract_truthy fio_out Ht).
  - split; [reflexivity |]. split; [| split].
    + intros records. split; [discriminate |].
      intros (t & d & [= <-] & Hd & Hx).
      rewrite Ej in Hd. injection Hd as <-.
      unfold _extract_metrics in Hx. rewrite Ht in Hx. discriminate Hx.
    + discriminate.
    + intros H. discriminate H.
Qed.
